(** * Thai ID card reader service: field decoder, protocol engine,
      reader monitor and broadcast hub

    A shallow embedding of the Go sources

      - [internal/infra/smartcard/pcsc_reader.go] (monitor loop, APDU
        protocol, photo reassembly, date conversion),
      - [internal/domain] ([ParseThaiAddress], the card record, the
        message envelope and the error table),
      - [cmd/card-service/main.go] (the two event handlers),
      - [internal/infra/websocket/hub.go] (the broadcast hub),

    together with the properties of the specification that can be stated
    over them.

    Conventions.  A Go [[]byte] is a [list byte]; a Go [string] is a
    [string] (a sequence of bytes, so Thai text appears as its UTF-8
    encoding); the conversions [string(b)] and [[]byte(s)] are
    [string_of_list_byte] and [list_byte_of_string].  Go's [int] is
    modelled by [Z]: every integer of this program stays far below 2^63.
    A Go [error] is modelled by the text its [Error()] method returns. *)

From Stdlib Require Import ZArith List Bool Lia Strings.Byte Ascii String DecimalString.
From stdpp Require Import gmap strings.
Import ListNotations.
Local Open Scope Z_scope.

(* ===================================================================== *)
(** * Go standard library: package [bytes] *)
(* ===================================================================== *)

Module GoBytes.

(** Membership of a byte in an ASCII cutset. *)
Definition byte_in (b : byte) (cutset : list byte) : bool :=
  existsb (Byte.eqb b) cutset.

(** [bytes.TrimLeft(s, cutset)] for an ASCII cutset. *)
Fixpoint TrimLeft (s cutset : list byte) : list byte :=
  match s with
  | [] => []
  | b :: s' => if byte_in b cutset then TrimLeft s' cutset else s
  end.

(** [bytes.TrimRight(s, cutset)] for an ASCII cutset. *)
Definition TrimRight (s cutset : list byte) : list byte :=
  rev (TrimLeft (rev s) cutset).

(** [bytes.Trim(s, cutset)]: both ends. *)
Definition Trim (s cutset : list byte) : list byte :=
  TrimRight (TrimLeft s cutset) cutset.

(** [bytes.HasPrefix(s, prefix)]. *)
Fixpoint HasPrefix (s prefix : list byte) : bool :=
  match prefix, s with
  | [], _ => true
  | _ :: _, [] => false
  | p :: prefix', b :: s' => Byte.eqb b p && HasPrefix s' prefix'
  end.

(** [bytes.Index(s, sep)]: the index of the first instance of [sep] in
    [s], or -1.  [i] is the index of the head of [s] in the original
    slice. *)
Fixpoint Index_from (i : Z) (s sep : list byte) : Z :=
  if HasPrefix s sep then i
  else match s with
       | [] => -1
       | _ :: s' => Index_from (i + 1) s' sep
       end.

Definition Index (s sep : list byte) : Z := Index_from 0 s sep.

(** [bytes.Contains(s, sub)]. *)
Definition Contains (s sub : list byte) : bool := 0 <=? Index s sub.

(** [bytes.Split(s, sep)] for a non-empty separator: all the pieces
    between the occurrences of [sep], scanned from the left.  [skip]
    counts the bytes of a matched separator still to be passed over and
    [cur] holds the current piece, reversed. *)
Fixpoint Split_aux (s sep : list byte) (skip : nat) (cur : list byte)
  : list (list byte) :=
  match s with
  | [] => [rev cur]
  | b :: s' =>
      match skip with
      | S k => Split_aux s' sep k cur
      | O =>
          if HasPrefix s sep
          then rev cur :: Split_aux s' sep (length sep - 1) []
          else Split_aux s' sep 0 (b :: cur)
      end
  end.

Definition Split (s sep : list byte) : list (list byte) :=
  Split_aux s sep 0 [].

(** The slice expression [s[:n]]. *)
Definition slice_to (s : list byte) (n : Z) : list byte :=
  firstn (Z.to_nat n) s.

End GoBytes.

(* ===================================================================== *)
(** * Go standard library: package [strings] *)
(* ===================================================================== *)

Module GoStrings.

Definition B (s : string) : list byte := list_byte_of_string s.
Definition S_ (b : list byte) : string := string_of_list_byte b.

Definition HasPrefix (s prefix : string) : bool :=
  GoBytes.HasPrefix (B s) (B prefix).

(** [strings.TrimPrefix]: [s] without the leading [prefix], or [s]
    itself when it does not start with it. *)
Definition TrimPrefix (s prefix : string) : string :=
  if HasPrefix s prefix
  then S_ (skipn (length (B prefix)) (B s))
  else s.

Definition Contains (s sub : string) : bool :=
  GoBytes.Contains (B s) (B sub).

Definition Split (s sep : string) : list string :=
  map S_ (GoBytes.Split (B s) (B sep)).

(** [strings.Join(elems, sep)]. *)
Fixpoint Join (elems : list string) (sep : string) : string :=
  match elems with
  | [] => ""
  | [e] => e
  | e :: rest => e +:+ sep +:+ Join rest sep
  end.

(** The UTF-8 encodings of the code points with the Unicode White_Space
    property ([unicode.IsSpace]): U+0009..U+000D, U+0020, U+0085,
    U+00A0, U+1680, U+2000..U+200A, U+2028, U+2029, U+202F, U+205F,
    U+3000. *)
Definition space_encodings : list (list byte) :=
  [ [x09]; [x0a]; [x0b]; [x0c]; [x0d]; [x20];
    [xc2; x85]; [xc2; xa0];
    [xe1; x9a; x80];
    [xe2; x80; x80]; [xe2; x80; x81]; [xe2; x80; x82]; [xe2; x80; x83];
    [xe2; x80; x84]; [xe2; x80; x85]; [xe2; x80; x86]; [xe2; x80; x87];
    [xe2; x80; x88]; [xe2; x80; x89]; [xe2; x80; x8a];
    [xe2; x80; xa8]; [xe2; x80; xa9]; [xe2; x80; xaf];
    [xe2; x81; x9f];
    [xe3; x80; x80] ].

(** The rest of [s] after one leading white-space rune, if there is
    one. *)
Fixpoint strip_one (encs : list (list byte)) (s : list byte)
  : option (list byte) :=
  match encs with
  | [] => None
  | e :: encs' =>
      if GoBytes.HasPrefix s e then Some (skipn (length e) s)
      else strip_one encs' s
  end.

Fixpoint strip_all (fuel : nat) (encs : list (list byte)) (s : list byte)
  : list byte :=
  match fuel with
  | O => s
  | S f => match strip_one encs s with
           | Some s' => strip_all f encs s'
           | None => s
           end
  end.

(** [strings.TrimSpace]: leading, then trailing white space removed.
    A trailing rune is recognised on the reversed bytes. *)
Definition TrimSpace (s : string) : string :=
  let b := B s in
  let l := strip_all (length b) space_encodings b in
  let r := strip_all (length l) (map (@rev byte) space_encodings) (rev l) in
  S_ (rev r).

End GoStrings.

(* ===================================================================== *)
(** * Go standard library: package [fmt] *)
(* ===================================================================== *)

Module GoFmt.

Definition is_digit (b : byte) : bool :=
  (48 <=? Byte.to_N b)%N && (Byte.to_N b <=? 57)%N.

Definition digit_val (b : byte) : Z := Z.of_N (Byte.to_N b) - 48.

(** The longest run of decimal digits at the head of [s], and the rest. *)
Fixpoint span_digits (s : list byte) : list byte * list byte :=
  match s with
  | b :: s' =>
      if is_digit b
      then let (ds, r) := span_digits s' in (b :: ds, r)
      else ([], s)
  | [] => ([], [])
  end.

(** [strconv.ParseInt(tok, 10, 64)] on a run of digits. *)
Definition parse_digits (ds : list byte) : Z :=
  fold_left (fun acc b => 10 * acc + digit_val b) ds 0.

(** The scanner's [SkipSpace] under [Sscanf]: white-space runes are
    passed over, but a newline is an error ([None]). *)
Fixpoint SkipSpace (fuel : nat) (s : list byte) : option (list byte) :=
  match fuel with
  | O => Some s
  | S f =>
      if GoBytes.HasPrefix s [x0a] then None
      else match GoStrings.strip_one GoStrings.space_encodings s with
           | Some s' => SkipSpace f s'
           | None => Some s
           end
  end.

(** [fmt.Sscanf(str, "%d", &v)]: [Some n] when an integer was scanned
    and stored, [None] when the scan failed and [v] was left alone.
    After the leading white space comes an optional sign, then at
    least one digit; scanning stops at the first other byte. *)
Definition Sscanf_d (str : string) : option Z :=
  match SkipSpace (length (GoStrings.B str)) (GoStrings.B str) with
  | None => None
  | Some s =>
      let '(neg, s1) :=
        match s with
        | b :: s' =>
            if Byte.eqb b x2d then (true, s')
            else if Byte.eqb b x2b then (false, s')
            else (false, s)
        | [] => (false, s)
        end in
      match span_digits s1 with
      | ([], _) => None
      | (ds, _) => Some (if neg then - parse_digits ds else parse_digits ds)
      end
  end.

(** Decimal digits of a natural number, most significant first. *)
Definition decimal (n : N) : string :=
  NilEmpty.string_of_uint (N.to_uint n).

Fixpoint zeros (k : nat) : string :=
  match k with O => "" | S k' => String "0" (zeros k') end.

(** [fmt.Sprintf("%04d", n)]: the sign, if any, counts in the width of
    four; zeros fill the space between the sign and the digits. *)
Definition Sprintf_04d (n : Z) : string :=
  let ds := decimal (Z.abs_N n) in
  if n <? 0
  then "-" +:+ zeros (3 - String.length ds) +:+ ds
  else zeros (4 - String.length ds) +:+ ds.

(** One upper-case hexadecimal digit. *)
Definition hex_digit (n : N) : ascii :=
  if (n <? 10)%N then ascii_of_N (48 + n) else ascii_of_N (55 + n).

(** [fmt.Sprintf("%02X", b)] for a byte. *)
Definition Sprintf_02X (b : byte) : string :=
  let n := Byte.to_N b in
  String (hex_digit (n / 16)) (String (hex_digit (n mod 16)) "").

End GoFmt.

(* ===================================================================== *)
(** * Package [domain]: records, error table, address parser *)
(* ===================================================================== *)

(** A minimal JSON value, the target of [json.Marshal] on the structs of
    this program (field names are the structs' [json] tags). *)
#[warnings="-register-all"]
Inductive JSON : Type :=
| JNull
| JString (s : string)
| JNumber (n : Z)
| JObject (fields : list (string * JSON)).

Module domain.

Record Address : Type := mkAddress {
  HouseNo : string;
  Moo : string;
  Soi : string;
  Street : string;
  Subdistrict : string;
  District : string;
  Province : string;
  FullAddress : string
}.

(** The zero value [Address{}]. *)
Definition Address_zero : Address := mkAddress "" "" "" "" "" "" "" "".

Definition set_HouseNo (a : Address) (v : string) : Address :=
  mkAddress v (Moo a) (Soi a) (Street a) (Subdistrict a) (District a)
            (Province a) (FullAddress a).
Definition set_Moo (a : Address) (v : string) : Address :=
  mkAddress (HouseNo a) v (Soi a) (Street a) (Subdistrict a) (District a)
            (Province a) (FullAddress a).
Definition set_Soi (a : Address) (v : string) : Address :=
  mkAddress (HouseNo a) (Moo a) v (Street a) (Subdistrict a) (District a)
            (Province a) (FullAddress a).
Definition set_Street (a : Address) (v : string) : Address :=
  mkAddress (HouseNo a) (Moo a) (Soi a) v (Subdistrict a) (District a)
            (Province a) (FullAddress a).
Definition set_Subdistrict (a : Address) (v : string) : Address :=
  mkAddress (HouseNo a) (Moo a) (Soi a) (Street a) v (District a)
            (Province a) (FullAddress a).
Definition set_District (a : Address) (v : string) : Address :=
  mkAddress (HouseNo a) (Moo a) (Soi a) (Street a) (Subdistrict a) v
            (Province a) (FullAddress a).
Definition set_Province (a : Address) (v : string) : Address :=
  mkAddress (HouseNo a) (Moo a) (Soi a) (Street a) (Subdistrict a)
            (District a) v (FullAddress a).
Definition set_FullAddress (a : Address) (v : string) : Address :=
  mkAddress (HouseNo a) (Moo a) (Soi a) (Street a) (Subdistrict a)
            (District a) (Province a) v.

(** The card record, in the declaration that goes with
    [ParseThaiAddress] and that [readCard] is written against: the
    address is a pointer to an [Address], and [None] is Go's [nil]. *)
Record ThaiIdCard : Type := mkThaiIdCard {
  CitizenID : string;
  PrefixNameTH : string;
  FirstNameTH : string;
  MiddleNameTH : string;
  LastNameTH : string;
  PrefixNameEN : string;
  FirstNameEN : string;
  MiddleNameEN : string;
  LastNameEN : string;
  DateOfBirth : string;
  Gender : string;
  Address_ : option Address;
  IssueDate : string;
  ExpireDate : string;
  PhotoBase64 : string
}.

(** The zero value [ThaiIdCard{}]. *)
Definition ThaiIdCard_zero : ThaiIdCard :=
  mkThaiIdCard "" "" "" "" "" "" "" "" "" "" "" None "" "" "".

Definition set_CitizenID (c : ThaiIdCard) (v : string) : ThaiIdCard :=
  mkThaiIdCard v (PrefixNameTH c) (FirstNameTH c) (MiddleNameTH c)
    (LastNameTH c) (PrefixNameEN c) (FirstNameEN c) (MiddleNameEN c)
    (LastNameEN c) (DateOfBirth c) (Gender c) (Address_ c) (IssueDate c)
    (ExpireDate c) (PhotoBase64 c).
Definition set_NameTH (c : ThaiIdCard) (first last : string) : ThaiIdCard :=
  mkThaiIdCard (CitizenID c) (PrefixNameTH c) first (MiddleNameTH c)
    last (PrefixNameEN c) (FirstNameEN c) (MiddleNameEN c)
    (LastNameEN c) (DateOfBirth c) (Gender c) (Address_ c) (IssueDate c)
    (ExpireDate c) (PhotoBase64 c).
Definition set_NameEN (c : ThaiIdCard) (first last : string) : ThaiIdCard :=
  mkThaiIdCard (CitizenID c) (PrefixNameTH c) (FirstNameTH c)
    (MiddleNameTH c) (LastNameTH c) (PrefixNameEN c) first
    (MiddleNameEN c) last (DateOfBirth c) (Gender c) (Address_ c)
    (IssueDate c) (ExpireDate c) (PhotoBase64 c).
Definition set_DateOfBirth (c : ThaiIdCard) (v : string) : ThaiIdCard :=
  mkThaiIdCard (CitizenID c) (PrefixNameTH c) (FirstNameTH c)
    (MiddleNameTH c) (LastNameTH c) (PrefixNameEN c) (FirstNameEN c)
    (MiddleNameEN c) (LastNameEN c) v (Gender c) (Address_ c)
    (IssueDate c) (ExpireDate c) (PhotoBase64 c).
Definition set_Gender (c : ThaiIdCard) (v : string) : ThaiIdCard :=
  mkThaiIdCard (CitizenID c) (PrefixNameTH c) (FirstNameTH c)
    (MiddleNameTH c) (LastNameTH c) (PrefixNameEN c) (FirstNameEN c)
    (MiddleNameEN c) (LastNameEN c) (DateOfBirth c) v (Address_ c)
    (IssueDate c) (ExpireDate c) (PhotoBase64 c).
Definition set_Address (c : ThaiIdCard) (v : option Address) : ThaiIdCard :=
  mkThaiIdCard (CitizenID c) (PrefixNameTH c) (FirstNameTH c)
    (MiddleNameTH c) (LastNameTH c) (PrefixNameEN c) (FirstNameEN c)
    (MiddleNameEN c) (LastNameEN c) (DateOfBirth c) (Gender c) v
    (IssueDate c) (ExpireDate c) (PhotoBase64 c).
Definition set_IssueDate (c : ThaiIdCard) (v : string) : ThaiIdCard :=
  mkThaiIdCard (CitizenID c) (PrefixNameTH c) (FirstNameTH c)
    (MiddleNameTH c) (LastNameTH c) (PrefixNameEN c) (FirstNameEN c)
    (MiddleNameEN c) (LastNameEN c) (DateOfBirth c) (Gender c)
    (Address_ c) v (ExpireDate c) (PhotoBase64 c).
Definition set_ExpireDate (c : ThaiIdCard) (v : string) : ThaiIdCard :=
  mkThaiIdCard (CitizenID c) (PrefixNameTH c) (FirstNameTH c)
    (MiddleNameTH c) (LastNameTH c) (PrefixNameEN c) (FirstNameEN c)
    (MiddleNameEN c) (LastNameEN c) (DateOfBirth c) (Gender c)
    (Address_ c) (IssueDate c) v (PhotoBase64 c).
Definition set_PhotoBase64 (c : ThaiIdCard) (v : string) : ThaiIdCard :=
  mkThaiIdCard (CitizenID c) (PrefixNameTH c) (FirstNameTH c)
    (MiddleNameTH c) (LastNameTH c) (PrefixNameEN c) (FirstNameEN c)
    (MiddleNameEN c) (LastNameEN c) (DateOfBirth c) (Gender c)
    (Address_ c) (IssueDate c) (ExpireDate c) v.

Definition ErrCodeReaderNotFound : Z := 1001.
Definition ErrMsgReaderNotFound : string := "No smart card reader found.".
Definition ErrCodeCardNotDetected : Z := 1002.
Definition ErrMsgCardNotDetected : string :=
  "No smart card detected in the reader.".
Definition ErrCodeReadFailed : Z := 1003.
Definition ErrMsgReadFailed : string :=
  "Failed to read data from the smart card.".
Definition ErrCodeUnsupportedCard : Z := 1004.
Definition ErrMsgUnsupportedCard : string :=
  "The inserted card is not a supported Thai ID card.".

Record ErrorResponse : Type := mkErrorResponse {
  Code : Z;
  Message : string
}.

(** The payload of a message is an [interface{}]; the program puts one
    of three things in it. *)
Inductive Payload : Type :=
| PayloadNil
| PayloadCard (card : ThaiIdCard)
| PayloadError (e : ErrorResponse).

Record WebSocketMessage : Type := mkWebSocketMessage {
  Type_ : string;
  Payload_ : Payload
}.

(** ** [ParseThaiAddress] *)

Import GoStrings.

(** One turn of the loop over the middle parts. *)
Definition parseMiddlePart (addr : Address) (raw : string) : Address :=
  let part := TrimSpace raw in
  if String.eqb part "" then addr
  else if HasPrefix part "หมู่ที่" then
    set_Moo addr (TrimSpace (TrimPrefix part "หมู่ที่"))
  else if HasPrefix part "ซอย" then
    set_Soi addr (TrimSpace (TrimPrefix part "ซอย"))
  else if HasPrefix part "ตำบล" || HasPrefix part "แขวง" then
    set_Subdistrict addr
      (TrimSpace (TrimPrefix (TrimPrefix part "ตำบล") "แขวง"))
  else if HasPrefix part "อำเภอ" || HasPrefix part "เขต" then
    set_District addr
      (TrimSpace (TrimPrefix (TrimPrefix part "อำเภอ") "เขต"))
  else if HasPrefix part "จังหวัด" then
    set_Province addr (TrimSpace (TrimPrefix part "จังหวัด"))
  else if String.eqb (Street addr) "" then
    set_Street addr part
  else addr.

(** [append] onto [fullAddressParts] when the field is not empty. *)
Definition appendIf (cond : bool) (parts : list string) (tok : string)
  : list string :=
  if cond then parts ++ [tok] else parts.

Definition nonEmpty (s : string) : bool := negb (String.eqb s "").

Definition buildFullAddress (addressStr : string) (addr : Address)
  : string :=
  let p0 : list string := [] in
  let p1 := appendIf (nonEmpty (HouseNo addr)) p0 (HouseNo addr) in
  let p2 := appendIf (nonEmpty (Moo addr)) p1 ("หมู่ที่ " +:+ Moo addr) in
  let p3 := appendIf (nonEmpty (Soi addr)) p2 ("ซอย" +:+ Soi addr) in
  let p4 := appendIf (nonEmpty (Street addr)) p3 (Street addr) in
  let p5 :=
    appendIf (nonEmpty (Subdistrict addr)) p4
      ((if Contains addressStr "แขวง" then "แขวง" else "ตำบล")
         +:+ Subdistrict addr) in
  let p6 :=
    appendIf (nonEmpty (District addr)) p5
      ((if Contains addressStr "เขต" then "เขต" else "อำเภอ")
         +:+ District addr) in
  let p7 :=
    appendIf (nonEmpty (Province addr)) p6 ("จังหวัด" +:+ Province addr) in
  Join p7 " ".

Definition ParseThaiAddress (addressStr : string) : option Address :=
  if String.eqb addressStr "" then None
  else
    let parts := Split addressStr "#" in
    if (length parts =? 0)%nat
    then Some (set_FullAddress Address_zero addressStr)
    else
      let addr := Address_zero in
      (* house number from the first part *)
      let addr :=
        match parts with
        | p0 :: _ =>
            if nonEmpty p0 then set_HouseNo addr (TrimSpace p0) else addr
        | [] => addr
        end in
      (* province from the last part *)
      let addr :=
        if (1 <? length parts)%nat then
          let lastPart := TrimSpace (List.last parts "") in
          if nonEmpty lastPart then
            if HasPrefix lastPart "จังหวัด"
            then set_Province addr
                   (TrimSpace (TrimPrefix lastPart "จังหวัด"))
            else set_Province addr lastPart
          else addr
        else addr in
      (* middle parts: indices 1 .. endIdx-1 *)
      let endIdx :=
        let e := Z.of_nat (length parts) - 1 in
        if e <? 1 then Z.of_nat (length parts) else e in
      let middle := firstn (Z.to_nat (endIdx - 1)) (skipn 1 parts) in
      let addr := fold_left parseMiddlePart middle addr in
      Some (set_FullAddress addr (buildFullAddress addressStr addr)).

(** ** JSON encoding of the structs ([json] tags of the source) *)

Definition marshalAddress (a : option Address) : JSON :=
  match a with
  | None => JNull
  | Some a =>
      JObject [ ("houseNo", JString (HouseNo a));
                ("moo", JString (Moo a));
                ("soi", JString (Soi a));
                ("street", JString (Street a));
                ("subdistrict", JString (Subdistrict a));
                ("district", JString (District a));
                ("province", JString (Province a));
                ("fullAddress", JString (FullAddress a)) ]
  end.

Definition marshalCard (c : ThaiIdCard) : JSON :=
  JObject [ ("citizenId", JString (CitizenID c));
            ("prefixNameTh", JString (PrefixNameTH c));
            ("firstNameTh", JString (FirstNameTH c));
            ("middleNameTh", JString (MiddleNameTH c));
            ("lastNameTh", JString (LastNameTH c));
            ("prefixNameEN", JString (PrefixNameEN c));
            ("firstNameEn", JString (FirstNameEN c));
            ("middleNameEN", JString (MiddleNameEN c));
            ("lastNameEn", JString (LastNameEN c));
            ("dateOfBirth", JString (DateOfBirth c));
            ("gender", JString (Gender c));
            ("address", marshalAddress (Address_ c));
            ("issueDate", JString (IssueDate c));
            ("expireDate", JString (ExpireDate c));
            ("photoBase64", JString (PhotoBase64 c)) ].

Definition marshalPayload (p : Payload) : JSON :=
  match p with
  | PayloadNil => JNull
  | PayloadCard c => marshalCard c
  | PayloadError e =>
      JObject [ ("code", JNumber (Code e)); ("message", JString (Message e)) ]
  end.

Definition marshalMessage (m : WebSocketMessage) : JSON :=
  JObject [ ("type", JString (Type_ m));
            ("payload", marshalPayload (Payload_ m)) ].

End domain.

(* ===================================================================== *)
(** * The PC/SC layer and the effects of the reader *)
(* ===================================================================== *)

(** [scard.LeaveCard] and [scard.ResetCard]. *)
Inductive Disposition : Type := LeaveCard | ResetCard.

(** The PC/SC library ([github.com/ebfe/scard]) and the hardware behind it
    are outside the repository.  They are an interface here: [World] is
    the state of readers and cards, [Card] a connected session.  Every
    call may change the world; a call that can fail returns the error
    text on the left.  [Connect] is always called with exclusive sharing
    and protocols T0|T1, so only the reader name is an argument. *)
Class PCSC (World Card : Type) : Type := {
  ListReaders : World -> (string + list string) * World;
  Connect : string -> World -> (string + Card) * World;
  Transmit : Card -> list byte -> World -> (string + list byte) * World;
  Disconnect : Card -> Disposition -> World -> World
}.

(** What the reader goroutine does to the outside, in order: sleeps, PC/SC
    calls, and messages that [Run] has received from the hub's broadcast
    channel. *)
Inductive Event : Type :=
| ESleep (ms : Z)
| EListReaders
| EConnect (reader : string)
| ETransmit (cmd : list byte)
| EDisconnect (d : Disposition)
| EBroadcast (m : domain.WebSocketMessage).

(** The hub as the reader goroutine meets it.  [hub.BroadcastMessage]
    sends on the unbuffered channel [h.broadcast]; the send completes when
    [Run] receives the message, and never when [Run] does not come back to
    its [select].  [Deliver m w] is [Some w'] in the first case, with the
    world after the reception, and [None] in the second. *)
Class HubLink (World : Type) : Type := {
  Deliver : domain.WebSocketMessage -> World -> option World
}.

(** The outcome of a computation: a value, a Go run-time panic, or a
    goroutine that waits for ever in a channel send. *)
Inductive Result (A : Type) : Type :=
| Ok (a : A)
| Panic
| Stuck.
Arguments Ok {A} a.
Arguments Panic {A}.
Arguments Stuck {A}.

Section Effects.

Context {World Card : Type} `{PCSC World Card}.

Record Sys : Type := mkSys {
  world : World;
  log : list Event
}.

(** State monad of the reader goroutine; a panic or a send that never
    completes ends the computation. *)
Definition M (A : Type) : Type := Sys -> Result A * Sys.

Definition ret {A} (a : A) : M A := fun s => (Ok a, s).

Definition bind {A B} (m : M A) (f : A -> M B) : M B :=
  fun s => match m s with
           | (Ok a, s') => f a s'
           | (Panic, s') => (Panic, s')
           | (Stuck, s') => (Stuck, s')
           end.

Definition panic {A} : M A := fun s => (Panic, s).

Definition emit (e : Event) : M unit :=
  fun s => (Ok tt, mkSys (world s) (log s ++ [e])).

(** [time.Sleep(ms * time.Millisecond)]. *)
Definition sleep (ms : Z) : M unit := emit (ESleep ms).

Definition listReaders : M (string + list string) :=
  fun s => let (r, w) := ListReaders (world s) in
           (Ok r, mkSys w (log s ++ [EListReaders])).

Definition connect (reader : string) : M (string + Card) :=
  fun s => let (r, w) := Connect reader (world s) in
           (Ok r, mkSys w (log s ++ [EConnect reader])).

Definition transmit (card : Card) (cmd : list byte)
  : M (string + list byte) :=
  fun s => let (r, w) := Transmit card cmd (world s) in
           (Ok r, mkSys w (log s ++ [ETransmit cmd])).

Definition disconnect (card : Card) (d : Disposition) : M unit :=
  fun s => (Ok tt, mkSys (Disconnect card d (world s))
                         (log s ++ [EDisconnect d])).

End Effects.

Arguments Sys World : clear implicits.
Arguments M World A : clear implicits.

Declare Scope go_scope.
Delimit Scope go_scope with go.
Notation "x <- m ;; k" := (bind m (fun x => k))
  (at level 100, m at next level, right associativity) : go_scope.
Notation "m ;;; k" := (bind m (fun _ => k))
  (at level 100, right associativity) : go_scope.

(* ===================================================================== *)
(** * Package [smartcard]: the protocol engine *)
(* ===================================================================== *)

Module smartcard.

Import domain.
Local Open Scope go_scope.

(** [formatDate]: Buddhist-Era [YYYYMMDD] to Gregorian [YYYY-MM-DD].
    A failed [Sscanf] leaves [thaiYear] at its zero value. *)
Definition formatDate (dateStr : string) : string :=
  let dateStr :=
    string_of_list_byte (GoBytes.Trim (list_byte_of_string dateStr) [x00]) in
  if (String.length dateStr <? 8)%nat then ""
  else
    let year := substring 0 4 dateStr in
    let month := substring 4 2 dateStr in
    let day := substring 6 2 dateStr in
    let thaiYear :=
      match GoFmt.Sscanf_d year with Some v => v | None => 0 end in
    let gregorianYear := thaiYear - 543 in
    GoFmt.Sprintf_04d gregorianYear +:+ "-" +:+ month +:+ "-" +:+ day.

(** The status word: the last two bytes of a response of length at
    least 2. *)
Definition statusWord (rsp : list byte) : byte * byte :=
  (nth (length rsp - 2) rsp x00, nth (length rsp - 1) rsp x00).

(** [rsp[:len(rsp)-2]]. *)
Definition responseData (rsp : list byte) : list byte :=
  firstn (length rsp - 2) rsp.

Definition selectCmd : list byte :=
  [x00; xa4; x04; x00; x08; xa0; x00; x00; x00; x54; x48; x00; x01].

Definition getResponseCmd (sw2 : byte) : list byte :=
  [x00; xc0; x00; x00; sw2].

Definition readBinaryCmd (p1 p2 le : byte) : list byte :=
  [x80; xb0; p1; p2; x02; x00; le].

(** The 20 parts of the photo, in the order they are read. *)
Definition photoCommands : list (byte * byte) :=
  [ (x01, x7b); (x02, x7a); (x03, x79); (x04, x78); (x05, x77);
    (x06, x76); (x07, x75); (x08, x74); (x09, x73); (x0a, x72);
    (x0b, x71); (x0c, x70); (x0d, x6f); (x0e, x6e); (x0f, x6d);
    (x10, x6c); (x11, x6b); (x12, x6a); (x13, x69); (x14, x68) ].

(** The end of [readPhoto], after the chunks have been concatenated. *)
Definition trimPhoto (photoData : list byte) : list byte :=
  let jpegEnd := GoBytes.Index photoData [xff; xd9] in
  if negb (jpegEnd =? -1)
  then GoBytes.slice_to photoData (jpegEnd + 2)
  else GoBytes.TrimRight photoData [x20].

Section Engine.

Context {World Card : Type} `{PCSC World Card}.

(** [charmap.Windows874.NewDecoder().Bytes] and
    [base64.StdEncoding.EncodeToString] come from libraries outside
    the repository. *)
Variable Windows874_Bytes : list byte -> string + list byte.
Variable base64_EncodeToString : list byte -> string.

Local Abbreviation M := (M World).

(** The verdict of [selectApplet] on the final status word. *)
Definition selectStatus (sw : byte * byte) : option string :=
  let (sw1, sw2) := sw in
  if (Byte.eqb sw1 x90 && Byte.eqb sw2 x00)
     || (Byte.eqb sw1 x97 && Byte.eqb sw2 x10)
  then None
  else if Byte.eqb sw1 x6a && Byte.eqb sw2 x82
  then Some ("applet not found (SW=" +:+ GoFmt.Sprintf_02X sw1
               +:+ GoFmt.Sprintf_02X sw2 +:+ ") - card may need reset")
  else Some ("select applet failed: SW=" +:+ GoFmt.Sprintf_02X sw1
               +:+ GoFmt.Sprintf_02X sw2).

(** [selectApplet]: [None] is the [nil] error. *)
Definition selectApplet (card : Card) : M (option string) :=
  r <- transmit card selectCmd ;;
  match r with
  | inl err => ret (Some err)
  | inr rsp =>
      if (length rsp <? 2)%nat then ret (Some "invalid response")
      else
        let (sw1, sw2) := statusWord rsp in
        if Byte.eqb sw1 x61 then
          r2 <- transmit card (getResponseCmd sw2) ;;
          match r2 with
          | inl err => ret (Some ("GET RESPONSE failed: " +:+ err))
          | inr rsp2 =>
              if (length rsp2 <? 2)%nat
              then ret (Some "invalid GET RESPONSE")
              else ret (selectStatus (statusWord rsp2))
          end
        else ret (selectStatus (sw1, sw2))
  end.

(** The verdict of [readBinary] on the final response. *)
Definition readBinaryResult (rsp : list byte) : string + list byte :=
  let (sw1, sw2) := statusWord rsp in
  if negb (Byte.eqb sw1 x90) || negb (Byte.eqb sw2 x00)
  then inl ("read binary failed: SW=" +:+ GoFmt.Sprintf_02X sw1
              +:+ GoFmt.Sprintf_02X sw2)
  else inr (responseData rsp).

Definition readBinary (card : Card) (p1 p2 le : byte)
  : M (string + list byte) :=
  r <- transmit card (readBinaryCmd p1 p2 le) ;;
  match r with
  | inl err => ret (inl err)
  | inr rsp =>
      if (length rsp <? 2)%nat then ret (inl "invalid response")
      else
        let (sw1, sw2) := statusWord rsp in
        if Byte.eqb sw1 x61 then
          r2 <- transmit card (getResponseCmd sw2) ;;
          match r2 with
          | inl err => ret (inl err)
          | inr rsp2 =>
              if (length rsp2 <? 2)%nat
              then ret (inl "invalid GET RESPONSE")
              else ret (readBinaryResult rsp2)
          end
        else ret (readBinaryResult rsp)
  end.

(** The loop of [readPhoto]: the first failing chunk ends it. *)
Fixpoint readPhotoChunks (card : Card) (cmds : list (byte * byte))
         (photoData : list byte) : M (list byte) :=
  match cmds with
  | [] => ret photoData
  | (p1, p2) :: rest =>
      r <- readBinary card p1 p2 xff ;;
      match r with
      | inl _ => ret photoData
      | inr data => readPhotoChunks card rest (photoData ++ data)
      end
  end.

Definition readPhoto (card : Card) : M (string + list byte) :=
  photoData <- readPhotoChunks card photoCommands [] ;;
  ret (inr (trimPhoto photoData)).

Definition decodeThaiString (data : list byte) : string :=
  match Windows874_Bytes data with
  | inl _ => string_of_list_byte (GoBytes.Trim data [x00])
  | inr decoded => string_of_list_byte (GoBytes.Trim decoded [x00])
  end.

(** The two name fields share their decoding: split on [#], and with
    at least two parts the first two are trimmed of spaces and NULs. *)
Definition splitNames (names : string) : option (string * string) :=
  match GoBytes.Split (list_byte_of_string names)
                      (list_byte_of_string "#") with
  | p0 :: p1 :: _ =>
      Some (string_of_list_byte (GoBytes.Trim p0 [x20; x00]),
            string_of_list_byte (GoBytes.Trim p1 [x20; x00]))
  | _ => None
  end.

Definition decodeGender (data : list byte) : option string :=
  match data with
  | b :: _ =>
      if Byte.eqb b x31 then Some "male"
      else if Byte.eqb b x32 then Some "female"
      else None
  | [] => None
  end.

(** The field assignments of [readCard], one per read. *)
Definition putCitizenID (r : string + list byte) (c : ThaiIdCard) :=
  match r with
  | inr data =>
      set_CitizenID c (string_of_list_byte (GoBytes.Trim data [x00]))
  | inl _ => c
  end.

Definition putNameTH (r : string + list byte) (c : ThaiIdCard) :=
  match r with
  | inr data =>
      match splitNames (decodeThaiString data) with
      | Some (f, l) => set_NameTH c f l
      | None => c
      end
  | inl _ => c
  end.

Definition putNameEN (r : string + list byte) (c : ThaiIdCard) :=
  match r with
  | inr data =>
      match splitNames (string_of_list_byte (GoBytes.Trim data [x00])) with
      | Some (f, l) => set_NameEN c f l
      | None => c
      end
  | inl _ => c
  end.

Definition putDate (set : ThaiIdCard -> string -> ThaiIdCard)
           (r : string + list byte) (c : ThaiIdCard) :=
  match r with
  | inr data => set c (formatDate (string_of_list_byte data))
  | inl _ => c
  end.

Definition putGender (r : string + list byte) (c : ThaiIdCard) :=
  match r with
  | inr data =>
      match decodeGender data with
      | Some g => set_Gender c g
      | None => c
      end
  | inl _ => c
  end.

Definition putAddress (r : string + list byte) (c : ThaiIdCard) :=
  match r with
  | inr data => set_Address c (ParseThaiAddress (decodeThaiString data))
  | inl _ => c
  end.

Definition putPhoto (r : string + list byte) (c : ThaiIdCard) :=
  match r with
  | inr photoData =>
      if (0 <? length photoData)%nat
      then set_PhotoBase64 c (base64_EncodeToString photoData)
      else c
  | inl _ => c
  end.

(** [readCard]: the record and the error ([None] is [nil]). *)
Definition readCard (card : Card)
  : M (option ThaiIdCard * option string) :=
  sleep 50 ;;;
  e <- selectApplet card ;;
  match e with
  | Some err => ret (None, Some (ErrMsgUnsupportedCard +:+ ": " +:+ err))
  | None =>
      let thaiCard := ThaiIdCard_zero in
      r <- readBinary card x00 x04 x0d ;;
      let thaiCard := putCitizenID r thaiCard in
      r <- readBinary card x00 x11 x64 ;;
      let thaiCard := putNameTH r thaiCard in
      r <- readBinary card x00 x75 x64 ;;
      let thaiCard := putNameEN r thaiCard in
      r <- readBinary card x00 xd9 x08 ;;
      let thaiCard := putDate set_DateOfBirth r thaiCard in
      r <- readBinary card x00 xe1 x01 ;;
      let thaiCard := putGender r thaiCard in
      r <- readBinary card x01 x67 x08 ;;
      let thaiCard := putDate set_IssueDate r thaiCard in
      r <- readBinary card x01 x6f x08 ;;
      let thaiCard := putDate set_ExpireDate r thaiCard in
      r <- readBinary card x15 x79 x64 ;;
      let thaiCard := putAddress r thaiCard in
      r <- readPhoto card ;;
      let thaiCard := putPhoto r thaiCard in
      ret (Some thaiCard, None)
  end.

(** ** The reader monitor *)

(** Of the [PCSCReader] struct the two handlers matter here ([None] is a
    [nil] handler); [context] is the PC/SC world and [stopChan] decides
    how many turns the loop takes. *)
Record PCSCReader : Type := mkPCSCReader {
  cardInsertHandler : option (option ThaiIdCard -> option string -> M unit);
  cardRemoveHandler : option (M unit)
}.

(** The retry loop of [monitorLoop], [for retry := 0; retry < 3; retry++],
    as a recursion over the values [retry] still has to take.  It
    returns the variables [card], [cardData] and [readErr] as they are
    when the loop is left; [card] is [None] when a reconnection failed
    and left it [nil]. *)
Fixpoint retryLoop (retries : list Z) (reader : string) (card : Card)
         (cardData : option ThaiIdCard) (readErr : option string)
  : M (option Card * option ThaiIdCard * option string) :=
  match retries with
  | [] => ret (Some card, cardData, readErr)
  | retry :: rest =>
      res <- readCard card ;;
      let (cardData, readErr) := res : option ThaiIdCard * option string in
      match readErr with
      | None => ret (Some card, cardData, readErr)
      | Some msg =>
          if (retry <? 2)
             && (String.eqb msg "applet not found"
                 || String.eqb msg "select applet failed: SW=6A82")
          then
            disconnect card ResetCard ;;;
            sleep 200 ;;;
            r <- connect reader ;;
            match r with
            | inl _ => ret (None, cardData, readErr)
            | inr card' =>
                sleep 100 ;;;
                retryLoop rest reader card' cardData readErr
            end
          else
            sleep 100 ;;;
            retryLoop rest reader card cardData readErr
      end
  end.

Definition getState (lastState : gmap string bool) (reader : string) : bool :=
  default false (lastState !! reader).

(** The body of [for _, reader := range readers]. *)
Definition pollReader (r : PCSCReader) (lastState : gmap string bool)
           (reader : string) : M (gmap string bool) :=
  c <- connect reader ;;
  match c with
  | inr card =>
      if negb (getState lastState reader) then
        let lastState := <[reader := true]> lastState in
        match cardInsertHandler r with
        | Some handler =>
            res <- retryLoop [0; 1; 2] reader card None None ;;
            let '(card, cardData, readErr) :=
              res : option Card * option ThaiIdCard * option string in
            handler cardData readErr ;;;
            match card with
            | Some card => disconnect card LeaveCard
            | None => panic
            end ;;;
            ret lastState
        | None =>
            disconnect card LeaveCard ;;;
            ret lastState
        end
      else
        disconnect card LeaveCard ;;;
        ret lastState
  | inl _ =>
      if getState lastState reader then
        let lastState := <[reader := false]> lastState in
        match cardRemoveHandler r with
        | Some handler => handler
        | None => ret tt
        end ;;;
        ret lastState
      else ret lastState
  end.

Fixpoint pollReaders (r : PCSCReader) (lastState : gmap string bool)
         (readers : list string) : M (gmap string bool) :=
  match readers with
  | [] => ret lastState
  | reader :: rest =>
      lastState <- pollReader r lastState reader ;;
      pollReaders r lastState rest
  end.

(** One turn of the outer [for] of [monitorLoop] (the [default] branch of
    its [select]). *)
Definition monitorTick (r : PCSCReader) (lastState : gmap string bool)
  : M (gmap string bool) :=
  rs <- listReaders ;;
  match rs with
  | inl _ =>
      sleep 2000 ;;;
      ret lastState
  | inr readers =>
      if (length readers =? 0)%nat then
        match cardInsertHandler r with
        | Some handler => handler None (Some ErrMsgReaderNotFound)
        | None => ret tt
        end ;;;
        sleep 2000 ;;;
        ret lastState
      else
        lastState <- pollReaders r lastState readers ;;
        sleep 500 ;;;
        ret lastState
  end.

(** [ticks] turns of the loop, after which the stop signal is taken. *)
Fixpoint monitorTicks (ticks : nat) (r : PCSCReader)
         (lastState : gmap string bool) : M (gmap string bool) :=
  match ticks with
  | O => ret lastState
  | S n =>
      lastState <- monitorTick r lastState ;;
      monitorTicks n r lastState
  end.

(** [monitorLoop] starts from the empty map. *)
Definition monitorLoop (ticks : nat) (r : PCSCReader)
  : M (gmap string bool) :=
  monitorTicks ticks r ∅.

End Engine.

End smartcard.

(* ===================================================================== *)
(** * Package [main]: the handlers wired to the hub *)
(* ===================================================================== *)

Module main.

Import domain.
Local Open Scope go_scope.

Section Handlers.

Context {World : Type} `{HubLink World}.

(** [hub.BroadcastMessage]: the message is marshalled (which cannot fail
    for these structs) and sent on [h.broadcast].  The call returns when
    [Run] has received the message; when [Run] never receives it, the
    call never returns. *)
Definition BroadcastMessage (messageType : string) (payload : Payload)
  : M World unit :=
  fun s =>
    let msg := mkWebSocketMessage messageType payload in
    match Deliver msg (world s) with
    | Some w => (Ok tt, mkSys w (log s ++ [EBroadcast msg]))
    | None => (Stuck, s)
    end.

(** The [switch] on [err.Error()] that picks the error code. *)
Definition errorResponseFor (msg : string) : ErrorResponse :=
  if String.eqb msg ErrMsgReaderNotFound
  then mkErrorResponse ErrCodeReaderNotFound ErrMsgReaderNotFound
  else if String.eqb msg ErrMsgCardNotDetected
  then mkErrorResponse ErrCodeCardNotDetected ErrMsgCardNotDetected
  else if String.eqb msg ErrMsgUnsupportedCard
  then mkErrorResponse ErrCodeUnsupportedCard ErrMsgUnsupportedCard
  else mkErrorResponse ErrCodeReadFailed ErrMsgReadFailed.

(** The handler given to [OnCardInserted].  With a [nil] error the
    handler dereferences [card]. *)
Definition onCardInserted (card : option ThaiIdCard) (err : option string)
  : M World unit :=
  match err with
  | Some msg => BroadcastMessage "ERROR" (PayloadError (errorResponseFor msg))
  | None =>
      match card with
      | Some c => BroadcastMessage "CARD_INSERTED" (PayloadCard c)
      | None => panic
      end
  end.

(** The handler given to [OnCardRemoved]. *)
Definition onCardRemoved : M World unit :=
  BroadcastMessage "CARD_REMOVED" PayloadNil.

(** The reader as [main] sets it up. *)
Definition reader : smartcard.PCSCReader :=
  smartcard.mkPCSCReader (Some onCardInserted) (Some onCardRemoved).

End Handlers.

End main.

(* ===================================================================== *)
(** * Package [websocket]: the broadcast hub *)
(* ===================================================================== *)

Module websocket.

(** A [*Client] is an address; the client objects live in a heap. *)
Definition loc : Type := nat.

(** A client: the content of its buffered [send] channel (oldest first),
    whether that channel has been closed, and the [closed] flag. *)
Record Client : Type := mkClient {
  send : list (list byte);
  sendClosed : bool;
  closed : bool
}.

(** [make(chan []byte, 256)]. *)
Definition sendCap : nat := 256.

(** The hub: the map [clients] (its values are always [true]) and the
    client objects.  The three channels of the hub are unbuffered, so a
    request is taken by [Run] the moment it is sent; [Run] is the only
    receiver of each of them. *)
Record Hub : Type := mkHub {
  clients : gmap loc bool;
  heap : gmap loc Client
}.

Definition NewHub : Hub := mkHub ∅ ∅.

(** Where the goroutine of [Run] is after handling a request: back at its
    [select]; stopped for ever in a send that nobody can receive; or
    ended by a run-time panic. *)
Inductive Outcome : Type :=
| Running (h : Hub)
| Blocked (h : Hub)
| Crashed (h : Hub).

(** The [register] case of [Run]. *)
Definition runRegister (h : Hub) (client : loc) : Outcome :=
  Running (mkHub (<[client := true]> (clients h)) (heap h)).

(** [RegisterClient]: a new client with an empty queue of capacity 256
    is sent to [Run], which adds it to the map. *)
Definition RegisterClient (h : Hub) : loc * Outcome :=
  let client := fresh (dom (heap h)) in
  (client,
   runRegister (mkHub (clients h)
                      (<[client := mkClient [] false false]> (heap h)))
               client).

(** The [unregister] case of [Run]: a client in the map is deleted and
    its channel closed (closing a closed channel panics). *)
Definition runUnregister (h : Hub) (client : loc) : Outcome :=
  match clients h !! client with
  | Some _ =>
      match heap h !! client with
      | Some cl =>
          if sendClosed cl then Crashed h
          else Running (mkHub (delete client (clients h))
                              (<[client := mkClient (send cl) true (closed cl)]>
                                 (heap h)))
      | None => Crashed h
      end
  | None => Running h
  end.

(** The loop of the [broadcast] case over the snapshot of the clients.
    For each client the [select] sends when the queue has room (a send on
    a closed channel panics) and otherwise calls [unregisterClient]:
    that sets the [closed] flag and sends the client on [h.unregister],
    unless the flag was already set.  The send happens inside [Run], the
    only receiver of that unbuffered channel, so it never completes. *)
Fixpoint fanOut (h : Hub) (message : list byte) (snapshot : list loc)
  : Outcome :=
  match snapshot with
  | [] => Running h
  | client :: rest =>
      match heap h !! client with
      | None => Crashed h
      | Some cl =>
          if sendClosed cl then Crashed h
          else if (length (send cl) <? sendCap)%nat then
            fanOut (mkHub (clients h)
                          (<[client := mkClient (send cl ++ [message]) false
                                                (closed cl)]> (heap h)))
                   message rest
          else if closed cl then fanOut h message rest
          else Blocked (mkHub (clients h)
                              (<[client := mkClient (send cl) false true]>
                                 (heap h)))
      end
  end.

(** The [broadcast] case of [Run].  [order] is the order in which
    [range h.clients] produces the keys of the map, which Go leaves
    unspecified: any arrangement of the keys. *)
Definition runBroadcast (h : Hub) (message : list byte) (order : list loc)
  : Outcome :=
  fanOut h message order.

(** A client whose queue is open and has room. *)
Definition hasRoom (h : Hub) (c : loc) : Prop :=
  exists cl, heap h !! c = Some cl
             /\ sendClosed cl = false
             /\ (length (send cl) < sendCap)%nat.

(** [order] is an iteration order of the map of [h]. *)
Definition iterationOrder (h : Hub) (order : list loc) : Prop :=
  List.NoDup order /\ forall c, In c order <-> is_Some (clients h !! c).

(** [unregisterClient] as a client's [ReadPump] calls it, from outside
    [Run], while [Run] waits at its [select]: under the client's mutex the
    [closed] flag is tested and set; only the caller that set it sends the
    client on [h.unregister], where [Run] takes it. *)
Definition unregisterClient (h : Hub) (client : loc) : Outcome :=
  match heap h !! client with
  | None => Crashed h
  | Some cl =>
      if closed cl then Running h
      else runUnregister
             (mkHub (clients h)
                    (<[client := mkClient (send cl) (sendClosed cl) true]>
                       (heap h)))
             client
  end.

(** Every registered client exists and its channel is open. *)
Definition wellFormed (h : Hub) : Prop :=
  forall c, is_Some (clients h !! c) ->
            exists cl, heap h !! c = Some cl /\ sendClosed cl = false.

(** A client on its way out: its [closed] flag is set (its [ReadPump] has
    asked for the unregistration), its channel is still open and full. *)
Definition leavingFull (h : Hub) (c : loc) : Prop :=
  exists cl, heap h !! c = Some cl
             /\ sendClosed cl = false
             /\ closed cl = true
             /\ (sendCap <= length (send cl))%nat.

(** The hub of an outcome. *)
Definition hubOf (o : Outcome) : Hub :=
  match o with
  | Running h | Blocked h | Crashed h => h
  end.

Definition isCrashed (o : Outcome) : bool :=
  match o with
  | Crashed _ => true
  | _ => false
  end.

(** The first half of [unregisterClient]: the [closed] flag is set under
    the client's mutex.  The caller then waits in its send on
    [h.unregister] until [Run] takes the client. *)
Definition markClosed (h : Hub) (client : loc) : Hub :=
  match heap h !! client with
  | Some cl =>
      mkHub (clients h)
            (<[client := mkClient (send cl) (sendClosed cl) true]> (heap h))
  | None => h
  end.

(** [WritePump] receives the oldest message of the client's queue. *)
Definition writePumpReceive (h : Hub) (client : loc) : Hub :=
  match heap h !! client with
  | Some cl =>
      mkHub (clients h)
            (<[client := mkClient (tail (send cl)) (sendClosed cl) (closed cl)]>
               (heap h))
  | None => h
  end.

(** What happens to the hub, one thing at a time: the three cases of
    [Run], and the two steps that the goroutines of a client take on
    their own. *)
Inductive Request : Type :=
| Register
| Unregister (client : loc)
| Broadcast (message : list byte) (order : list loc)
| SetClosed (client : loc)
| Receive (client : loc).

Definition handle (h : Hub) (req : Request) : Outcome :=
  match req with
  | Register => snd (RegisterClient h)
  | Unregister client => runUnregister h client
  | Broadcast message order => runBroadcast h message order
  | SetClosed client => Running (markClosed h client)
  | Receive client => Running (writePumpReceive h client)
  end.

(** A request that can occur in state [h]: a broadcast ranges over the
    map in one of its iteration orders, and a client that is named
    exists. *)
Definition admissible (h : Hub) (req : Request) : Prop :=
  match req with
  | Register => True
  | Broadcast _ order => iterationOrder h order
  | Unregister client | SetClosed client | Receive client =>
      is_Some (heap h !! client)
  end.

(** [Run] and the clients through a sequence of requests; nothing
    happens after [Run] has stopped. *)
Fixpoint serve (h : Hub) (reqs : list Request) : Outcome :=
  match reqs with
  | [] => Running h
  | req :: rest =>
      match handle h req with
      | Running h' => serve h' rest
      | o => o
      end
  end.

Fixpoint admissibleRun (h : Hub) (reqs : list Request) : Prop :=
  match reqs with
  | [] => True
  | req :: rest =>
      admissible h req
      /\ match handle h req with
         | Running h' => admissibleRun h' rest
         | _ => True
         end
  end.

(** A client whose channel is open. *)
Definition openAt (h : Hub) (c : loc) : Prop :=
  exists cl, heap h !! c = Some cl /\ sendClosed cl = false.

End websocket.

(* ===================================================================== *)
(** * Vocabulary of the statements *)
(* ===================================================================== *)

Module DateSpec.

Import GoFmt.

(** The byte of a decimal digit [0 <= d <= 9]. *)
Definition digit_byte (d : Z) : byte :=
  match Byte.of_N (Z.to_N (48 + d)) with
  | Some b => b
  | None => x00
  end.

(** The four decimal digits of [0 <= n <= 9999]. *)
Definition fourDigits (n : Z) : list byte :=
  [ digit_byte (n / 1000); digit_byte (n / 100 mod 10);
    digit_byte (n / 10 mod 10); digit_byte (n mod 10) ].

(** The number written by four digit bytes. *)
Definition yearValue (y1 y2 y3 y4 : byte) : Z :=
  1000 * digit_val y1 + 100 * digit_val y2 + 10 * digit_val y3 + digit_val y4.

(** The year that [formatDate] scans from its first four bytes. *)
Definition scannedYear (y1 y2 y3 y4 : byte) : Z :=
  match Sscanf_d (string_of_list_byte [y1; y2; y3; y4]) with
  | Some v => v
  | None => 0
  end.

End DateSpec.

Module PhotoSpec.

(** [sep] occurs somewhere in [s]. *)
Definition occursIn (sep s : list byte) : Prop :=
  exists pre post, s = pre ++ sep ++ post.

Section Chunks.

Context {World Card : Type} `{PCSC World Card}.

(** The specification's reading of the photo chunks, as a relation: the
    commands are taken in order from state [s]; each successful read
    contributes its data; the first failed read ends the reading, and so
    does the end of the command list. *)
Inductive ChunksRead (card : Card)
  : list (byte * byte) -> Sys World -> list (list byte) -> Sys World -> Prop :=
| ChunksRead_end (s : Sys World) :
    ChunksRead card [] s [] s
| ChunksRead_fail (p1 p2 : byte) (rest : list (byte * byte))
                  (s s' : Sys World) (err : string) :
    smartcard.readBinary card p1 p2 xff s = (Ok (inl err), s') ->
    ChunksRead card ((p1, p2) :: rest) s [] s'
| ChunksRead_next (p1 p2 : byte) (rest : list (byte * byte))
                  (s s1 s' : Sys World) (data : list byte)
                  (chunks : list (list byte)) :
    smartcard.readBinary card p1 p2 xff s = (Ok (inr data), s1) ->
    ChunksRead card rest s1 chunks s' ->
    ChunksRead card ((p1, p2) :: rest) s (data :: chunks) s'.

End Chunks.

End PhotoSpec.

Module LogSpec.

(** The messages handed to the hub, oldest first. *)
Fixpoint broadcastsOf (l : list Event) : list domain.WebSocketMessage :=
  match l with
  | [] => []
  | EBroadcast m :: l' => m :: broadcastsOf l'
  | _ :: l' => broadcastsOf l'
  end.

(** The commands sent to a card, oldest first. *)
Fixpoint transmitsOf (l : list Event) : list (list byte) :=
  match l with
  | [] => []
  | ETransmit cmd :: l' => cmd :: transmitsOf l'
  | _ :: l' => transmitsOf l'
  end.

Definition bytes_eqb (a b : list byte) : bool :=
  String.eqb (string_of_list_byte a) (string_of_list_byte b).

(** How many times the SELECT command was sent: the number of selection
    attempts. *)
Definition countSelect (l : list Event) : nat :=
  length (List.filter (fun cmd => bytes_eqb cmd smartcard.selectCmd)
                 (transmitsOf l)).

(** How many times the goroutine slept for [ms] milliseconds. *)
Fixpoint countSleep (ms : Z) (l : list Event) : nat :=
  match l with
  | [] => 0%nat
  | ESleep d :: l' =>
      if (d =? ms)%Z then S (countSleep ms l') else countSleep ms l'
  | _ :: l' => countSleep ms l'
  end.

(** How many times a card was disconnected with [ResetCard]. *)
Fixpoint countReset (l : list Event) : nat :=
  match l with
  | [] => 0%nat
  | EDisconnect ResetCard :: l' => S (countReset l')
  | _ :: l' => countReset l'
  end.

(** A stretch of the log with card traffic for fields only: nothing
    handed to the hub, no SELECT, no pause, no reset. *)
Definition quiet (d : list Event) : Prop :=
  broadcastsOf d = []
  /\ countSelect d = 0%nat
  /\ (forall ms, countSleep ms d = 0%nat)
  /\ countReset d = 0%nat.

(** The two messages that a card insertion can lead to in this program:
    the card's record, or the error with code 1003. *)
Definition insertedOrReadFailed (m : domain.WebSocketMessage) : Prop :=
  (exists record,
      m = domain.mkWebSocketMessage "CARD_INSERTED" (domain.PayloadCard record))
  \/ m = domain.mkWebSocketMessage "ERROR"
           (domain.PayloadError
              (domain.mkErrorResponse domain.ErrCodeReadFailed
                                      domain.ErrMsgReadFailed)).

Definition cardRemoved : domain.WebSocketMessage :=
  domain.mkWebSocketMessage "CARD_REMOVED" domain.PayloadNil.

Definition errorMessage (code : Z) (text : string) : domain.WebSocketMessage :=
  domain.mkWebSocketMessage "ERROR"
    (domain.PayloadError (domain.mkErrorResponse code text)).

Definition readerNotFound : domain.WebSocketMessage :=
  errorMessage domain.ErrCodeReaderNotFound domain.ErrMsgReaderNotFound.

(** The messages the monitor with the handlers of [main] can hand to the
    hub. *)
Definition monitorMessage (m : domain.WebSocketMessage) : Prop :=
  (exists record,
      m = domain.mkWebSocketMessage "CARD_INSERTED" (domain.PayloadCard record))
  \/ m = cardRemoved
  \/ m = readerNotFound
  \/ m = errorMessage domain.ErrCodeReadFailed domain.ErrMsgReadFailed.

(** How a computation of the monitor can end: with a value that
    satisfies [P], or waiting for ever in the hand-over of one of its
    messages, which [Run] does not take; never with a panic. *)
Definition endsWell {World : Type} `{HubLink World} {A : Type}
           (P : A -> Prop) (r : Result A) (s' : Sys World) : Prop :=
  match r with
  | Ok a => P a
  | Stuck => exists m, monitorMessage m /\ Deliver m (world s') = None
  | Panic => False
  end.

(** A GET RESPONSE command, [00 C0 00 00 Le]. *)
Definition isGetResponse (cmd : list byte) : bool :=
  match cmd with
  | [b0; b1; b2; b3; _] =>
      Byte.eqb b0 x00 && Byte.eqb b1 xc0 && Byte.eqb b2 x00 && Byte.eqb b3 x00
  | _ => false
  end.

(** The commands sent to a card other than the GET RESPONSE
    continuations, oldest first. *)
Definition primaryCommands (l : list Event) : list (list byte) :=
  List.filter (fun cmd => negb (isGetResponse cmd)) (transmitsOf l).

(** How many sessions were released, with either disposition. *)
Fixpoint countDisconnect (l : list Event) : nat :=
  match l with
  | [] => 0%nat
  | EDisconnect _ :: l' => S (countDisconnect l')
  | _ :: l' => countDisconnect l'
  end.

(** The sessions asked for in a stretch of the log. *)
Fixpoint countConnect (l : list Event) : nat :=
  match l with
  | [] => 0%nat
  | EConnect _ :: l' => S (countConnect l')
  | _ :: l' => countConnect l'
  end.

(** A pause, or a command to the card. *)
Definition isTraffic (e : Event) : bool :=
  match e with
  | ESleep _ | ETransmit _ => true
  | _ => false
  end.

(** The message that the insertion handler of [main] sends for the
    record and the error of a read; there is none when both are [nil]
    (the handler then dereferences the [nil] record). *)
Definition insertionMessage (cardData : option domain.ThaiIdCard)
           (readErr : option string) : option domain.WebSocketMessage :=
  match readErr with
  | Some msg =>
      Some (domain.mkWebSocketMessage "ERROR"
              (domain.PayloadError (main.errorResponseFor msg)))
  | None =>
      match cardData with
      | Some record =>
          Some (domain.mkWebSocketMessage "CARD_INSERTED"
                  (domain.PayloadCard record))
      | None => None
      end
  end.

(** An event that is neither a connection nor a listing of the
    readers. *)
Definition inPoll (e : Event) : bool :=
  match e with
  | EConnect _ | EListReaders => false
  | _ => true
  end.

(** The events of the polls of one slot in a log of the monitor: from
    each connection to [reader] up to the release of the session (its
    disconnection, included) or, when there is none, up to the next
    connection or the next listing of the readers.  [on] says whether
    the log starts inside such a poll. *)
Fixpoint slotEventsFrom (reader : string) (on : bool) (l : list Event)
  : list Event :=
  match l with
  | [] => []
  | EConnect r :: l' =>
      if String.eqb r reader
      then EConnect r :: slotEventsFrom reader true l'
      else slotEventsFrom reader false l'
  | EListReaders :: l' => slotEventsFrom reader false l'
  | EDisconnect d :: l' =>
      if on then EDisconnect d :: slotEventsFrom reader false l'
      else slotEventsFrom reader false l'
  | e :: l' =>
      if on then e :: slotEventsFrom reader true l'
      else slotEventsFrom reader false l'
  end.

(** Whether a log ends inside a poll of [reader]. *)
Fixpoint slotOpen (reader : string) (on : bool) (l : list Event) : bool :=
  match l with
  | [] => on
  | EConnect r :: l' => slotOpen reader (String.eqb r reader) l'
  | EListReaders :: l' => slotOpen reader false l'
  | EDisconnect _ :: l' => slotOpen reader false l'
  | _ :: l' => slotOpen reader on l'
  end.

Definition slotEvents (reader : string) (l : list Event) : list Event :=
  slotEventsFrom reader false l.

(** A member of an object. *)
Definition jsonField (key : string) (j : JSON) : option JSON :=
  match j with
  | JObject fields =>
      match List.find (fun kv => String.eqb (fst kv) key) fields with
      | Some kv => Some (snd kv)
      | None => None
      end
  | _ => None
  end.

End LogSpec.

Module RecordSpec.

Import domain.

(** The eight field reads of [readCard], in order: (P1, P2, Le). *)
Definition fieldCommands : list (byte * byte * byte) :=
  [ (x00, x04, x0d); (x00, x11, x64); (x00, x75, x64); (x00, xd9, x08);
    (x00, xe1, x01); (x01, x67, x08); (x01, x6f, x08); (x15, x79, x64) ].

(** The READ BINARY commands of the eight fields and of the photo
    chunks. *)
Definition fieldCommandBytes : list (list byte) :=
  map (fun c : byte * byte * byte =>
         smartcard.readBinaryCmd (fst (fst c)) (snd (fst c)) (snd c))
      fieldCommands.

Definition photoCommandBytes (cmds : list (byte * byte)) : list (list byte) :=
  map (fun c : byte * byte => smartcard.readBinaryCmd (fst c) (snd c) xff) cmds.

Section Record_.

Context {World Card : Type} `{PCSC World Card}.
Variable Windows874_Bytes : list byte -> string + list byte.
Variable base64_EncodeToString : list byte -> string.

(** The state in which [readCard] selects: after its 50 ms pause. *)
Definition afterPause (s : Sys World) : Sys World :=
  mkSys (world s) (log s ++ [ESleep 50]).

(** Reads issued one after the other, each from the state its
    predecessor left, with their results. *)
Inductive ReadsInOrder (card : Card)
  : list (byte * byte * byte) -> Sys World -> list (string + list byte)
    -> Sys World -> Prop :=
| ReadsInOrder_nil (s : Sys World) :
    ReadsInOrder card [] s [] s
| ReadsInOrder_cons (p1 p2 le : byte) (rest : list (byte * byte * byte))
                    (s s1 s' : Sys World) (r : string + list byte)
                    (rs : list (string + list byte)) :
    smartcard.readBinary card p1 p2 le s = (Ok r, s1) ->
    ReadsInOrder card rest s1 rs s' ->
    ReadsInOrder card ((p1, p2, le) :: rest) s (r :: rs) s'.

(** A field of the record from the result of its read: a value made from
    the bytes when the read succeeded, the zero value when it failed. *)
Definition fieldOf {A} (r : string + list byte) (zero : A)
           (decode : list byte -> A) : A :=
  match r with
  | inr data => decode data
  | inl _ => zero
  end.

(** What each field is made of.  The definitions below are written from
    the words of the claim with the functions of the Go library; none of
    them uses a decoder of the engine. *)

(** The bytes without the NUL bytes at either end. *)
Definition trimNul (data : list byte) : string :=
  string_of_list_byte (GoBytes.Trim data [x00]).

(** Thai text: the bytes decoded from Windows-874, or the bytes as they
    are when the decoder refuses them, without the NULs at either end. *)
Definition thaiText (data : list byte) : string :=
  match Windows874_Bytes data with
  | inr decoded => trimNul decoded
  | inl _ => trimNul data
  end.

(** First and last name: the first two pieces between [#], each without
    the spaces and NULs around it; nothing when the text has no [#]. *)
Definition namesOf (names : string) : string * string :=
  match GoBytes.Split (list_byte_of_string names) [x23] with
  | first :: second :: _ =>
      (string_of_list_byte (GoBytes.Trim first [x20; x00]),
       string_of_list_byte (GoBytes.Trim second [x20; x00]))
  | _ => ("", "")
  end.

(** The gender: [male] for a first byte [1], [female] for [2], nothing
    for any other byte and for no byte. *)
Definition genderOf (data : list byte) : string :=
  match data with
  | b :: _ =>
      if Byte.eqb b x31 then "male"
      else if Byte.eqb b x32 then "female"
      else ""
  | [] => ""
  end.

(** A date: nothing when fewer than eight bytes are left without the
    NULs at either end; otherwise the year scanned from the first four
    bytes less 543, in at least four digits, then the two month bytes
    and the two day bytes after a dash each. *)
Definition dateOf (data : list byte) : string :=
  match GoBytes.Trim data [x00] with
  | y1 :: y2 :: y3 :: y4 :: m1 :: m2 :: d1 :: d2 :: _ =>
      GoFmt.Sprintf_04d (DateSpec.scannedYear y1 y2 y3 y4 - 543)
        +:+ string_of_list_byte [x2d; m1; m2; x2d; d1; d2]
  | _ => ""
  end.

(** The photo: the base64 text of the bytes, nothing when there are
    none. *)
Definition photoOf (photoData : list byte) : string :=
  match photoData with
  | [] => ""
  | _ :: _ => base64_EncodeToString photoData
  end.

(** The record that the results of the nine reads determine.  The
    address is what the address parser makes of the Thai text. *)
Definition recordOf (rCid rTh rEn rDob rGender rIssue rExpire rAddr rPhoto
                     : string + list byte) : ThaiIdCard :=
  {| CitizenID := fieldOf rCid "" trimNul;
     PrefixNameTH := "";
     FirstNameTH := fieldOf rTh "" (fun d => fst (namesOf (thaiText d)));
     MiddleNameTH := "";
     LastNameTH := fieldOf rTh "" (fun d => snd (namesOf (thaiText d)));
     PrefixNameEN := "";
     FirstNameEN := fieldOf rEn "" (fun d => fst (namesOf (trimNul d)));
     MiddleNameEN := "";
     LastNameEN := fieldOf rEn "" (fun d => snd (namesOf (trimNul d)));
     DateOfBirth := fieldOf rDob "" dateOf;
     Gender := fieldOf rGender "" genderOf;
     Address_ := fieldOf rAddr None (fun d => ParseThaiAddress (thaiText d));
     IssueDate := fieldOf rIssue "" dateOf;
     ExpireDate := fieldOf rExpire "" dateOf;
     PhotoBase64 := fieldOf rPhoto "" photoOf |}.

End Record_.

End RecordSpec.

Module RetrySpec.

Import domain.
Local Open Scope go_scope.

(** The failures that the retry loop means to meet with a reset of the
    card and a new connection: the card has answered the selection with
    6A 82, applet not found.  These are the error texts that say so. *)
Definition appletMissing (msg : string) : bool :=
  GoStrings.Contains msg "applet not found"
  || GoStrings.Contains msg "SW=6A82".

(** The error text of a failed read: the text of [UnsupportedCard]
    before the selection error. *)
Definition wrapped (msg : string) : Prop :=
  exists err, msg = ErrMsgUnsupportedCard +:+ ": " +:+ err.

Section Attempts.

Context {World Card : Type} `{PCSC World Card}.
Variable Windows874_Bytes : list byte -> string + list byte.
Variable base64_EncodeToString : list byte -> string.

(** The read of an inserted card in the words of the amended claim: up
    to [n] attempts on the one session.  The first attempt that succeeds
    ends the read with its record.  A failed attempt is followed by a
    pause of 100 ms and, while attempts are left, by the next attempt.
    The result is the error texts of the failed attempts, in order, and
    the record and the error of the last attempt. *)
Fixpoint attempts (n : nat) (card : Card)
  : M World (list string * (option ThaiIdCard * option string)) :=
  match n with
  | O => ret ([], (None, None))
  | S n' =>
      res <- smartcard.readCard Windows874_Bytes base64_EncodeToString card ;;
      match snd res with
      | None => ret ([], res)
      | Some msg =>
          sleep 100 ;;;
          match n' with
          | O => ret ([msg], res)
          | S _ =>
              later <- attempts n' card ;;
              ret (msg :: fst later, snd later)
          end
      end
  end.

(** The read of the slot [reader], as the statements about it name it:
    the session [card] that the connection gave in a state [sa] of the
    run in which [Inv] holds, the attempts on it, their traffic [read]
    and the message [m] that the handler of [main] sends for their
    result. *)
Definition readOfSlot (Inv : World -> Prop) (reader : string)
           (read : list Event) (m : WebSocketMessage) : Prop :=
  exists (sa : Sys World) (card : Card) (w0 : World) (errs : list string)
         (res : option ThaiIdCard * option string) (s1 : Sys World),
    Inv (world sa)
    /\ Connect reader (world sa) = (inr card, w0)
    /\ attempts 3 card (mkSys w0 (log sa ++ [EConnect reader]))
       = (Ok (errs, res), s1)
    /\ log s1 = log sa ++ EConnect reader :: read
    /\ LogSpec.insertionMessage (fst res) (snd res) = Some m.

End Attempts.

End RetrySpec.

(* ===================================================================== *)
(** * A scripted card reader, for running the model *)
(* ===================================================================== *)

Module Sim.

(** A test double of the PC/SC layer.  [Transmit] answers with the next
    entry of [script], or with [fallback] when the script is used up;
    [Connect] succeeds or fails as the next entry of [presence] says
    ([presentAfter] when used up); [ListReaders] always gives
    [readers]. *)
Record World : Type := mkWorld {
  readers : list string;
  presence : list bool;
  presentAfter : bool;
  script : list (string + list byte);
  fallback : string + list byte
}.

Definition simListReaders (w : World) : (string + list string) * World :=
  (inr (readers w), w).

Definition simConnect (reader : string) (w : World)
  : (string + unit) * World :=
  match presence w with
  | true :: rest =>
      (inr tt, mkWorld (readers w) rest (presentAfter w) (script w) (fallback w))
  | false :: rest =>
      (inl "no card",
       mkWorld (readers w) rest (presentAfter w) (script w) (fallback w))
  | [] => (if presentAfter w then inr tt else inl "no card", w)
  end.

Definition simTransmit (card : unit) (cmd : list byte) (w : World)
  : (string + list byte) * World :=
  match script w with
  | r :: rest =>
      (r, mkWorld (readers w) (presence w) (presentAfter w) rest (fallback w))
  | [] => (fallback w, w)
  end.

Definition simDisconnect (card : unit) (d : Disposition) (w : World) : World :=
  w.

#[global] Instance simPCSC : PCSC World unit := {
  ListReaders := simListReaders;
  Connect := simConnect;
  Transmit := simTransmit;
  Disconnect := simDisconnect
}.

(** With this test double [Run] takes every message at once. *)
#[global] Instance simHub : HubLink World := {
  Deliver := fun _ w => Some w
}.

(** Test doubles of the two library functions: a decoder that copies its
    input and an encoder that copies its input. *)
Definition copyDecoder (data : list byte) : string + list byte := inr data.
Definition copyEncoder (data : list byte) : string := string_of_list_byte data.

(** A response: data followed by the status word. *)
Definition rsp (data : list byte) (sw1 sw2 : byte) : string + list byte :=
  inr (data ++ [sw1; sw2]).

Definition start (w : World) : Sys World := mkSys w [].

(** The scripted reader next to the hub of the program.  [Run] receives
    a message from [h.broadcast] when it is at its [select], and then
    goes through its loop over the clients, which can leave it stopped;
    it receives nothing once it has stopped.  [marshalBrief] stands for
    [json.Marshal] and [keysOf] for the order of [range h.clients]. *)
Record Linked : Type := mkLinked {
  cards : World;
  run : websocket.Outcome
}.

Definition marshalBrief (m : domain.WebSocketMessage) : list byte :=
  list_byte_of_string (domain.Type_ m).

Definition keysOf (h : websocket.Hub) : list websocket.loc :=
  map fst (map_to_list (websocket.clients h)).

Definition linkedDeliver (m : domain.WebSocketMessage) (l : Linked)
  : option Linked :=
  match run l with
  | websocket.Running h =>
      Some (mkLinked (cards l)
                     (websocket.runBroadcast h (marshalBrief m) (keysOf h)))
  | _ => None
  end.

#[global] Instance linkedPCSC : PCSC Linked unit := {
  ListReaders := fun l =>
    let (r, w) := simListReaders (cards l) in (r, mkLinked w (run l));
  Connect := fun reader l =>
    let (r, w) := simConnect reader (cards l) in (r, mkLinked w (run l));
  Transmit := fun card cmd l =>
    let (r, w) := simTransmit card cmd (cards l) in (r, mkLinked w (run l));
  Disconnect := fun card d l => mkLinked (simDisconnect card d (cards l)) (run l)
}.

#[global] Instance linkedHub : HubLink Linked := {
  Deliver := linkedDeliver
}.

(** A second test double: the PC/SC service is down, every call fails.
    Its world has no state. *)
Definition downPCSC : PCSC unit unit := {|
  ListReaders := fun w => (inl "service not available", w);
  Connect := fun _ w => (inl "service not available", w);
  Transmit := fun _ _ w => (inl "service not available", w);
  Disconnect := fun _ _ w => w
|}.

(** Its hub takes nothing. *)
Definition downHub : HubLink unit := {|
  Deliver := fun _ _ => None
|}.

End Sim.
(* ===================================================================== *)
(** * Date conversion *)
(* ===================================================================== *)

Module DateProps.

Import GoFmt smartcard DateSpec.

Lemma is_digit_cases (b : byte) :
  is_digit b = true ->
  In b [x30; x31; x32; x33; x34; x35; x36; x37; x38; x39].
Proof.
  destruct b; cbv [is_digit]; simpl; intros Hd; try discriminate Hd; tauto.
Qed.

Lemma is_digit_val (b : byte) :
  is_digit b = true -> 0 <= digit_val b <= 9.
Proof.
  intros Hd. apply is_digit_cases in Hd. simpl in Hd.
  repeat (destruct Hd as [<- | Hd]; [cbv; split; discriminate |]).
  destruct Hd.
Qed.

Lemma Sprintf_04d_range (n : Z) :
  0 <= n < 10000 ->
  Sprintf_04d n = string_of_list_byte (fourDigits n).
Proof.
  intros Hn.
  assert (Hall : forallb
            (fun k => String.eqb (Sprintf_04d (Z.of_nat k))
                        (string_of_list_byte (fourDigits (Z.of_nat k))))
            (seq 0 (Z.to_nat 10000)) = true) by (vm_compute; reflexivity).
  rewrite forallb_forall in Hall.
  specialize (Hall (Z.to_nat n)).
  rewrite Z2Nat.id in Hall by lia.
  apply String.eqb_eq, Hall, in_seq. lia.
Qed.

Lemma append_nonempty (s t : string) (c : ascii) :
  s +:+ String c t <> "".
Proof. destruct s; discriminate. Qed.

Lemma length_string_of_list_byte (l : list byte) :
  String.length (string_of_list_byte l) = length l.
Proof. induction l as [| b l IH]; simpl; [reflexivity | now rewrite <- IH]. Qed.

Lemma substring_0_0 (s : string) : substring 0 0 s = "".
Proof. destruct s; reflexivity. Qed.

(** [formatDate] on a trimmed input of at least eight bytes. *)
Lemma formatDate_long (dateStr : string)
      (y1 y2 y3 y4 m1 m2 d1 d2 : byte) (rest : list byte) :
  GoBytes.Trim (list_byte_of_string dateStr) [x00]
    = y1 :: y2 :: y3 :: y4 :: m1 :: m2 :: d1 :: d2 :: rest ->
  formatDate dateStr
    = Sprintf_04d (scannedYear y1 y2 y3 y4 - 543)
        +:+ string_of_list_byte [x2d; m1; m2; x2d; d1; d2].
Proof.
  intros Ht. unfold formatDate, scannedYear. rewrite Ht.
  cbn. rewrite substring_0_0. reflexivity.
Qed.

Lemma formatDate_short (dateStr : string) :
  (length (GoBytes.Trim (list_byte_of_string dateStr) [x00]) < 8)%nat ->
  formatDate dateStr = "".
Proof.
  intros Hlen. unfold formatDate.
  rewrite length_string_of_list_byte.
  destruct (Nat.ltb_spec (length (GoBytes.Trim (list_byte_of_string dateStr) [x00])) 8);
    [reflexivity | lia].
Qed.

(** Four digits scan to the number they write. *)
Lemma scannedYear_digits (y1 y2 y3 y4 : byte) :
  is_digit y1 = true -> is_digit y2 = true ->
  is_digit y3 = true -> is_digit y4 = true ->
  scannedYear y1 y2 y3 y4 = yearValue y1 y2 y3 y4.
Proof.
  intros H1 H2 H3 H4. unfold scannedYear, Sscanf_d, GoStrings.B.
  rewrite list_byte_of_string_of_list_byte.
  assert (Hskip : SkipSpace (length [y1; y2; y3; y4]) [y1; y2; y3; y4]
                  = Some [y1; y2; y3; y4]).
  { apply is_digit_cases in H1. simpl in H1.
    repeat (destruct H1 as [<- | H1]; [reflexivity |]). destruct H1. }
  rewrite Hskip.
  assert (Hsign : Byte.eqb y1 x2d = false /\ Byte.eqb y1 x2b = false).
  { apply is_digit_cases in H1. simpl in H1.
    repeat (destruct H1 as [<- | H1]; [split; reflexivity |]). destruct H1. }
  destruct Hsign as [-> ->].
  simpl span_digits. rewrite H1, H2, H3, H4.
  unfold parse_digits, yearValue. simpl. lia.
Qed.

End DateProps.

(** C5.  On a trimmed input of exactly eight decimal digits whose
    Buddhist-Era year is at least 543, [formatDate] returns the four
    digits of (year - 543), a dash, the month digits, a dash and the day
    digits; on a trimmed input shorter than eight bytes it returns the
    empty string. *)
Theorem C5_formatDate_buddhist_to_gregorian (dateStr : string) :
  (forall y1 y2 y3 y4 m1 m2 d1 d2 : byte,
      GoBytes.Trim (list_byte_of_string dateStr) [x00]
        = [y1; y2; y3; y4; m1; m2; d1; d2] ->
      Forall (fun b => GoFmt.is_digit b = true)
             [y1; y2; y3; y4; m1; m2; d1; d2] ->
      543 <= DateSpec.yearValue y1 y2 y3 y4 ->
      smartcard.formatDate dateStr
        = string_of_list_byte
            (DateSpec.fourDigits (DateSpec.yearValue y1 y2 y3 y4 - 543)
               ++ [x2d; m1; m2; x2d; d1; d2]))
  /\ ((length (GoBytes.Trim (list_byte_of_string dateStr) [x00]) < 8)%nat ->
      smartcard.formatDate dateStr = "").
Proof.
  split.
  - intros y1 y2 y3 y4 m1 m2 d1 d2 Ht Hdig Hy.
    rewrite (DateProps.formatDate_long _ _ _ _ _ _ _ _ _ _ Ht).
    inversion Hdig as [| ? ? H1 Hd1]; subst.
    inversion Hd1 as [| ? ? H2 Hd2]; subst.
    inversion Hd2 as [| ? ? H3 Hd3]; subst.
    inversion Hd3 as [| ? ? H4 _]; subst.
    rewrite DateProps.scannedYear_digits by assumption.
    rewrite DateProps.Sprintf_04d_range.
    + reflexivity.
    + pose proof (DateProps.is_digit_val _ H1).
      pose proof (DateProps.is_digit_val _ H2).
      pose proof (DateProps.is_digit_val _ H3).
      pose proof (DateProps.is_digit_val _ H4).
      unfold DateSpec.yearValue in *. lia.
  - apply DateProps.formatDate_short.
Qed.

(** 14 February 2538 BE, padded with NULs, is 1995-02-14; four digits
    alone give nothing. *)
Lemma C5_formatDate_example :
  smartcard.formatDate
    (string_of_list_byte [x32; x35; x33; x38; x30; x32; x31; x34; x00; x00])
    = "1995-02-14"
  /\ smartcard.formatDate "2538" = "".
Proof.
  split.
  - apply (proj1 (C5_formatDate_buddhist_to_gregorian
                    (string_of_list_byte
                       [x32; x35; x33; x38; x30; x32; x31; x34; x00; x00]))
                 x32 x35 x33 x38 x30 x32 x31 x34).
    + reflexivity.
    + repeat constructor.
    + vm_compute. discriminate.
  - apply (proj2 (C5_formatDate_buddhist_to_gregorian "2538")).
    vm_compute. lia.
Defined.

(** C10.  On a trimmed input of at least eight bytes [formatDate] checks
    nothing further: the result is never empty, bytes 5-6 and 7-8 are
    copied as they are, and the year is the integer scanned from the
    first four bytes (0 when none scans) minus 543; in particular a year
    that does not scan gives the year text -543. *)
Theorem C10_formatDate_no_digit_validation
        (dateStr : string) (y1 y2 y3 y4 m1 m2 d1 d2 : byte)
        (rest : list byte) :
  GoBytes.Trim (list_byte_of_string dateStr) [x00]
    = y1 :: y2 :: y3 :: y4 :: m1 :: m2 :: d1 :: d2 :: rest ->
  smartcard.formatDate dateStr
    = GoFmt.Sprintf_04d (DateSpec.scannedYear y1 y2 y3 y4 - 543)
        +:+ string_of_list_byte [x2d; m1; m2; x2d; d1; d2]
  /\ smartcard.formatDate dateStr <> ""
  /\ (GoFmt.Sscanf_d (string_of_list_byte [y1; y2; y3; y4]) = None ->
      smartcard.formatDate dateStr
        = "-543" +:+ string_of_list_byte [x2d; m1; m2; x2d; d1; d2]).
Proof.
  intros Ht.
  pose proof (DateProps.formatDate_long _ _ _ _ _ _ _ _ _ _ Ht) as Hf.
  repeat split.
  - exact Hf.
  - rewrite Hf. apply DateProps.append_nonempty.
  - intros Hscan. rewrite Hf. unfold DateSpec.scannedYear.
    rewrite Hscan. reflexivity.
Qed.

(** A year of letters and a month 13, day 99: nothing is rejected. *)
Lemma C10_formatDate_letters_example :
  smartcard.formatDate "abcd1399zz" = "-543-13-99".
Proof.
  destruct (C10_formatDate_no_digit_validation
              "abcd1399zz" x61 x62 x63 x64 x31 x33 x39 x39 [x7a; x7a]
              eq_refl) as (_ & _ & Hnone).
  apply Hnone. reflexivity.
Defined.

(* ===================================================================== *)
(** * Byte slices *)
(* ===================================================================== *)

Module BytesProps.

Import GoBytes.

Lemma eqb_refl (b : byte) : Byte.eqb b b = true.
Proof. now apply Byte.byte_dec_lb. Qed.

Lemma eqb_false (a b : byte) : a <> b -> Byte.eqb a b = false.
Proof.
  intros Hne. destruct (Byte.eqb a b) eqn:E; [| reflexivity].
  apply Byte.byte_dec_bl in E. contradiction.
Qed.

Lemma HasPrefix_true (s p : list byte) :
  HasPrefix s p = true <-> exists post, s = p ++ post.
Proof.
  revert s. induction p as [| a p IH]; intros s.
  - split; [intros _; now exists s | intros _; destruct s; reflexivity].
  - destruct s as [| b s]; cbn [HasPrefix].
    + split; [discriminate | intros [post Hp]; discriminate Hp].
    + rewrite andb_true_iff, IH. split.
      * intros [Hab [post ->]]. apply Byte.byte_dec_bl in Hab. subst.
        now exists post.
      * intros [post Hp]. injection Hp as -> ->. split.
        -- apply eqb_refl.
        -- now exists post.
Qed.

(** [Index_from] finds the first occurrence, or says there is none. *)
Lemma Index_from_spec (sep s : list byte) (i : Z) :
  0 <= i ->
  (Index_from i s sep = -1 /\ ~ PhotoSpec.occursIn sep s)
  \/ (exists pre post,
         s = pre ++ sep ++ post
         /\ Index_from i s sep = i + Z.of_nat (length pre)
         /\ forall pre' post',
             s = pre' ++ sep ++ post' -> (length pre <= length pre')%nat).
Proof.
  revert i. induction s as [| b s IH]; intros i Hi.
  - cbn [Index_from]. destruct (HasPrefix [] sep) eqn:E.
    + right. apply HasPrefix_true in E. destruct E as [post E].
      exists [], post. simpl. split; [exact E | split; [lia | intros; lia]].
    + left. split; [reflexivity |].
      intros (pre & post & Hocc).
      destruct pre; [| discriminate Hocc].
      simpl in Hocc.
      assert (HasPrefix [] sep = true) by (apply HasPrefix_true; eauto).
      congruence.
  - cbn [Index_from]. destruct (HasPrefix (b :: s) sep) eqn:E.
    + right. apply HasPrefix_true in E. destruct E as [post E].
      exists [], post. simpl. split; [exact E | split; [lia | intros; lia]].
    + destruct (IH (i + 1)) as [[Hnone Hno] | (pre & post & Hs & Hidx & Hmin)];
        [lia | |].
      * left. split; [exact Hnone |].
        intros (pre & post & Hocc). destruct pre as [| c pre].
        -- simpl in Hocc.
           assert (HasPrefix (b :: s) sep = true)
             by (apply HasPrefix_true; eauto).
           congruence.
        -- simpl in Hocc. injection Hocc as _ Hocc.
           apply Hno. now exists pre, post.
      * right. exists (b :: pre), post. split; [| split].
        -- simpl. now rewrite <- Hs.
        -- rewrite Hidx. simpl length. lia.
        -- intros pre' post' Hocc. destruct pre' as [| c pre'].
           ++ simpl in Hocc.
              assert (HasPrefix (b :: s) sep = true)
                by (apply HasPrefix_true; eauto).
              congruence.
           ++ simpl in Hocc. injection Hocc as _ Hocc.
              specialize (Hmin _ _ Hocc). simpl. lia.
Qed.

(** [TrimLeft] with a one-byte cutset removes a run of that byte and
    leaves a slice that does not start with it. *)
Lemma TrimLeft_single (s : list byte) (c : byte) :
  exists k, s = repeat c k ++ TrimLeft s [c]
            /\ forall r, TrimLeft s [c] <> c :: r.
Proof.
  induction s as [| b s (k & Hs & Hhd)].
  - exists 0%nat. split; [reflexivity | discriminate].
  - simpl. unfold byte_in. simpl. rewrite orb_false_r.
    destruct (Byte.eqb b c) eqn:E.
    + apply Byte.byte_dec_bl in E. subst b.
      exists (S k). split; [simpl; now rewrite <- Hs | exact Hhd].
    + exists 0%nat. split; [reflexivity |].
      intros r Hr. injection Hr as -> _. rewrite eqb_refl in E. discriminate.
Qed.

Lemma rev_repeat (c : byte) (k : nat) : rev (repeat c k) = repeat c k.
Proof.
  induction k as [| k IH]; [reflexivity |].
  simpl. rewrite IH. clear IH.
  induction k as [| k IH]; [reflexivity | simpl; now rewrite IH].
Qed.

Lemma TrimRight_single (s : list byte) (c : byte) :
  exists k, s = TrimRight s [c] ++ repeat c k
            /\ forall r, TrimRight s [c] <> r ++ [c].
Proof.
  unfold TrimRight.
  destruct (TrimLeft_single (rev s) c) as (k & Hs & Hhd).
  exists k. split.
  - rewrite <- (rev_involutive s) at 1. rewrite Hs at 1.
    now rewrite rev_app_distr, rev_repeat.
  - intros r Hr. apply (Hhd (rev r)).
    rewrite <- (rev_involutive (TrimLeft (rev s) [c])), Hr.
    now rewrite rev_app_distr.
Qed.

End BytesProps.

(* ===================================================================== *)
(** * The log *)
(* ===================================================================== *)

Module LogProps.

Import LogSpec.

Lemma broadcastsOf_app (a b : list Event) :
  broadcastsOf (a ++ b) = broadcastsOf a ++ broadcastsOf b.
Proof.
  induction a as [| e a IH]; [reflexivity |].
  destruct e; simpl; rewrite IH; reflexivity.
Qed.

Lemma transmitsOf_app (a b : list Event) :
  transmitsOf (a ++ b) = transmitsOf a ++ transmitsOf b.
Proof.
  induction a as [| e a IH]; [reflexivity |].
  destruct e; simpl; rewrite IH; reflexivity.
Qed.

Lemma countSelect_app (a b : list Event) :
  countSelect (a ++ b) = (countSelect a + countSelect b)%nat.
Proof.
  unfold countSelect.
  now rewrite transmitsOf_app, List.filter_app, length_app.
Qed.

Lemma countSleep_app (ms : Z) (a b : list Event) :
  countSleep ms (a ++ b) = (countSleep ms a + countSleep ms b)%nat.
Proof.
  induction a as [| e a IH]; [reflexivity |].
  destruct e; simpl; rewrite ?IH; try reflexivity.
  destruct (ms0 =? ms); simpl; now rewrite ?IH.
Qed.

Lemma countReset_app (a b : list Event) :
  countReset (a ++ b) = (countReset a + countReset b)%nat.
Proof.
  induction a as [| e a IH]; [reflexivity |].
  destruct e as [| | | | [] |]; simpl; rewrite IH; reflexivity.
Qed.

Lemma quiet_nil : quiet [].
Proof. repeat split. Qed.

Lemma quiet_app (a b : list Event) : quiet a -> quiet b -> quiet (a ++ b).
Proof.
  intros (Ha1 & Ha2 & Ha3 & Ha4) (Hb1 & Hb2 & Hb3 & Hb4).
  unfold quiet.
  rewrite broadcastsOf_app, countSelect_app, countReset_app, Ha1, Ha2, Ha4,
          Hb1, Hb2, Hb4.
  repeat split. intros ms. now rewrite countSleep_app, Ha3, Hb3.
Qed.

(** A command that is not SELECT is quiet traffic. *)
Lemma quiet_transmit (cmd : list byte) :
  bytes_eqb cmd smartcard.selectCmd = false -> quiet [ETransmit cmd].
Proof.
  intros Hne. unfold quiet, countSelect. simpl. rewrite Hne.
  repeat split.
Qed.

Lemma readBinaryCmd_not_select (p1 p2 le : byte) :
  bytes_eqb (smartcard.readBinaryCmd p1 p2 le) smartcard.selectCmd = false.
Proof. reflexivity. Qed.

Lemma getResponseCmd_not_select (sw2 : byte) :
  bytes_eqb (smartcard.getResponseCmd sw2) smartcard.selectCmd = false.
Proof. reflexivity. Qed.

End LogProps.

(* ===================================================================== *)
(** * The protocol engine *)
(* ===================================================================== *)

Module EngineProps.

Import domain smartcard.

Section Engine.

Context {World Card : Type} `{PCSC World Card}.
Variable Windows874_Bytes : list byte -> string + list byte.
Variable base64_EncodeToString : list byte -> string.

(** Running a bind whose first part is known. *)
Lemma bind_ok {A B} (m : M World A) (f : A -> M World B) s a s' :
  m s = (Ok a, s') -> bind m f s = f a s'.
Proof. intros Hm. unfold bind. now rewrite Hm. Qed.

Lemma bind_panic {A B} (m : M World A) (f : A -> M World B) s s' :
  m s = (Panic, s') -> bind m f s = (Panic, s').
Proof. intros Hm. unfold bind. now rewrite Hm. Qed.

(** [readBinary] and [selectApplet] never panic. *)
Lemma readBinary_total (card : Card) (p1 p2 le : byte) (s : Sys World) :
  exists r s', readBinary card p1 p2 le s = (Ok r, s').
Proof.
  unfold readBinary, bind, transmit, ret.
  destruct (Transmit card (readBinaryCmd p1 p2 le) (world s)) as [[err | rsp] w];
    [eauto |].
  destruct (length rsp <? 2)%nat; [eauto |].
  destruct (statusWord rsp) as [sw1 sw2].
  destruct (Byte.eqb sw1 x61); [| eauto].
  cbn [world].
  destruct (Transmit card (getResponseCmd sw2) w) as [[err | rsp2] w2];
    [eauto |].
  destruct (length rsp2 <? 2)%nat; eauto.
Qed.

Lemma selectApplet_total (card : Card) (s : Sys World) :
  exists r s', selectApplet card s = (Ok r, s').
Proof.
  unfold selectApplet, bind, transmit, ret.
  destruct (Transmit card selectCmd (world s)) as [[err | rsp] w]; [eauto |].
  destruct (length rsp <? 2)%nat; [eauto |].
  destruct (statusWord rsp) as [sw1 sw2].
  destruct (Byte.eqb sw1 x61); [| eauto].
  cbn [world].
  destruct (Transmit card (getResponseCmd sw2) w) as [[err | rsp2] w2];
    [eauto |].
  destruct (length rsp2 <? 2)%nat; eauto.
Qed.

(** The photo loop reads the chunks as the specification says and
    appends them to what it was given. *)
Lemma readPhotoChunks_spec (card : Card) (cmds : list (byte * byte)) :
  forall (acc : list byte) (s : Sys World),
  exists chunks s',
    readPhotoChunks card cmds acc s = (Ok (acc ++ concat chunks), s')
    /\ PhotoSpec.ChunksRead card cmds s chunks s'.
Proof.
  induction cmds as [| [p1 p2] rest IH]; intros acc s.
  - exists [], s. simpl. rewrite app_nil_r. split; [reflexivity | constructor].
  - cbn [readPhotoChunks].
    destruct (readBinary_total card p1 p2 xff s) as ([err | data] & s1 & Hrb).
    + exists [], s1. rewrite (bind_ok _ _ _ _ _ Hrb). simpl.
      rewrite app_nil_r. split; [reflexivity |].
      eapply PhotoSpec.ChunksRead_fail; eassumption.
    + destruct (IH (acc ++ data) s1) as (chunks & s' & Hrun & Hrel).
      exists (data :: chunks), s'. rewrite (bind_ok _ _ _ _ _ Hrb).
      rewrite Hrun. simpl. rewrite app_assoc. split; [reflexivity |].
      eapply PhotoSpec.ChunksRead_next; eassumption.
Qed.

(** [trimPhoto] cuts just after the first end-of-image marker. *)
Lemma trimPhoto_marker (data : list byte) :
  PhotoSpec.occursIn [xff; xd9] data ->
  exists pre post,
    data = pre ++ [xff; xd9] ++ post
    /\ ~ PhotoSpec.occursIn [xff; xd9] (pre ++ [xff])
    /\ trimPhoto data = pre ++ [xff; xd9].
Proof.
  intros Hocc. unfold trimPhoto, GoBytes.Index.
  destruct (BytesProps.Index_from_spec [xff; xd9] data 0)
    as [[_ Hno] | (pre & post & Hd & Hidx & Hmin)]; [lia | contradiction |].
  exists pre, post. split; [exact Hd | split].
  - intros (pre' & post' & Hp).
    assert (Hlen : length (pre ++ [xff]) = length (pre' ++ [xff; xd9] ++ post'))
      by now rewrite Hp.
    rewrite !length_app in Hlen. simpl in Hlen.
    assert (Hd' : data = pre' ++ [xff; xd9] ++ (post' ++ [xd9] ++ post)).
    { rewrite Hd.
      change (pre ++ [xff; xd9] ++ post) with (pre ++ [xff] ++ [xd9] ++ post).
      rewrite app_assoc, Hp. now rewrite <- !app_assoc. }
    specialize (Hmin _ _ Hd'). lia.
  - rewrite Hidx.
    destruct (0 + Z.of_nat (length pre) =? -1) eqn:E; [lia |].
    cbn [negb]. unfold GoBytes.slice_to.
    replace (Z.to_nat (0 + Z.of_nat (length pre) + 2))
      with (length (pre ++ [xff; xd9]))
      by (rewrite length_app; simpl; lia).
    rewrite Hd at 1.
    change (pre ++ [xff; xd9] ++ post) with (pre ++ ([xff; xd9] ++ post)).
    rewrite app_assoc. apply take_app_length.
Qed.

(** Without a marker, [trimPhoto] only removes the spaces at the end. *)
Lemma trimPhoto_no_marker (data : list byte) :
  ~ PhotoSpec.occursIn [xff; xd9] data ->
  exists k,
    data = trimPhoto data ++ repeat x20 k
    /\ forall r, trimPhoto data <> r ++ [x20].
Proof.
  intros Hno. unfold trimPhoto, GoBytes.Index.
  destruct (BytesProps.Index_from_spec [xff; xd9] data 0)
    as [[-> _] | (pre & post & Hd & _)]; [lia | |].
  - cbn [Z.eqb negb]. apply BytesProps.TrimRight_single.
  - exfalso. apply Hno. now exists pre, post.
Qed.

(** *** The decoders of the engine and the words of the claim *)

Local Abbreviation recordOf :=
  (RecordSpec.recordOf Windows874_Bytes base64_EncodeToString).
Local Abbreviation thaiText := (RecordSpec.thaiText Windows874_Bytes).

Lemma decodeThaiString_thaiText (data : list byte) :
  decodeThaiString Windows874_Bytes data = thaiText data.
Proof.
  unfold decodeThaiString, RecordSpec.thaiText, RecordSpec.trimNul.
  destruct (Windows874_Bytes data); reflexivity.
Qed.

Lemma splitNames_namesOf (names : string) :
  match splitNames names with
  | Some p => p
  | None => ("", "")
  end = RecordSpec.namesOf names.
Proof.
  unfold splitNames, RecordSpec.namesOf.
  change (list_byte_of_string "#") with [x23].
  destruct (GoBytes.Split (list_byte_of_string names) [x23]) as [| p0 [| p1 ps]];
    reflexivity.
Qed.

Lemma decodeGender_genderOf (data : list byte) :
  match decodeGender data with
  | Some g => g
  | None => ""
  end = RecordSpec.genderOf data.
Proof.
  destruct data as [| b data]; [reflexivity |].
  unfold decodeGender, RecordSpec.genderOf.
  destruct (Byte.eqb b x31); [reflexivity |].
  destruct (Byte.eqb b x32); reflexivity.
Qed.

Lemma formatDate_dateOf (data : list byte) :
  formatDate (string_of_list_byte data) = RecordSpec.dateOf data.
Proof.
  unfold RecordSpec.dateOf.
  destruct (GoBytes.Trim data [x00])
    as [| y1 [| y2 [| y3 [| y4 [| m1 [| m2 [| d1 [| d2 rest]]]]]]]] eqn:Ht;
    try (apply DateProps.formatDate_short;
         rewrite list_byte_of_string_of_list_byte, Ht; simpl; lia).
  apply (DateProps.formatDate_long _ y1 y2 y3 y4 m1 m2 d1 d2 rest).
  now rewrite list_byte_of_string_of_list_byte.
Qed.

(** *** Each assignment of [readCard] on an explicit record *)

Lemma putCitizenID_mk r a1 a2 a3 a4 a5 a6 a7 a8 a9 a10 a11 a12 a13 a14 a15 :
  putCitizenID r (mkThaiIdCard a1 a2 a3 a4 a5 a6 a7 a8 a9 a10 a11 a12 a13 a14 a15)
  = mkThaiIdCard (RecordSpec.fieldOf r a1 RecordSpec.trimNul)
                 a2 a3 a4 a5 a6 a7 a8 a9 a10 a11 a12 a13 a14 a15.
Proof. destruct r; reflexivity. Qed.

Lemma putNameTH_mk r a1 a2 a4 a6 a7 a8 a9 a10 a11 a12 a13 a14 a15 :
  putNameTH Windows874_Bytes r
    (mkThaiIdCard a1 a2 "" a4 "" a6 a7 a8 a9 a10 a11 a12 a13 a14 a15)
  = mkThaiIdCard a1 a2
      (RecordSpec.fieldOf r "" (fun d => fst (RecordSpec.namesOf (thaiText d))))
      a4
      (RecordSpec.fieldOf r "" (fun d => snd (RecordSpec.namesOf (thaiText d))))
      a6 a7 a8 a9 a10 a11 a12 a13 a14 a15.
Proof.
  destruct r as [err | data]; [reflexivity |].
  unfold putNameTH, RecordSpec.fieldOf.
  rewrite decodeThaiString_thaiText, <- (splitNames_namesOf (thaiText data)).
  destruct (splitNames (thaiText data)) as [[f l] |]; reflexivity.
Qed.

Lemma putNameEN_mk r a1 a2 a3 a4 a5 a6 a8 a10 a11 a12 a13 a14 a15 :
  putNameEN r
    (mkThaiIdCard a1 a2 a3 a4 a5 a6 "" a8 "" a10 a11 a12 a13 a14 a15)
  = mkThaiIdCard a1 a2 a3 a4 a5 a6
      (RecordSpec.fieldOf r ""
         (fun d => fst (RecordSpec.namesOf (RecordSpec.trimNul d))))
      a8
      (RecordSpec.fieldOf r ""
         (fun d => snd (RecordSpec.namesOf (RecordSpec.trimNul d))))
      a10 a11 a12 a13 a14 a15.
Proof.
  destruct r as [err | data]; [reflexivity |].
  unfold putNameEN, RecordSpec.fieldOf.
  rewrite <- (splitNames_namesOf (RecordSpec.trimNul data)).
  unfold RecordSpec.trimNul.
  destruct (splitNames (string_of_list_byte (GoBytes.Trim data [x00])))
    as [[f l] |]; reflexivity.
Qed.

Lemma putDateOfBirth_mk r a1 a2 a3 a4 a5 a6 a7 a8 a9 a10 a11 a12 a13 a14 a15 :
  putDate set_DateOfBirth r
    (mkThaiIdCard a1 a2 a3 a4 a5 a6 a7 a8 a9 a10 a11 a12 a13 a14 a15)
  = mkThaiIdCard a1 a2 a3 a4 a5 a6 a7 a8 a9
                 (RecordSpec.fieldOf r a10 RecordSpec.dateOf)
                 a11 a12 a13 a14 a15.
Proof.
  destruct r as [err | data]; [reflexivity |].
  unfold putDate, RecordSpec.fieldOf. now rewrite formatDate_dateOf.
Qed.

Lemma putGender_mk r a1 a2 a3 a4 a5 a6 a7 a8 a9 a10 a12 a13 a14 a15 :
  putGender r
    (mkThaiIdCard a1 a2 a3 a4 a5 a6 a7 a8 a9 a10 "" a12 a13 a14 a15)
  = mkThaiIdCard a1 a2 a3 a4 a5 a6 a7 a8 a9 a10
                 (RecordSpec.fieldOf r "" RecordSpec.genderOf)
                 a12 a13 a14 a15.
Proof.
  destruct r as [err | data]; [reflexivity |].
  unfold putGender, RecordSpec.fieldOf.
  rewrite <- (decodeGender_genderOf data).
  destruct (decodeGender data); reflexivity.
Qed.

Lemma putIssueDate_mk r a1 a2 a3 a4 a5 a6 a7 a8 a9 a10 a11 a12 a13 a14 a15 :
  putDate set_IssueDate r
    (mkThaiIdCard a1 a2 a3 a4 a5 a6 a7 a8 a9 a10 a11 a12 a13 a14 a15)
  = mkThaiIdCard a1 a2 a3 a4 a5 a6 a7 a8 a9 a10 a11 a12
                 (RecordSpec.fieldOf r a13 RecordSpec.dateOf) a14 a15.
Proof.
  destruct r as [err | data]; [reflexivity |].
  unfold putDate, RecordSpec.fieldOf. now rewrite formatDate_dateOf.
Qed.

Lemma putExpireDate_mk r a1 a2 a3 a4 a5 a6 a7 a8 a9 a10 a11 a12 a13 a14 a15 :
  putDate set_ExpireDate r
    (mkThaiIdCard a1 a2 a3 a4 a5 a6 a7 a8 a9 a10 a11 a12 a13 a14 a15)
  = mkThaiIdCard a1 a2 a3 a4 a5 a6 a7 a8 a9 a10 a11 a12 a13
                 (RecordSpec.fieldOf r a14 RecordSpec.dateOf) a15.
Proof.
  destruct r as [err | data]; [reflexivity |].
  unfold putDate, RecordSpec.fieldOf. now rewrite formatDate_dateOf.
Qed.

Lemma putAddress_mk r a1 a2 a3 a4 a5 a6 a7 a8 a9 a10 a11 a12 a13 a14 a15 :
  putAddress Windows874_Bytes r
    (mkThaiIdCard a1 a2 a3 a4 a5 a6 a7 a8 a9 a10 a11 a12 a13 a14 a15)
  = mkThaiIdCard a1 a2 a3 a4 a5 a6 a7 a8 a9 a10 a11
      (RecordSpec.fieldOf r a12 (fun d => ParseThaiAddress (thaiText d)))
      a13 a14 a15.
Proof.
  destruct r as [err | data]; [reflexivity |].
  unfold putAddress, RecordSpec.fieldOf.
  now rewrite decodeThaiString_thaiText.
Qed.

Lemma putPhoto_mk r a1 a2 a3 a4 a5 a6 a7 a8 a9 a10 a11 a12 a13 a14 :
  putPhoto base64_EncodeToString r
    (mkThaiIdCard a1 a2 a3 a4 a5 a6 a7 a8 a9 a10 a11 a12 a13 a14 "")
  = mkThaiIdCard a1 a2 a3 a4 a5 a6 a7 a8 a9 a10 a11 a12 a13 a14
      (RecordSpec.fieldOf r "" (RecordSpec.photoOf base64_EncodeToString)).
Proof.
  destruct r as [err | [| b data]]; reflexivity.
Qed.

(** A failed selection ends [readCard] with the wrapped error. *)
Lemma readCard_rejected (card : Card) (s s1 : Sys World) (err : string) :
  selectApplet card (RecordSpec.afterPause s) = (Ok (Some err), s1) ->
  readCard Windows874_Bytes base64_EncodeToString card s
  = (Ok (None, Some (ErrMsgUnsupportedCard +:+ ": " +:+ err)), s1).
Proof.
  intros Hsel. unfold readCard, bind, sleep, emit.
  unfold RecordSpec.afterPause in Hsel. rewrite Hsel. reflexivity.
Qed.

(** After a successful selection [readCard] returns the record that the
    nine reads determine, and no error. *)
Lemma readCard_selected (card : Card) (s s1 s9 s' : Sys World)
      (r1 r2 r3 r4 r5 r6 r7 r8 : string + list byte) (photo : list byte) :
  selectApplet card (RecordSpec.afterPause s) = (Ok None, s1) ->
  RecordSpec.ReadsInOrder card RecordSpec.fieldCommands s1
                          [r1; r2; r3; r4; r5; r6; r7; r8] s9 ->
  readPhoto card s9 = (Ok (inr photo), s') ->
  readCard Windows874_Bytes base64_EncodeToString card s
  = (Ok (Some (recordOf r1 r2 r3 r4 r5 r6 r7 r8 (inr photo)), None), s').
Proof.
  intros Hsel Hreads Hphoto.
  unfold RecordSpec.fieldCommands in Hreads.
  inversion Hreads as [| ? ? ? ? ? s2 ? ? ? H1 Hr1]; subst; clear Hreads.
  inversion Hr1 as [| ? ? ? ? ? s3 ? ? ? H2 Hr2]; subst; clear Hr1.
  inversion Hr2 as [| ? ? ? ? ? s4 ? ? ? H3 Hr3]; subst; clear Hr2.
  inversion Hr3 as [| ? ? ? ? ? s5 ? ? ? H4 Hr4]; subst; clear Hr3.
  inversion Hr4 as [| ? ? ? ? ? s6 ? ? ? H5 Hr5]; subst; clear Hr4.
  inversion Hr5 as [| ? ? ? ? ? s7 ? ? ? H6 Hr6]; subst; clear Hr5.
  inversion Hr6 as [| ? ? ? ? ? s8 ? ? ? H7 Hr7]; subst; clear Hr6.
  inversion Hr7 as [| ? ? ? ? ? s9' ? ? ? H8 Hr8]; subst; clear Hr7.
  inversion Hr8; subst; clear Hr8.
  unfold readCard.
  rewrite (bind_ok (sleep 50) _ s tt (RecordSpec.afterPause s)) by reflexivity.
  rewrite (bind_ok _ _ _ _ _ Hsel).
  rewrite (bind_ok _ _ _ _ _ H1), (bind_ok _ _ _ _ _ H2),
          (bind_ok _ _ _ _ _ H3), (bind_ok _ _ _ _ _ H4),
          (bind_ok _ _ _ _ _ H5), (bind_ok _ _ _ _ _ H6),
          (bind_ok _ _ _ _ _ H7), (bind_ok _ _ _ _ _ H8),
          (bind_ok _ _ _ _ _ Hphoto).
  unfold ret, ThaiIdCard_zero.
  rewrite putCitizenID_mk, putNameTH_mk, putNameEN_mk, putDateOfBirth_mk,
          putGender_mk, putIssueDate_mk, putExpireDate_mk, putAddress_mk,
          putPhoto_mk.
  reflexivity.
Qed.

(** Reads issued in order always have results. *)
Lemma ReadsInOrder_total (card : Card) (cmds : list (byte * byte * byte)) :
  forall s : Sys World,
  exists rs s', RecordSpec.ReadsInOrder card cmds s rs s'
                /\ length rs = length cmds.
Proof.
  induction cmds as [| [[p1 p2] le] rest IH]; intros s.
  - exists [], s. split; [constructor | reflexivity].
  - destruct (readBinary_total card p1 p2 le s) as (r & s1 & Hr).
    destruct (IH s1) as (rs & s' & Hrs & Hlen).
    exists (r :: rs), s'. split; [econstructor; eassumption | simpl; lia].
Qed.

Lemma readPhoto_total (card : Card) (s : Sys World) :
  exists photo s', readPhoto card s = (Ok (inr photo), s').
Proof.
  unfold readPhoto.
  destruct (readPhotoChunks_spec card photoCommands [] s)
    as (chunks & s' & Hrun & _).
  rewrite (bind_ok _ _ _ _ _ Hrun). unfold ret. eauto.
Qed.

End Engine.

(** The member [address] of a marshalled card is its marshalled
    address. *)
Lemma jsonField_address (c : ThaiIdCard) :
  LogSpec.jsonField "address" (marshalPayload (PayloadCard c))
  = Some (marshalAddress (Address_ c)).
Proof. reflexivity. Qed.

End EngineProps.

(** C3.  [readPhoto] never fails.  It reads the chunks in the fixed order
    of [photoCommands] and stops at the first chunk that fails; on the
    concatenation of the chunks read, when the pair FF D9 occurs the
    result ends just after its first occurrence, and when it occurs
    nowhere the result is the concatenation without its trailing 0x20
    bytes. *)
Theorem C3_photo_reassembly {World Card : Type} `{PCSC World Card}
        (card : Card) (s : Sys World) :
  exists (chunks : list (list byte)) (s' : Sys World),
    smartcard.readPhoto card s
      = (Ok (inr (smartcard.trimPhoto (concat chunks))), s')
    /\ PhotoSpec.ChunksRead card smartcard.photoCommands s chunks s'
    /\ (PhotoSpec.occursIn [xff; xd9] (concat chunks) ->
        exists pre post,
          concat chunks = pre ++ [xff; xd9] ++ post
          /\ ~ PhotoSpec.occursIn [xff; xd9] (pre ++ [xff])
          /\ smartcard.trimPhoto (concat chunks) = pre ++ [xff; xd9])
    /\ (~ PhotoSpec.occursIn [xff; xd9] (concat chunks) ->
        exists k,
          concat chunks = smartcard.trimPhoto (concat chunks) ++ repeat x20 k
          /\ forall r, smartcard.trimPhoto (concat chunks) <> r ++ [x20]).
Proof.
  destruct (EngineProps.readPhotoChunks_spec card smartcard.photoCommands [] s)
    as (chunks & s' & Hrun & Hrel).
  exists chunks, s'. split; [| split; [exact Hrel | split]].
  - unfold smartcard.readPhoto.
    rewrite (EngineProps.bind_ok _ _ _ _ _ Hrun). reflexivity.
  - apply EngineProps.trimPhoto_marker.
  - apply EngineProps.trimPhoto_no_marker.
Qed.

(** The specification's photo test: three chunks whose concatenation ends
    in FF D9 20 20 give a photo that ends at FF D9; the fourth read fails
    and ends the reading. *)
Example photo_three_chunks :
  fst (smartcard.readPhoto tt
         (Sim.start (Sim.mkWorld [] [] false
            [ Sim.rsp [xff; xd8; x01] x90 x00;
              Sim.rsp [x02; x03] x90 x00;
              Sim.rsp [x04; xff; xd9; x20; x20] x90 x00;
              Sim.rsp [] x6a x82 ]
            (inl "no answer"))))
  = Ok (inr [xff; xd8; x01; x02; x03; x04; xff; xd9]).
Proof. vm_compute. reflexivity. Qed.

(** Without a marker only the trailing spaces go. *)
Example photo_no_marker :
  smartcard.trimPhoto [x01; x20; x02; xd9; xff; x20; x20; x20]
  = [x01; x20; x02; xd9; xff].
Proof. vm_compute. reflexivity. Qed.

(** C4.  The address of the specification parses into house number 28/70,
    soi, subdistrict, district and province without their prefixes, and
    the full address is rebuilt from these fields in the fixed order with
    the prefixes found in the input. *)
Theorem C4_parse_address_example :
  let raw := "28/70#ซอยสุขขุมวิท 70 แยก 5-1#แขวงจอมทอง#เขตจอมทอง#จังหวัดกรุงเทพมหานคร" in
  exists a : domain.Address,
    domain.ParseThaiAddress raw = Some a
    /\ domain.HouseNo a = "28/70"
    /\ domain.Moo a = ""
    /\ domain.Soi a = "สุขขุมวิท 70 แยก 5-1"
    /\ domain.Street a = ""
    /\ domain.Subdistrict a = "จอมทอง"
    /\ domain.District a = "จอมทอง"
    /\ domain.Province a = "กรุงเทพมหานคร"
    /\ domain.FullAddress a
       = GoStrings.Join
           [ domain.HouseNo a;
             "ซอย" +:+ domain.Soi a;
             "แขวง" +:+ domain.Subdistrict a;
             "เขต" +:+ domain.District a;
             "จังหวัด" +:+ domain.Province a ] " "
    /\ domain.FullAddress a
       = "28/70 ซอยสุขขุมวิท 70 แยก 5-1 แขวงจอมทอง เขตจอมทอง จังหวัดกรุงเทพมหานคร".
Proof.
  eexists. split; [vm_compute; reflexivity |].
  repeat split.
Qed.
(** C8, as amended.  Selection always has an outcome.  When it succeeds,
    [readCard] returns no error and the record of [RecordSpec.recordOf]:
    a field whose read failed has its zero value, and a field whose read
    succeeded is made from the bytes read as [RecordSpec] says, which can
    leave it empty.  When selection fails, [readCard] returns no record
    and the wrapped error.  So a record is withheld exactly when
    selection failed. *)
Theorem C8_field_failures_are_not_fatal
        {World Card : Type} `{PCSC World Card}
        (Windows874_Bytes : list byte -> string + list byte)
        (base64_EncodeToString : list byte -> string)
        (card : Card) (s : Sys World) :
  let readCard :=
    smartcard.readCard Windows874_Bytes base64_EncodeToString card in
  let select := smartcard.selectApplet card (RecordSpec.afterPause s) in
  (exists e s1, select = (Ok e, s1))
  /\ (forall s1,
        select = (Ok None, s1) ->
        exists r1 r2 r3 r4 r5 r6 r7 r8 s9 photo s',
          RecordSpec.ReadsInOrder card RecordSpec.fieldCommands s1
            [r1; r2; r3; r4; r5; r6; r7; r8] s9
          /\ smartcard.readPhoto card s9 = (Ok (inr photo), s')
          /\ readCard s
             = (Ok (Some (RecordSpec.recordOf Windows874_Bytes
                            base64_EncodeToString
                            r1 r2 r3 r4 r5 r6 r7 r8 (inr photo)),
                    None), s'))
  /\ (forall err s1,
        select = (Ok (Some err), s1) ->
        readCard s
        = (Ok (None, Some (domain.ErrMsgUnsupportedCard +:+ ": " +:+ err)),
           s1))
  /\ ((exists e s', readCard s = (Ok (None, Some e), s'))
      <-> (exists err s1, select = (Ok (Some err), s1))).
Proof.
  intros readCard select.
  assert (Hok : forall s1, select = (Ok None, s1) ->
            exists r1 r2 r3 r4 r5 r6 r7 r8 s9 photo s',
              RecordSpec.ReadsInOrder card RecordSpec.fieldCommands s1
                [r1; r2; r3; r4; r5; r6; r7; r8] s9
              /\ smartcard.readPhoto card s9 = (Ok (inr photo), s')
              /\ readCard s
                 = (Ok (Some (RecordSpec.recordOf Windows874_Bytes
                                base64_EncodeToString
                                r1 r2 r3 r4 r5 r6 r7 r8 (inr photo)),
                        None), s')).
  { intros s1 Hsel.
    destruct (EngineProps.ReadsInOrder_total card RecordSpec.fieldCommands s1)
      as (rs & s9 & Hreads & Hlen).
    do 8 (destruct rs as [| ? rs]; [discriminate Hlen |]).
    destruct rs; [| discriminate Hlen].
    destruct (EngineProps.readPhoto_total card s9) as (photo & s' & Hphoto).
    do 11 eexists. split; [exact Hreads | split; [exact Hphoto |]].
    eapply EngineProps.readCard_selected; eassumption. }
  assert (Hko : forall err s1, select = (Ok (Some err), s1) ->
            readCard s
            = (Ok (None, Some (domain.ErrMsgUnsupportedCard +:+ ": " +:+ err)),
               s1)).
  { intros err s1 Hsel. now apply EngineProps.readCard_rejected. }
  split; [apply EngineProps.selectApplet_total |].
  split; [exact Hok |]. split; [exact Hko |].
  split.
  - intros (e & s' & Hrc).
    destruct (EngineProps.selectApplet_total card (RecordSpec.afterPause s))
      as ([err |] & s1 & Hsel); [eauto |].
    destruct (Hok s1 Hsel) as (? & ? & ? & ? & ? & ? & ? & ? & ? & ? & ? & _ & _ & Hrc').
    rewrite Hrc in Hrc'. discriminate Hrc'.
  - intros (err & s1 & Hsel). rewrite (Hko err s1 Hsel). eauto.
Qed.

(** C8 fails as stated: fields that were read successfully are not always
    populated.  On this card the selection, the citizen number, the Thai
    name (without [#]), the date of birth (four bytes) and the gender
    (the byte [3]) are read with status 9000; the record has the citizen
    number, and its Thai names, date of birth and gender are empty. *)
Lemma C8_read_fields_can_stay_empty :
  let w := Sim.mkWorld [] [] false
             [ Sim.rsp [] x90 x00;
               Sim.rsp (list_byte_of_string "123") x90 x00;
               Sim.rsp (list_byte_of_string "Somchai") x90 x00;
               Sim.rsp [] x6a x82;
               Sim.rsp (list_byte_of_string "2538") x90 x00;
               Sim.rsp (list_byte_of_string "3") x90 x00 ]
             (Sim.rsp [] x6a x82) in
  exists s1 s9 r3 r6 r7 r8 record,
    smartcard.selectApplet tt (RecordSpec.afterPause (Sim.start w))
    = (Ok None, s1)
    /\ RecordSpec.ReadsInOrder tt RecordSpec.fieldCommands s1
         [ inr (list_byte_of_string "123");
           inr (list_byte_of_string "Somchai");
           r3;
           inr (list_byte_of_string "2538");
           inr (list_byte_of_string "3");
           r6; r7; r8 ] s9
    /\ fst (smartcard.readCard Sim.copyDecoder Sim.copyEncoder tt (Sim.start w))
       = Ok (Some record, None)
    /\ domain.CitizenID record = "123"
    /\ domain.FirstNameTH record = ""
    /\ domain.LastNameTH record = ""
    /\ domain.DateOfBirth record = ""
    /\ domain.Gender record = "".
Proof.
  intros w. do 7 eexists.
  split; [reflexivity |].
  split.
  { unfold RecordSpec.fieldCommands.
    repeat (eapply RecordSpec.ReadsInOrder_cons; [reflexivity |]).
    apply RecordSpec.ReadsInOrder_nil. }
  split; [vm_compute; reflexivity |].
  repeat split.
Qed.

(** A card that answers the selection, the citizen number and the gender
    and fails every other read still gives a record. *)
Example readCard_partial :
  fst (smartcard.readCard Sim.copyDecoder Sim.copyEncoder tt
         (Sim.start (Sim.mkWorld [] [] false
            [ Sim.rsp [] x90 x00;
              Sim.rsp [x31; x32; x33; x00] x90 x00;
              Sim.rsp [] x6a x82;
              Sim.rsp [] x6a x82;
              Sim.rsp [] x6a x82;
              Sim.rsp [x32] x90 x00 ]
            (Sim.rsp [] x6a x82))))
  = Ok (Some (domain.mkThaiIdCard "123" "" "" "" "" "" "" "" "" "" "female"
                None "" "" ""),
        None).
Proof. vm_compute. reflexivity. Qed.


(** C9.  [ParseThaiAddress] returns [nil] on the empty string; so when
    the address read failed, or gave a text that decodes to the empty
    string, the record of a successful card read has a [nil] address, and
    the payload of its CARD_INSERTED message has [null] under
    [address]. *)
Theorem C9_unread_address_is_null
        {World Card : Type} `{PCSC World Card}
        (Windows874_Bytes : list byte -> string + list byte)
        (base64_EncodeToString : list byte -> string)
        (card : Card) (s : Sys World) :
  domain.ParseThaiAddress "" = None
  /\ forall s1 r1 r2 r3 r4 r5 r6 r7 r8 s9 photo s',
      smartcard.selectApplet card (RecordSpec.afterPause s) = (Ok None, s1) ->
      RecordSpec.ReadsInOrder card RecordSpec.fieldCommands s1
        [r1; r2; r3; r4; r5; r6; r7; r8] s9 ->
      smartcard.readPhoto card s9 = (Ok (inr photo), s') ->
      match r8 with
      | inl _ => True
      | inr data => smartcard.decodeThaiString Windows874_Bytes data = ""
      end ->
      exists record,
        smartcard.readCard Windows874_Bytes base64_EncodeToString card s
          = (Ok (Some record, None), s')
        /\ domain.Address_ record = None
        /\ LogSpec.jsonField "address"
             (domain.marshalPayload (domain.PayloadCard record))
           = Some JNull
        /\ LogSpec.jsonField "payload"
             (domain.marshalMessage
                (domain.mkWebSocketMessage "CARD_INSERTED"
                   (domain.PayloadCard record)))
           = Some (domain.marshalCard record).
Proof.
  split; [reflexivity |].
  intros s1 r1 r2 r3 r4 r5 r6 r7 r8 s9 photo s' Hsel Hreads Hphoto Haddr.
  eexists. split.
  - eapply EngineProps.readCard_selected; eassumption.
  - assert (Hnil : domain.Address_
                     (RecordSpec.recordOf Windows874_Bytes base64_EncodeToString
                        r1 r2 r3 r4 r5 r6 r7 r8 (inr photo)) = None).
    { cbn [RecordSpec.recordOf domain.Address_ RecordSpec.fieldOf].
      destruct r8 as [err | data]; [reflexivity |].
      cbn [RecordSpec.fieldOf].
      rewrite <- EngineProps.decodeThaiString_thaiText, Haddr.
      reflexivity. }
    split; [exact Hnil |]. split; [| reflexivity].
    rewrite EngineProps.jsonField_address, Hnil. reflexivity.
Qed.

(** A card that answers the selection and the citizen number only: the
    record goes out with [null] under [address]. *)
Lemma C9_unread_address_example :
  exists record,
    fst (smartcard.readCard Sim.copyDecoder Sim.copyEncoder tt
           (Sim.start (Sim.mkWorld [] [] false
              [ Sim.rsp [] x90 x00;
                Sim.rsp [x31; x32; x33; x00] x90 x00 ]
              (Sim.rsp [] x6a x82))))
    = Ok (Some record, None)
    /\ LogSpec.jsonField "address"
         (domain.marshalPayload (domain.PayloadCard record))
       = Some JNull.
Proof.
  pose (w := Sim.mkWorld [] [] false
               [ Sim.rsp [] x90 x00;
                 Sim.rsp [x31; x32; x33; x00] x90 x00 ]
               (Sim.rsp [] x6a x82)).
  eassert (Hsel : smartcard.selectApplet tt
                    (RecordSpec.afterPause (Sim.start w)) = (Ok None, _))
    by reflexivity.
  match type of Hsel with
  | _ = (_, ?s1) =>
      eassert (Hreads : RecordSpec.ReadsInOrder tt RecordSpec.fieldCommands s1
                          [_; _; _; _; _; _; _; _] _)
  end.
  { unfold RecordSpec.fieldCommands.
    repeat (eapply RecordSpec.ReadsInOrder_cons; [reflexivity |]).
    apply RecordSpec.ReadsInOrder_nil. }
  match type of Hreads with
  | RecordSpec.ReadsInOrder _ _ _ _ ?s9 =>
      eassert (Hphoto : smartcard.readPhoto tt s9 = (Ok (inr _), _))
        by reflexivity
  end.
  destruct (proj2 (C9_unread_address_is_null Sim.copyDecoder Sim.copyEncoder
                     tt (Sim.start w))
              _ _ _ _ _ _ _ _ _ _ _ _ Hsel Hreads Hphoto I)
    as (record & Hrun & _ & Hjson & _).
  exists record. split; [| exact Hjson].
  fold w. now rewrite Hrun.
Defined.

(* ===================================================================== *)
(** * Command and response *)
(* ===================================================================== *)

Module ApduProps.

Import smartcard.

Lemma statusWord_app (data : list byte) (sw1 sw2 : byte) :
  statusWord (data ++ [sw1; sw2]) = (sw1, sw2).
Proof.
  unfold statusWord. rewrite length_app. simpl length.
  replace (length data + 2 - 2)%nat with (length data + 0)%nat by lia.
  replace (length data + 2 - 1)%nat with (length data + 1)%nat by lia.
  now rewrite !app_nth2_plus.
Qed.

Lemma responseData_app (data : list byte) (sw1 sw2 : byte) :
  responseData (data ++ [sw1; sw2]) = data.
Proof.
  unfold responseData. rewrite length_app. simpl length.
  replace (length data + 2 - 2)%nat with (length data) by lia.
  apply take_app_length.
Qed.

Lemma length_status (data : list byte) (sw1 sw2 : byte) :
  (length (data ++ [sw1; sw2]) <? 2)%nat = false.
Proof. rewrite length_app. simpl. apply Nat.ltb_ge. lia. Qed.

(** A response of at least two bytes is its data followed by its status
    word. *)
Lemma response_split (rsp : list byte) :
  (length rsp <? 2)%nat = false ->
  rsp = responseData rsp ++ [fst (statusWord rsp); snd (statusWord rsp)].
Proof.
  intros Hlen. apply Nat.ltb_ge in Hlen.
  unfold responseData, statusWord. cbn [fst snd].
  rewrite <- (firstn_skipn (length rsp - 2) rsp) at 1. f_equal.
  assert (Hsk : length (skipn (length rsp - 2) rsp) = 2%nat)
    by (rewrite length_skipn; lia).
  destruct (skipn (length rsp - 2) rsp) as [| a [| b [| c t]]] eqn:Hs;
    try discriminate Hsk.
  assert (Hr : rsp = firstn (length rsp - 2) rsp ++ [a; b])
    by (rewrite <- Hs; symmetry; apply firstn_skipn).
  assert (Hf : length (firstn (length rsp - 2) rsp) = (length rsp - 2)%nat)
    by (rewrite length_firstn; lia).
  rewrite Hr at 2 4. rewrite <- Hf at 1.
  replace (length rsp - 1)%nat
    with (length (firstn (length rsp - 2) rsp) + 1)%nat by lia.
  rewrite <- (Nat.add_0_r (length (firstn _ rsp))) at 1.
  now rewrite !app_nth2_plus.
Qed.

Section Apdu.

Context {World Card : Type} `{PCSC World Card}.

(** Running [transmit] with a known answer. *)
Lemma transmit_run (card : Card) (cmd : list byte) (s : Sys World)
      (r : string + list byte) (w : World) :
  Transmit card cmd (world s) = (r, w) ->
  transmit card cmd s = (Ok r, mkSys w (log s ++ [ETransmit cmd])).
Proof. intros Ht. unfold transmit. now rewrite Ht. Qed.

(** [readBinary] on a first answer without continuation. *)
Lemma readBinary_direct (card : Card) (p1 p2 le : byte) (s : Sys World)
      (rsp : list byte) (w : World) :
  Transmit card (readBinaryCmd p1 p2 le) (world s) = (inr rsp, w) ->
  (length rsp <? 2)%nat = false ->
  Byte.eqb (fst (statusWord rsp)) x61 = false ->
  readBinary card p1 p2 le s
  = (Ok (readBinaryResult rsp),
     mkSys w (log s ++ [ETransmit (readBinaryCmd p1 p2 le)])).
Proof.
  intros Ht Hlen Hsw. unfold readBinary.
  rewrite (EngineProps.bind_ok _ _ _ _ _ (transmit_run _ _ _ _ _ Ht)).
  rewrite Hlen. destruct (statusWord rsp) as [sw1 sw2] eqn:Hst.
  cbn [fst] in Hsw. rewrite Hsw. unfold readBinaryResult. now rewrite Hst.
Qed.

(** [readBinary] on a first answer 61xx. *)
Lemma readBinary_continued (card : Card) (p1 p2 le : byte) (s : Sys World)
      (first : list byte) (sw2 : byte) (w1 w2 : World)
      (r2 : string + list byte) :
  Transmit card (readBinaryCmd p1 p2 le) (world s)
    = (inr (first ++ [x61; sw2]), w1) ->
  Transmit card (getResponseCmd sw2) w1 = (r2, w2) ->
  readBinary card p1 p2 le s
  = (Ok match r2 with
        | inl err => inl err
        | inr rsp2 => if (length rsp2 <? 2)%nat
                      then inl "invalid GET RESPONSE"
                      else readBinaryResult rsp2
        end,
     mkSys w2 (log s ++ [ETransmit (readBinaryCmd p1 p2 le);
                         ETransmit (getResponseCmd sw2)])).
Proof.
  intros Ht1 Ht2. unfold readBinary.
  rewrite (EngineProps.bind_ok _ _ _ _ _ (transmit_run _ _ _ _ _ Ht1)).
  rewrite length_status, statusWord_app. cbn [Byte.eqb].
  change (Byte.eqb x61 x61) with true. cbv iota.
  rewrite (EngineProps.bind_ok _ _ _ _ _
             (transmit_run card (getResponseCmd sw2)
                (mkSys w1 (log s ++ [ETransmit (readBinaryCmd p1 p2 le)]))
                r2 w2 Ht2)).
  cbn [log]. rewrite <- app_assoc.
  destruct r2 as [err | rsp2]; [reflexivity |].
  destruct (length rsp2 <? 2)%nat; reflexivity.
Qed.

(** The verdict on a final response is success only for 9000. *)
Lemma readBinaryResult_ok (rsp data : list byte) :
  (length rsp <? 2)%nat = false ->
  readBinaryResult rsp = inr data -> rsp = data ++ [x90; x00].
Proof.
  intros Hlen Hres. pose proof (response_split rsp Hlen) as Hsplit.
  unfold readBinaryResult in Hres.
  destruct (statusWord rsp) as [sw1 sw2]. cbn [fst snd] in Hsplit.
  destruct (Byte.eqb sw1 x90) eqn:E1; [| discriminate Hres].
  destruct (Byte.eqb sw2 x00) eqn:E2; [| discriminate Hres].
  cbn in Hres. injection Hres as <-.
  apply Byte.byte_dec_bl in E1, E2. now subst.
Qed.

Lemma readBinaryResult_9000 (data : list byte) :
  readBinaryResult (data ++ [x90; x00]) = inr data.
Proof.
  unfold readBinaryResult. rewrite statusWord_app, responseData_app.
  reflexivity.
Qed.

End Apdu.

End ApduProps.

(** X6.  [readBinary] returns data exactly in two cases: the card answers
    the READ BINARY with the data followed by 90 00; or it answers with
    status 61 xx, and answers the GET RESPONSE of length xx with the data
    followed by 90 00 (what came with the 61 xx is dropped).  Nothing else
    is sent, and a second 61 is a failure. *)
Theorem X6_readBinary_succeeds_exactly
        {World Card : Type} `{PCSC World Card}
        (card : Card) (p1 p2 le : byte) (s s' : Sys World)
        (data : list byte) :
  smartcard.readBinary card p1 p2 le s = (Ok (inr data), s')
  <->
  (exists w,
      Transmit card (smartcard.readBinaryCmd p1 p2 le) (world s)
        = (inr (data ++ [x90; x00]), w)
      /\ s' = mkSys w (log s ++ [ETransmit (smartcard.readBinaryCmd p1 p2 le)]))
  \/ (exists first sw2 w1 w2,
         Transmit card (smartcard.readBinaryCmd p1 p2 le) (world s)
           = (inr (first ++ [x61; sw2]), w1)
         /\ Transmit card (smartcard.getResponseCmd sw2) w1
            = (inr (data ++ [x90; x00]), w2)
         /\ s' = mkSys w2
                   (log s ++ [ETransmit (smartcard.readBinaryCmd p1 p2 le);
                              ETransmit (smartcard.getResponseCmd sw2)])).
Proof.
  split.
  - intros Hrun.
    destruct (Transmit card (smartcard.readBinaryCmd p1 p2 le) (world s))
      as [[err | rsp] w] eqn:Ht.
    { unfold smartcard.readBinary in Hrun.
      rewrite (EngineProps.bind_ok _ _ _ _ _
                 (ApduProps.transmit_run _ _ _ _ _ Ht)) in Hrun.
      discriminate Hrun. }
    destruct (length rsp <? 2)%nat eqn:Hlen.
    { unfold smartcard.readBinary in Hrun.
      rewrite (EngineProps.bind_ok _ _ _ _ _
                 (ApduProps.transmit_run _ _ _ _ _ Ht)), Hlen in Hrun.
      discriminate Hrun. }
    destruct (Byte.eqb (fst (smartcard.statusWord rsp)) x61) eqn:Hsw.
    + right. pose proof (ApduProps.response_split rsp Hlen) as Hsplit.
      apply Byte.byte_dec_bl in Hsw. rewrite Hsw in Hsplit.
      set (first := smartcard.responseData rsp) in *.
      set (sw2 := snd (smartcard.statusWord rsp)) in *.
      rewrite Hsplit in Ht.
      destruct (Transmit card (smartcard.getResponseCmd sw2) w)
        as [r2 w2] eqn:Ht2.
      rewrite (ApduProps.readBinary_continued card p1 p2 le s first sw2 w w2
                 r2 Ht Ht2) in Hrun.
      injection Hrun as Hres <-.
      destruct r2 as [err | rsp2]; [discriminate Hres |].
      destruct (length rsp2 <? 2)%nat eqn:Hlen2; [discriminate Hres |].
      apply (ApduProps.readBinaryResult_ok rsp2 data Hlen2) in Hres.
      subst rsp2. exists first, sw2, w, w2.
      split; [now rewrite <- Hsplit | split; [exact Ht2 | reflexivity]].
    + left.
      rewrite (ApduProps.readBinary_direct card p1 p2 le s rsp w Ht Hlen Hsw)
        in Hrun.
      injection Hrun as Hres <-.
      apply (ApduProps.readBinaryResult_ok rsp data Hlen) in Hres.
      subst rsp. exists w. split; reflexivity.
  - intros [(w & Ht & ->) | (first & sw2 & w1 & w2 & Ht1 & Ht2 & ->)].
    + rewrite (ApduProps.readBinary_direct card p1 p2 le s _ w Ht).
      * now rewrite ApduProps.readBinaryResult_9000.
      * apply ApduProps.length_status.
      * now rewrite ApduProps.statusWord_app.
    + rewrite (ApduProps.readBinary_continued card p1 p2 le s first sw2 w1 w2
                 _ Ht1 Ht2).
      now rewrite ApduProps.length_status, ApduProps.readBinaryResult_9000.
Qed.

Module SelectProps.

Import smartcard.

(** The accepted status words. *)
Lemma selectStatus_accepts (sw1 sw2 : byte) :
  selectStatus (sw1, sw2) = None
  <-> (sw1, sw2) = (x90, x00) \/ (sw1, sw2) = (x97, x10).
Proof.
  unfold selectStatus. split.
  - destruct (Byte.eqb sw1 x90 && Byte.eqb sw2 x00) eqn:E1.
    + apply andb_true_iff in E1 as [Ha Hb].
      apply Byte.byte_dec_bl in Ha, Hb. subst. now left.
    + destruct (Byte.eqb sw1 x97 && Byte.eqb sw2 x10) eqn:E2.
      * apply andb_true_iff in E2 as [Ha Hb].
        apply Byte.byte_dec_bl in Ha, Hb. subst. now right.
      * cbn [orb]. destruct (Byte.eqb sw1 x6a && Byte.eqb sw2 x82);
          discriminate.
  - intros [Heq | Heq]; injection Heq as -> ->; reflexivity.
Qed.

Section Select.

Context {World Card : Type} `{PCSC World Card}.

Lemma selectApplet_direct (card : Card) (s : Sys World)
      (rsp : list byte) (w : World) :
  Transmit card selectCmd (world s) = (inr rsp, w) ->
  (length rsp <? 2)%nat = false ->
  Byte.eqb (fst (statusWord rsp)) x61 = false ->
  selectApplet card s
  = (Ok (selectStatus (statusWord rsp)),
     mkSys w (log s ++ [ETransmit selectCmd])).
Proof.
  intros Ht Hlen Hsw. unfold selectApplet.
  rewrite (EngineProps.bind_ok _ _ _ _ _ (ApduProps.transmit_run _ _ _ _ _ Ht)).
  rewrite Hlen. destruct (statusWord rsp) as [sw1 sw2] eqn:Hst.
  cbn [fst] in Hsw. now rewrite Hsw.
Qed.

Lemma selectApplet_continued (card : Card) (s : Sys World)
      (first : list byte) (sw2 : byte) (w1 w2 : World)
      (r2 : string + list byte) :
  Transmit card selectCmd (world s) = (inr (first ++ [x61; sw2]), w1) ->
  Transmit card (getResponseCmd sw2) w1 = (r2, w2) ->
  selectApplet card s
  = (Ok match r2 with
        | inl err => Some ("GET RESPONSE failed: " +:+ err)
        | inr rsp2 => if (length rsp2 <? 2)%nat
                      then Some "invalid GET RESPONSE"
                      else selectStatus (statusWord rsp2)
        end,
     mkSys w2 (log s ++ [ETransmit selectCmd;
                         ETransmit (getResponseCmd sw2)])).
Proof.
  intros Ht1 Ht2. unfold selectApplet.
  rewrite (EngineProps.bind_ok _ _ _ _ _ (ApduProps.transmit_run _ _ _ _ _ Ht1)).
  rewrite ApduProps.length_status, ApduProps.statusWord_app.
  change (Byte.eqb x61 x61) with true. cbv iota.
  rewrite (EngineProps.bind_ok _ _ _ _ _
             (ApduProps.transmit_run card (getResponseCmd sw2)
                (mkSys w1 (log s ++ [ETransmit selectCmd])) r2 w2 Ht2)).
  cbn [log]. rewrite <- app_assoc.
  destruct r2 as [err | rsp2]; [reflexivity |].
  destruct (length rsp2 <? 2)%nat; reflexivity.
Qed.

End Select.

End SelectProps.

(** X7.  [selectApplet] succeeds exactly in two cases: the card answers
    the SELECT with a response ending in 90 00 or 97 10; or it answers
    with status 61 xx and answers the GET RESPONSE of length xx with a
    response ending in 90 00 or 97 10.  No third command is ever sent. *)
Theorem X7_selectApplet_succeeds_exactly
        {World Card : Type} `{PCSC World Card}
        (card : Card) (s s' : Sys World) :
  smartcard.selectApplet card s = (Ok None, s')
  <->
  (exists data sw1 sw2 w,
      Transmit card smartcard.selectCmd (world s)
        = (inr (data ++ [sw1; sw2]), w)
      /\ ((sw1, sw2) = (x90, x00) \/ (sw1, sw2) = (x97, x10))
      /\ s' = mkSys w (log s ++ [ETransmit smartcard.selectCmd]))
  \/ (exists first xx w1 data sw1 sw2 w2,
         Transmit card smartcard.selectCmd (world s)
           = (inr (first ++ [x61; xx]), w1)
         /\ Transmit card (smartcard.getResponseCmd xx) w1
            = (inr (data ++ [sw1; sw2]), w2)
         /\ ((sw1, sw2) = (x90, x00) \/ (sw1, sw2) = (x97, x10))
         /\ s' = mkSys w2
                   (log s ++ [ETransmit smartcard.selectCmd;
                              ETransmit (smartcard.getResponseCmd xx)])).
Proof.
  split.
  - intros Hrun.
    destruct (Transmit card smartcard.selectCmd (world s))
      as [[err | rsp] w] eqn:Ht.
    { unfold smartcard.selectApplet in Hrun.
      rewrite (EngineProps.bind_ok _ _ _ _ _
                 (ApduProps.transmit_run _ _ _ _ _ Ht)) in Hrun.
      discriminate Hrun. }
    destruct (length rsp <? 2)%nat eqn:Hlen.
    { unfold smartcard.selectApplet in Hrun.
      rewrite (EngineProps.bind_ok _ _ _ _ _
                 (ApduProps.transmit_run _ _ _ _ _ Ht)), Hlen in Hrun.
      discriminate Hrun. }
    pose proof (ApduProps.response_split rsp Hlen) as Hsplit.
    destruct (Byte.eqb (fst (smartcard.statusWord rsp)) x61) eqn:Hsw.
    + right. apply Byte.byte_dec_bl in Hsw. rewrite Hsw in Hsplit.
      set (first := smartcard.responseData rsp) in *.
      set (xx := snd (smartcard.statusWord rsp)) in *.
      rewrite Hsplit in Ht.
      destruct (Transmit card (smartcard.getResponseCmd xx) w)
        as [r2 w2] eqn:Ht2.
      rewrite (SelectProps.selectApplet_continued card s first xx w w2 r2
                 Ht Ht2) in Hrun.
      destruct r2 as [err | rsp2]; [discriminate Hrun |].
      destruct (length rsp2 <? 2)%nat eqn:Hlen2; [discriminate Hrun |].
      pose proof (ApduProps.response_split rsp2 Hlen2) as Hsplit2.
      destruct (smartcard.statusWord rsp2) as [sw1 sw2].
      cbn [fst snd] in Hsplit2.
      assert (Hres : smartcard.selectStatus (sw1, sw2) = None)
        by congruence.
      assert (Hs' : mkSys w2 (log s ++ [ETransmit smartcard.selectCmd;
                                        ETransmit (smartcard.getResponseCmd xx)])
                    = s') by congruence.
      subst s'.
      apply SelectProps.selectStatus_accepts in Hres.
      exists first, xx, w, (smartcard.responseData rsp2), sw1, sw2, w2.
      split; [now rewrite <- Hsplit |].
      split; [now rewrite <- Hsplit2 |]. split; [exact Hres | reflexivity].
    + left.
      rewrite (SelectProps.selectApplet_direct card s rsp w Ht Hlen Hsw)
        in Hrun.
      destruct (smartcard.statusWord rsp) as [sw1 sw2].
      cbn [fst snd] in Hsplit.
      assert (Hres : smartcard.selectStatus (sw1, sw2) = None)
        by congruence.
      assert (Hs' : mkSys w (log s ++ [ETransmit smartcard.selectCmd]) = s')
        by congruence.
      subst s'.
      apply SelectProps.selectStatus_accepts in Hres.
      exists (smartcard.responseData rsp), sw1, sw2, w.
      split; [now rewrite <- Hsplit |]. split; [exact Hres | reflexivity].
  - intros [(data & sw1 & sw2 & w & Ht & Hok & ->)
           | (first & xx & w1 & data & sw1 & sw2 & w2 & Ht1 & Ht2 & Hok & ->)].
    + rewrite (SelectProps.selectApplet_direct card s _ w Ht).
      * rewrite ApduProps.statusWord_app.
        apply SelectProps.selectStatus_accepts in Hok. now rewrite Hok.
      * apply ApduProps.length_status.
      * rewrite ApduProps.statusWord_app. cbn [fst].
        destruct Hok as [Hok | Hok]; injection Hok as -> ->; reflexivity.
    + rewrite (SelectProps.selectApplet_continued card s first xx w1 w2
                 _ Ht1 Ht2).
      rewrite ApduProps.length_status, ApduProps.statusWord_app.
      apply SelectProps.selectStatus_accepts in Hok. now rewrite Hok.
Qed.

(* ===================================================================== *)
(** * The order of the commands *)
(* ===================================================================== *)

Module TraceProps.

Import domain smartcard LogSpec.

Lemma transmitsOf_map (cmds : list (list byte)) :
  transmitsOf (map ETransmit cmds) = cmds.
Proof. induction cmds as [| c cmds IH]; [reflexivity | simpl; now rewrite IH]. Qed.

Lemma primary_map_app (a b : list (list byte)) :
  primaryCommands (map ETransmit (a ++ b))
  = primaryCommands (map ETransmit a) ++ primaryCommands (map ETransmit b).
Proof.
  unfold primaryCommands.
  now rewrite map_app, LogProps.transmitsOf_app, List.filter_app.
Qed.

Section Trace.

Context {World Card : Type} `{PCSC World Card}.

Lemma readBinary_trace (card : Card) (p1 p2 le : byte) (s s' : Sys World)
      (res : Result (string + list byte)) :
  readBinary card p1 p2 le s = (res, s') ->
  exists cmds,
    log s' = log s ++ map ETransmit cmds
    /\ primaryCommands (map ETransmit cmds) = [readBinaryCmd p1 p2 le]
    /\ (length cmds <= 2)%nat.
Proof.
  unfold readBinary.
  destruct (Transmit card (readBinaryCmd p1 p2 le) (world s)) as [r w] eqn:Ht.
  rewrite (EngineProps.bind_ok _ _ _ _ _ (ApduProps.transmit_run _ _ _ _ _ Ht)).
  assert (Hone : forall (res0 : string + list byte),
             (Ok res0, mkSys w (log s ++ [ETransmit (readBinaryCmd p1 p2 le)]))
             = (res, s') ->
             exists cmds,
               log s' = log s ++ map ETransmit cmds
               /\ primaryCommands (map ETransmit cmds) = [readBinaryCmd p1 p2 le]
               /\ (length cmds <= 2)%nat).
  { intros res0 Heq. injection Heq as <- <-.
    exists [readBinaryCmd p1 p2 le].
    split; [reflexivity | split; [reflexivity | simpl; lia]]. }
  destruct r as [err | rsp]; [apply Hone |].
  destruct (length rsp <? 2)%nat; [apply Hone |].
  destruct (statusWord rsp) as [sw1 sw2].
  destruct (Byte.eqb sw1 x61); [| apply Hone].
  destruct (Transmit card (getResponseCmd sw2) w) as [r2 w2] eqn:Ht2.
  rewrite (EngineProps.bind_ok _ _ _ _ _
             (ApduProps.transmit_run card (getResponseCmd sw2)
                (mkSys w (log s ++ [ETransmit (readBinaryCmd p1 p2 le)]))
                r2 w2 Ht2)).
  assert (Htwo : forall (res0 : string + list byte),
             (Ok res0,
              mkSys w2 (log (mkSys w (log s ++ [ETransmit (readBinaryCmd p1 p2 le)]))
                          ++ [ETransmit (getResponseCmd sw2)]))
             = (res, s') ->
             exists cmds,
               log s' = log s ++ map ETransmit cmds
               /\ primaryCommands (map ETransmit cmds) = [readBinaryCmd p1 p2 le]
               /\ (length cmds <= 2)%nat).
  { intros res0 Heq. injection Heq as <- <-.
    exists [readBinaryCmd p1 p2 le; getResponseCmd sw2].
    split; [cbn [log map]; now rewrite <- app_assoc |].
    split; [reflexivity | simpl; lia]. }
  destruct r2 as [err | rsp2]; [apply Htwo |].
  destruct (length rsp2 <? 2)%nat; apply Htwo.
Qed.

Lemma selectApplet_trace (card : Card) (s s' : Sys World)
      (res : Result (option string)) :
  selectApplet card s = (res, s') ->
  exists cmds,
    log s' = log s ++ map ETransmit cmds
    /\ primaryCommands (map ETransmit cmds) = [selectCmd]
    /\ (length cmds <= 2)%nat.
Proof.
  unfold selectApplet.
  destruct (Transmit card selectCmd (world s)) as [r w] eqn:Ht.
  rewrite (EngineProps.bind_ok _ _ _ _ _ (ApduProps.transmit_run _ _ _ _ _ Ht)).
  assert (Hone : forall (res0 : option string),
             (Ok res0, mkSys w (log s ++ [ETransmit selectCmd])) = (res, s') ->
             exists cmds,
               log s' = log s ++ map ETransmit cmds
               /\ primaryCommands (map ETransmit cmds) = [selectCmd]
               /\ (length cmds <= 2)%nat).
  { intros res0 Heq. injection Heq as <- <-.
    exists [selectCmd].
    split; [reflexivity | split; [reflexivity | simpl; lia]]. }
  destruct r as [err | rsp]; [apply Hone |].
  destruct (length rsp <? 2)%nat; [apply Hone |].
  destruct (statusWord rsp) as [sw1 sw2].
  destruct (Byte.eqb sw1 x61); [| apply Hone].
  destruct (Transmit card (getResponseCmd sw2) w) as [r2 w2] eqn:Ht2.
  rewrite (EngineProps.bind_ok _ _ _ _ _
             (ApduProps.transmit_run card (getResponseCmd sw2)
                (mkSys w (log s ++ [ETransmit selectCmd])) r2 w2 Ht2)).
  assert (Htwo : forall (res0 : option string),
             (Ok res0,
              mkSys w2 (log (mkSys w (log s ++ [ETransmit selectCmd]))
                          ++ [ETransmit (getResponseCmd sw2)]))
             = (res, s') ->
             exists cmds,
               log s' = log s ++ map ETransmit cmds
               /\ primaryCommands (map ETransmit cmds) = [selectCmd]
               /\ (length cmds <= 2)%nat).
  { intros res0 Heq. injection Heq as <- <-.
    exists [selectCmd; getResponseCmd sw2].
    split; [cbn [log map]; now rewrite <- app_assoc |].
    split; [reflexivity | simpl; lia]. }
  destruct r2 as [err | rsp2]; [apply Htwo |].
  destruct (length rsp2 <? 2)%nat; apply Htwo.
Qed.

Lemma ReadsInOrder_trace (card : Card) (cmdl : list (byte * byte * byte))
      (s s' : Sys World) (rs : list (string + list byte)) :
  RecordSpec.ReadsInOrder card cmdl s rs s' ->
  exists cmds,
    log s' = log s ++ map ETransmit cmds
    /\ primaryCommands (map ETransmit cmds)
       = map (fun c : byte * byte * byte =>
                readBinaryCmd (fst (fst c)) (snd (fst c)) (snd c)) cmdl
    /\ (length cmds <= 2 * length cmdl)%nat.
Proof.
  induction 1 as [s | p1 p2 le rest s s1 s' r rs Hr _ (c2 & Hl2 & Hp2 & Hn2)].
  - exists []. simpl. rewrite app_nil_r. split; [reflexivity |].
    split; [reflexivity | lia].
  - destruct (readBinary_trace _ _ _ _ _ _ _ Hr) as (c1 & Hl1 & Hp1 & Hn1).
    exists (c1 ++ c2). split; [| split].
    + rewrite Hl2, Hl1, map_app. now rewrite app_assoc.
    + rewrite primary_map_app, Hp1, Hp2. reflexivity.
    + rewrite length_app. simpl length. lia.
Qed.

Lemma ChunksRead_trace (card : Card) (cmdl : list (byte * byte))
      (s s' : Sys World) (chunks : list (list byte)) :
  PhotoSpec.ChunksRead card cmdl s chunks s' ->
  exists cmds k,
    log s' = log s ++ map ETransmit cmds
    /\ primaryCommands (map ETransmit cmds)
       = RecordSpec.photoCommandBytes (firstn k cmdl)
    /\ (length cmds <= 2 * k)%nat
    /\ (k <= length cmdl)%nat
    /\ (cmdl <> [] -> (1 <= k)%nat).
Proof.
  induction 1 as [s | p1 p2 rest s s' err Hr
                 | p1 p2 rest s s1 s' data chunks Hr _
                     (c2 & k & Hl2 & Hp2 & Hn2 & Hk & _)].
  - exists [], 0%nat. simpl. rewrite app_nil_r.
    split; [reflexivity |]. split; [reflexivity |].
    split; [lia |]. split; [lia | congruence].
  - destruct (readBinary_trace _ _ _ _ _ _ _ Hr) as (c1 & Hl1 & Hp1 & Hn1).
    exists c1, 1%nat. split; [exact Hl1 |]. split; [exact Hp1 |].
    split; [lia |]. split; [simpl; lia | intros _; lia].
  - destruct (readBinary_trace _ _ _ _ _ _ _ Hr) as (c1 & Hl1 & Hp1 & Hn1).
    exists (c1 ++ c2), (S k). split; [| split; [| split; [| split]]].
    + rewrite Hl2, Hl1, map_app. now rewrite app_assoc.
    + rewrite primary_map_app, Hp1, Hp2. reflexivity.
    + rewrite length_app. lia.
    + simpl. lia.
    + intros _. lia.
Qed.

End Trace.

End TraceProps.

(** X8.  [readCard] sends its commands in a fixed order.  After its
    50 ms pause it only transmits.  Leaving the GET RESPONSE
    continuations aside (at most one follows each command), a read whose
    selection fails sends SELECT and nothing else; a read that returns a
    record sends SELECT, the eight field commands in their order, and
    then the first [k] photo commands, with 1 <= k <= 20. *)
Theorem X8_readCard_command_order
        {World Card : Type} `{PCSC World Card}
        (Windows874_Bytes : list byte -> string + list byte)
        (base64_EncodeToString : list byte -> string)
        (card : Card) (s : Sys World) :
  exists res s' cmds,
    smartcard.readCard Windows874_Bytes base64_EncodeToString card s
    = (Ok res, s')
    /\ log s' = log s ++ ESleep 50 :: map ETransmit cmds
    /\ (length cmds
        <= 2 * length (LogSpec.primaryCommands (map ETransmit cmds)))%nat
    /\ ((exists err,
           res = (None, Some err)
           /\ LogSpec.primaryCommands (map ETransmit cmds)
              = [smartcard.selectCmd])
        \/ (exists record k,
               res = (Some record, None)
               /\ (1 <= k <= 20)%nat
               /\ LogSpec.primaryCommands (map ETransmit cmds)
                  = smartcard.selectCmd
                      :: RecordSpec.fieldCommandBytes
                      ++ RecordSpec.photoCommandBytes
                           (firstn k smartcard.photoCommands))).
Proof.
  destruct (EngineProps.selectApplet_total card (RecordSpec.afterPause s))
    as (e & s1 & Hsel).
  destruct (TraceProps.selectApplet_trace _ _ _ _ Hsel) as (c1 & Hl1 & Hp1 & Hn1).
  cbn [RecordSpec.afterPause log] in Hl1.
  destruct e as [err |].
  - exists (None, Some (domain.ErrMsgUnsupportedCard +:+ ": " +:+ err)), s1, c1.
    split; [now apply EngineProps.readCard_rejected |].
    split; [rewrite Hl1; now rewrite <- app_assoc |].
    rewrite Hp1. split; [simpl; lia |]. left. eauto.
  - destruct (EngineProps.ReadsInOrder_total card RecordSpec.fieldCommands s1)
      as (rs & s9 & Hreads & Hlen).
    do 8 (destruct rs as [| ? rs]; [discriminate Hlen |]).
    destruct rs; [| discriminate Hlen].
    destruct (EngineProps.readPhotoChunks_spec card smartcard.photoCommands [] s9)
      as (chunks & s' & Hrun & Hrel).
    assert (Hphoto : smartcard.readPhoto card s9
                     = (Ok (inr (smartcard.trimPhoto (concat chunks))), s')).
    { unfold smartcard.readPhoto.
      now rewrite (EngineProps.bind_ok _ _ _ _ _ Hrun). }
    destruct (TraceProps.ReadsInOrder_trace _ _ _ _ _ Hreads)
      as (c2 & Hl2 & Hp2 & Hn2).
    destruct (TraceProps.ChunksRead_trace _ _ _ _ _ Hrel)
      as (c3 & k & Hl3 & Hp3 & Hn3 & Hk & Hk1).
    eexists _, s', (c1 ++ c2 ++ c3).
    split; [eapply EngineProps.readCard_selected; eassumption |].
    split; [rewrite Hl3, Hl2, Hl1, !map_app; now rewrite <- !app_assoc |].
    rewrite !TraceProps.primary_map_app, Hp1, Hp2, Hp3.
    split.
    + assert (Hk' : length (firstn k smartcard.photoCommands) = k)
        by (apply firstn_length_le; exact Hk).
      rewrite !length_app. unfold RecordSpec.photoCommandBytes.
      rewrite !length_map, Hk'.
      change (length RecordSpec.fieldCommands) with 8%nat in *.
      change (length [smartcard.selectCmd]) with 1%nat. lia.
    + right. eexists _, k. split; [reflexivity |].
      split; [| reflexivity].
      split; [apply Hk1; discriminate | exact Hk].
Qed.

(* ===================================================================== *)
(** * Trimming *)
(* ===================================================================== *)

Module TrimProps.

Import GoBytes.

Lemma byte_in_single (b c : byte) : byte_in b [c] = Byte.eqb b c.
Proof. unfold byte_in. simpl. apply orb_false_r. Qed.

Lemma TrimLeft_repeat (c : byte) (k : nat) (m : list byte) :
  TrimLeft (repeat c k ++ m) [c] = TrimLeft m [c].
Proof.
  induction k as [| k IH]; [reflexivity |].
  cbn [repeat app TrimLeft]. now rewrite byte_in_single, BytesProps.eqb_refl.
Qed.

Lemma TrimLeft_fixed (m : list byte) (c : byte) :
  (forall r, m <> c :: r) -> TrimLeft m [c] = m.
Proof.
  intros Hhd. destruct m as [| b m]; [reflexivity |].
  cbn [TrimLeft]. rewrite byte_in_single.
  destruct (Byte.eqb b c) eqn:E; [| reflexivity].
  apply Byte.byte_dec_bl in E. subst. now destruct (Hhd m).
Qed.

Lemma TrimRight_app_repeat (m : list byte) (c : byte) (k : nat) :
  TrimRight (m ++ repeat c k) [c] = TrimRight m [c].
Proof.
  unfold TrimRight.
  now rewrite rev_app_distr, BytesProps.rev_repeat, TrimLeft_repeat.
Qed.

Lemma TrimRight_fixed (m : list byte) (c : byte) :
  (forall r, m <> r ++ [c]) -> TrimRight m [c] = m.
Proof.
  intros Htl. unfold TrimRight. rewrite TrimLeft_fixed.
  - apply rev_involutive.
  - intros r Hr. apply (Htl (rev r)).
    rewrite <- (rev_involutive m), Hr. reflexivity.
Qed.

(** Padding with the cutset byte on either side changes nothing. *)
Lemma Trim_padding (c : byte) (a b : nat) (l : list byte) :
  Trim (repeat c a ++ l ++ repeat c b) [c] = Trim l [c].
Proof.
  unfold Trim. rewrite TrimLeft_repeat.
  destruct (BytesProps.TrimLeft_single l c) as (k & Hl & Hhd).
  rewrite Hl at 1. rewrite <- app_assoc, TrimLeft_repeat.
  destruct (TrimLeft l [c]) as [| x t] eqn:HT.
  - simpl. rewrite <- (app_nil_r (repeat c b)), TrimLeft_repeat. reflexivity.
  - rewrite TrimLeft_fixed.
    + apply TrimRight_app_repeat.
    + intros r Hr. simpl in Hr. injection Hr as -> _. now apply (Hhd t).
Qed.

(** What [Trim] returns neither starts nor ends with the cutset byte. *)
Lemma Trim_ends (s : list byte) (c : byte) :
  (forall r, Trim s [c] <> c :: r) /\ (forall r, Trim s [c] <> r ++ [c]).
Proof.
  unfold Trim.
  destruct (BytesProps.TrimLeft_single s c) as (k & _ & Hhd).
  destruct (BytesProps.TrimRight_single (TrimLeft s [c]) c) as (j & Hr & Htl).
  split; [| exact Htl].
  intros r Heq. rewrite Heq in Hr. simpl in Hr. now apply (Hhd _ Hr).
Qed.

(** [Trim] returns a part of its argument. *)
Lemma Trim_part (s : list byte) (c : byte) :
  exists k j, s = repeat c k ++ Trim s [c] ++ repeat c j.
Proof.
  unfold Trim.
  destruct (BytesProps.TrimLeft_single s c) as (k & Hs & _).
  destruct (BytesProps.TrimRight_single (TrimLeft s [c]) c) as (j & Hr & _).
  exists k, j. now rewrite <- Hr.
Qed.

End TrimProps.

(** X9.  NUL padding does not matter to [formatDate]: any number of NUL
    bytes before and after the date text gives the same result as the
    text alone. *)
Theorem X9_formatDate_ignores_nul_padding
        (data : list byte) (before after : nat) :
  smartcard.formatDate
    (string_of_list_byte (repeat x00 before ++ data ++ repeat x00 after))
  = smartcard.formatDate (string_of_list_byte data).
Proof.
  unfold smartcard.formatDate.
  rewrite !list_byte_of_string_of_list_byte, TrimProps.Trim_padding.
  reflexivity.
Qed.

(** X10.  Whatever the decoder gives, and also when it fails, the text
    returned by [decodeThaiString] is a part of the decoded (or raw)
    bytes that neither starts nor ends with a NUL byte. *)
Theorem X10_decodeThaiString_has_no_nul_at_its_ends
        (Windows874_Bytes : list byte -> string + list byte)
        (data : list byte) :
  let text :=
    list_byte_of_string (smartcard.decodeThaiString Windows874_Bytes data) in
  let bytes :=
    match Windows874_Bytes data with
    | inl _ => data
    | inr decoded => decoded
    end in
  (exists k j, bytes = repeat x00 k ++ text ++ repeat x00 j)
  /\ (forall r, text <> x00 :: r)
  /\ (forall r, text <> r ++ [x00]).
Proof.
  intros text bytes. subst text bytes. unfold smartcard.decodeThaiString.
  destruct (Windows874_Bytes data) as [err | decoded];
    rewrite list_byte_of_string_of_list_byte;
    (split; [apply TrimProps.Trim_part | apply TrimProps.Trim_ends]).
Qed.

(* ===================================================================== *)
(** * The photo, again *)
(* ===================================================================== *)

Module PhotoProps.

Import smartcard.

Lemma trimPhoto_unmarked (data : list byte) :
  ~ PhotoSpec.occursIn [xff; xd9] data ->
  trimPhoto data = GoBytes.TrimRight data [x20].
Proof.
  intros Hno. unfold trimPhoto, GoBytes.Index.
  destruct (BytesProps.Index_from_spec [xff; xd9] data 0)
    as [[-> _] | (pre & post & Hd & _)]; [lia | reflexivity |].
  exfalso. apply Hno. now exists pre, post.
Qed.

(** The marker either occurs or does not. *)
Lemma marker_decided (data : list byte) :
  PhotoSpec.occursIn [xff; xd9] data \/ ~ PhotoSpec.occursIn [xff; xd9] data.
Proof.
  destruct (BytesProps.Index_from_spec [xff; xd9] data 0)
    as [[_ Hno] | (pre & post & Hd & _)]; [lia | now right |].
  left. now exists pre, post.
Qed.

(** Two first occurrences of the marker are the same occurrence. *)
Lemma first_marker_unique (l p1 q1 p2 q2 : list byte) :
  l = p1 ++ [xff; xd9] ++ q1 ->
  l = p2 ++ [xff; xd9] ++ q2 ->
  ~ PhotoSpec.occursIn [xff; xd9] (p1 ++ [xff]) ->
  ~ PhotoSpec.occursIn [xff; xd9] (p2 ++ [xff]) ->
  p1 = p2.
Proof.
  assert (Hside : forall a b qa qb : list byte,
             a ++ [xff; xd9] ++ qa = b ++ [xff; xd9] ++ qb ->
             forall t, a = b ++ t ->
             ~ PhotoSpec.occursIn [xff; xd9] (a ++ [xff]) -> t = []).
  { intros a b qa qb Heq t -> Hno.
    rewrite <- app_assoc in Heq. apply app_inv_head in Heq.
    destruct t as [| x [| y t]]; [reflexivity | |].
    - simpl in Heq. injection Heq as _ Hbad _. discriminate Hbad.
    - simpl in Heq. injection Heq as -> -> _.
      exfalso. apply Hno. exists b, (t ++ [xff]).
      rewrite <- app_assoc. reflexivity. }
  intros H1 H2 Hn1 Hn2. rewrite H1 in H2.
  destruct (app_eq_app _ _ _ _ H2) as (t & [[Ha _] | [Hb _]]).
  - rewrite (Hside _ _ _ _ H2 t Ha Hn1) in Ha. now rewrite app_nil_r in Ha.
  - rewrite (Hside _ _ _ _ (eq_sym H2) t Hb Hn2) in Hb.
    now rewrite app_nil_r in Hb.
Qed.

End PhotoProps.

(** X11.  [trimPhoto] returns an initial part of the bytes read, and
    trimming twice is trimming once. *)
Theorem X11_trimPhoto_is_an_idempotent_prefix (data : list byte) :
  (exists rest, data = smartcard.trimPhoto data ++ rest)
  /\ smartcard.trimPhoto (smartcard.trimPhoto data) = smartcard.trimPhoto data.
Proof.
  destruct (PhotoProps.marker_decided data) as [Hocc | Hno].
  - destruct (EngineProps.trimPhoto_marker data Hocc)
      as (pre & post & Hd & Hfirst & Ht).
    split.
    + exists post. rewrite Ht, Hd. now rewrite <- app_assoc.
    + rewrite Ht.
      assert (Hocc' : PhotoSpec.occursIn [xff; xd9] (pre ++ [xff; xd9]))
        by (exists pre, []; now rewrite app_nil_r).
      destruct (EngineProps.trimPhoto_marker _ Hocc')
        as (pre2 & post2 & Hd2 & Hfirst2 & Ht2).
      rewrite Ht2. f_equal. symmetry.
      apply (PhotoProps.first_marker_unique (pre ++ [xff; xd9]) pre [] pre2 post2);
        [now rewrite app_nil_r | exact Hd2 | exact Hfirst | exact Hfirst2].
  - destruct (EngineProps.trimPhoto_no_marker data Hno) as (k & Hd & Htl).
    split; [now exists (repeat x20 k) |].
    assert (Hno' : ~ PhotoSpec.occursIn [xff; xd9] (smartcard.trimPhoto data)).
    { intros (pre & post & Hp). apply Hno. exists pre, (post ++ repeat x20 k).
      rewrite Hd at 1. rewrite Hp. now rewrite <- !app_assoc. }
    rewrite (PhotoProps.trimPhoto_unmarked _ Hno').
    now apply TrimProps.TrimRight_fixed.
Qed.

(* ===================================================================== *)
(** * Splitting on a separator byte *)
(* ===================================================================== *)

Module SplitProps.

Import GoBytes.

Lemma HasPrefix_single (b c : byte) (s : list byte) :
  HasPrefix (b :: s) [c] = Byte.eqb b c.
Proof. simpl. destruct s; apply andb_true_r. Qed.

Lemma Split_aux_no_sep (c : byte) (a : list byte) :
  forall (rest cur : list byte),
    ~ In c a ->
    Split_aux (a ++ rest) [c] 0 cur = Split_aux rest [c] 0 (rev a ++ cur).
Proof.
  induction a as [| b a IH]; intros rest cur Hnin; [reflexivity |].
  cbn [app Split_aux]. rewrite HasPrefix_single.
  rewrite BytesProps.eqb_false by (intros ->; apply Hnin; now left).
  rewrite IH by (intros Hin; apply Hnin; now right).
  cbn [rev]. now rewrite <- app_assoc.
Qed.

(** The piece before the first separator, then the pieces of the rest. *)
Lemma Split_cons (c : byte) (a r : list byte) :
  ~ In c a -> Split (a ++ c :: r) [c] = a :: Split r [c].
Proof.
  intros Hnin. unfold Split. rewrite Split_aux_no_sep by exact Hnin.
  cbn [Split_aux]. rewrite HasPrefix_single, BytesProps.eqb_refl.
  rewrite app_nil_r, rev_involutive. reflexivity.
Qed.

(** Without a separator there is one piece. *)
Lemma Split_one (c : byte) (a : list byte) :
  ~ In c a -> Split a [c] = [a].
Proof.
  intros Hnin. unfold Split.
  rewrite <- (app_nil_r a) at 1. rewrite Split_aux_no_sep by exact Hnin.
  cbn [Split_aux]. now rewrite app_nil_r, rev_involutive.
Qed.

(** [Split] never returns the empty slice. *)
Lemma Split_aux_nonempty (sep : list byte) (s : list byte) :
  forall (skip : nat) (cur : list byte), Split_aux s sep skip cur <> [].
Proof.
  induction s as [| b s IH]; intros skip cur; [discriminate |].
  cbn [Split_aux]. destruct skip; [| apply IH].
  destruct (HasPrefix (b :: s) sep); [discriminate | apply IH].
Qed.

End SplitProps.

(** X12.  The two name fields use only the first two pieces between [#]:
    a text without [#] gives no names, and a text with at least one [#]
    gives the first piece as first name and the second piece as last name,
    each without the spaces and NULs around it, whatever follows a second
    [#]. *)
Theorem X12_names_are_the_first_two_pieces (first second : list byte) :
  ~ In x23 first ->
  ~ In x23 second ->
  smartcard.splitNames (string_of_list_byte first) = None
  /\ forall tail,
      tail = [] \/ (exists rest, tail = x23 :: rest) ->
      smartcard.splitNames
        (string_of_list_byte (first ++ x23 :: second ++ tail))
      = Some (string_of_list_byte (GoBytes.Trim first [x20; x00]),
              string_of_list_byte (GoBytes.Trim second [x20; x00])).
Proof.
  intros H1 H2. unfold smartcard.splitNames.
  rewrite !list_byte_of_string_of_list_byte.
  change (list_byte_of_string "#") with [x23].
  split.
  - now rewrite SplitProps.Split_one.
  - intros tail Htail.
    rewrite !list_byte_of_string_of_list_byte.
    rewrite SplitProps.Split_cons by exact H1.
    destruct Htail as [-> | [rest ->]].
    + rewrite app_nil_r, SplitProps.Split_one by exact H2. reflexivity.
    + rewrite SplitProps.Split_cons by exact H2. reflexivity.
Qed.

(** The name field of a card, title#first#middle#last: the title lands in
    the first name and the first name in the last name. *)
Lemma X12_title_first_middle_last :
  smartcard.splitNames "Mr.#Somchai##Jaidee   " = Some ("Mr.", "Somchai").
Proof.
  assert (H1 : ~ In x23 (list_byte_of_string "Mr."))
    by (simpl; intuition discriminate).
  assert (H2 : ~ In x23 (list_byte_of_string "Somchai"))
    by (simpl; intuition discriminate).
  destruct (X12_names_are_the_first_two_pieces _ _ H1 H2) as [_ Hsome].
  exact (Hsome (list_byte_of_string "##Jaidee   ")
               (or_intror (ex_intro _ (list_byte_of_string "#Jaidee   ")
                                    eq_refl))).
Defined.

(* ===================================================================== *)
(** * The address parser *)
(* ===================================================================== *)

Module AddressProps.

Import domain GoStrings.

Lemma eqb_empty_bytes (l : list byte) :
  l <> [] -> String.eqb (string_of_list_byte l) "" = false.
Proof. destruct l; [congruence | reflexivity]. Qed.

(** [strings.Split] on [#], for a text with and without a [#]. *)
Lemma Split_hash_cons (a r : list byte) :
  ~ In x23 a ->
  Split (string_of_list_byte (a ++ x23 :: r)) "#"
  = string_of_list_byte a :: Split (string_of_list_byte r) "#".
Proof.
  intros Hnin. unfold Split, B, S_.
  rewrite !list_byte_of_string_of_list_byte.
  change (list_byte_of_string "#") with [x23].
  now rewrite SplitProps.Split_cons.
Qed.

Lemma Split_hash_one (a : list byte) :
  ~ In x23 a ->
  Split (string_of_list_byte a) "#" = [string_of_list_byte a].
Proof.
  intros Hnin. unfold Split, B, S_.
  rewrite !list_byte_of_string_of_list_byte.
  change (list_byte_of_string "#") with [x23].
  now rewrite SplitProps.Split_one.
Qed.

(** The loop over the middle parts never touches the house number. *)
Lemma parseMiddlePart_HouseNo (addr : Address) (raw : string) :
  HouseNo (parseMiddlePart addr raw) = HouseNo addr.
Proof.
  unfold parseMiddlePart.
  repeat match goal with
         | |- context [if ?b then _ else _] => destruct b
         end; reflexivity.
Qed.

Lemma fold_parseMiddlePart_HouseNo (middle : list string) :
  forall addr, HouseNo (fold_left parseMiddlePart middle addr) = HouseNo addr.
Proof.
  induction middle as [| p middle IH]; intros addr; [reflexivity |].
  simpl. now rewrite IH, parseMiddlePart_HouseNo.
Qed.

End AddressProps.

(** X13.  The house number is the text before the first [#] (the whole
    text when there is none) with the white space around it removed; no
    later part of the input changes it. *)
Theorem X13_house_number_is_the_first_part (a tail : list byte) :
  ~ In x23 a ->
  a ++ tail <> [] ->
  tail = [] \/ (exists rest, tail = x23 :: rest) ->
  exists addr,
    domain.ParseThaiAddress (string_of_list_byte (a ++ tail)) = Some addr
    /\ domain.HouseNo addr = GoStrings.TrimSpace (string_of_list_byte a).
Proof.
  intros Hnin Hne Htail. unfold domain.ParseThaiAddress.
  rewrite AddressProps.eqb_empty_bytes by exact Hne.
  assert (Hsplit : exists others,
             GoStrings.Split (string_of_list_byte (a ++ tail)) "#"
             = string_of_list_byte a :: others).
  { destruct Htail as [-> | [rest ->]].
    - exists []. rewrite app_nil_r. now apply AddressProps.Split_hash_one.
    - eexists. now apply AddressProps.Split_hash_cons. }
  destruct Hsplit as [others ->].
  cbv zeta. cbn [length Nat.eqb].
  eexists. split; [reflexivity |].
  cbn [domain.HouseNo domain.set_FullAddress].
  rewrite AddressProps.fold_parseMiddlePart_HouseNo.
  assert (Hfirst : domain.HouseNo
                     (if domain.nonEmpty (string_of_list_byte a)
                      then domain.set_HouseNo domain.Address_zero
                             (GoStrings.TrimSpace (string_of_list_byte a))
                      else domain.Address_zero)
                   = GoStrings.TrimSpace (string_of_list_byte a)).
  { unfold domain.nonEmpty.
    destruct (String.eqb_spec (string_of_list_byte a) "") as [-> | _];
      reflexivity. }
  repeat match goal with
         | |- context [if ?b then _ else _] =>
             lazymatch b with
             | domain.nonEmpty (string_of_list_byte a) => fail
             | _ => destruct b
             end
         end; exact Hfirst.
Qed.

(** An address of two parts. *)
Lemma X13_house_and_province :
  exists addr,
    domain.ParseThaiAddress " 99/1 #Bangkok" = Some addr
    /\ domain.HouseNo addr = "99/1".
Proof.
  destruct (X13_house_number_is_the_first_part
              (list_byte_of_string " 99/1 ") (list_byte_of_string "#Bangkok"))
    as (addr & Hp & Hh).
  - simpl. intuition discriminate.
  - discriminate.
  - right. now exists (list_byte_of_string "Bangkok").
  - exists addr. split; [exact Hp | exact Hh].
Defined.

(** X14.  An input without [#] is a house number and nothing else: the
    record holds the trimmed input as house number and as full address,
    and every other field is empty. *)
Theorem X14_address_without_separator (addressStr : string) :
  addressStr <> "" ->
  ~ In x23 (list_byte_of_string addressStr) ->
  domain.ParseThaiAddress addressStr
  = Some (domain.mkAddress (GoStrings.TrimSpace addressStr) "" "" "" "" "" ""
                           (GoStrings.TrimSpace addressStr)).
Proof.
  intros Hne Hnin. unfold domain.ParseThaiAddress.
  destruct (String.eqb_spec addressStr ""); [contradiction |].
  assert (Hsplit : GoStrings.Split addressStr "#" = [addressStr]).
  { rewrite <- (string_of_list_byte_of_string addressStr) at 1.
    rewrite (AddressProps.Split_hash_one _ Hnin).
    now rewrite string_of_list_byte_of_string. }
  rewrite Hsplit. cbv zeta.
  change (length [addressStr]) with 1%nat.
  change (1 =? 0)%nat with false. change (1 <? 1)%nat with false.
  change (Z.to_nat ((if (Z.of_nat 1 - 1 <? 1)%Z then Z.of_nat 1
                     else (Z.of_nat 1 - 1)%Z) - 1)) with 0%nat.
  cbn [skipn firstn fold_left].
  assert (Hfirst : domain.nonEmpty addressStr = true).
  { unfold domain.nonEmpty.
    destruct (String.eqb_spec addressStr ""); [contradiction | reflexivity]. }
  rewrite !Hfirst.
  unfold domain.buildFullAddress, domain.nonEmpty, domain.appendIf.
  cbn [domain.set_HouseNo domain.set_FullAddress domain.Address_zero
       domain.HouseNo domain.Moo domain.Soi domain.Street
       domain.Subdistrict domain.District domain.Province
       domain.FullAddress].
  change (negb ("" =? "")%string) with false. cbv iota.
  destruct (String.eqb_spec (GoStrings.TrimSpace addressStr) "") as [E | _].
  - rewrite E. reflexivity.
  - cbn [negb app]. unfold GoStrings.Join. 
    reflexivity.
Qed.

(** A lone house number with blanks around it. *)
Lemma X14_lone_house_number :
  domain.ParseThaiAddress "  12/3 "
  = Some (domain.mkAddress "12/3" "" "" "" "" "" "" "12/3").
Proof.
  apply (X14_address_without_separator "  12/3 ").
  - discriminate.
  - simpl. intuition discriminate.
Defined.

(* ===================================================================== *)
(** * The broadcast hub *)
(* ===================================================================== *)

Module HubProps.

Import websocket.

Lemma hasRoom_insert_ne (h : Hub) (p c : loc) (pc : Client) :
  p <> c ->
  hasRoom h c ->
  hasRoom (mkHub (clients h) (<[p := pc]> (heap h))) c.
Proof.
  intros Hne (cl & Hc & Hopen & Hlen). exists cl.
  cbn [heap]. rewrite lookup_insert_ne by exact Hne. auto.
Qed.

Lemma NoDup_app_disjoint (l1 l2 : list loc) (x : loc) :
  List.NoDup (l1 ++ l2) -> In x l1 -> In x l2 -> False.
Proof.
  induction l1 as [| a l1 IH]; intros Hnd H1 H2; [destruct H1 |].
  cbn [app] in Hnd. apply List.NoDup_cons_iff in Hnd as [Ha Hnd].
  destruct H1 as [-> | H1].
  - apply Ha, in_or_app. now right.
  - now apply IH.
Qed.

(** When every client of the snapshot has room, each gets one copy and
    the loop comes back to the [select]. *)
Lemma fanOut_delivers (message : list byte) (order : list loc) :
  forall h : Hub,
    List.NoDup order ->
    (forall c, In c order -> hasRoom h c) ->
    exists h',
      fanOut h message order = Running h'
      /\ clients h' = clients h
      /\ (forall c cl, In c order -> heap h !! c = Some cl ->
            heap h' !! c
            = Some (mkClient (send cl ++ [message]) false (closed cl)))
      /\ (forall c, ~ In c order -> heap h' !! c = heap h !! c).
Proof.
  induction order as [| p order IH]; intros h Hnd Hroom.
  - exists h. split; [reflexivity |]. split; [reflexivity |].
    split; [intros c cl [] | reflexivity].
  - apply List.NoDup_cons_iff in Hnd as [Hp Hnd].
    destruct (Hroom p (or_introl eq_refl)) as (pc & Hpc & Hopen & Hlen).
    cbn [fanOut]. rewrite Hpc, Hopen.
    destruct (Nat.ltb_spec (length (send pc)) sendCap) as [_ | Hge]; [| lia].
    set (h1 := mkHub (clients h)
                 (<[p := mkClient (send pc ++ [message]) false (closed pc)]>
                    (heap h))).
    destruct (IH h1 Hnd) as (h' & Hrun & Hcl & Hin & Hout).
    { intros c Hc. apply hasRoom_insert_ne; [| apply Hroom; now right].
      intros ->. contradiction. }
    exists h'. split; [exact Hrun |]. split; [exact Hcl |]. split.
    + intros c cl [<- | Hc] Hlk.
      * rewrite (Hout p Hp). subst h1. cbn [heap].
        rewrite lookup_insert_eq. congruence.
      * apply Hin; [exact Hc |]. subst h1. cbn [heap].
        rewrite lookup_insert_ne; [exact Hlk |]. intros ->. contradiction.
    + intros c Hc. rewrite Hout by (intros Hin'; apply Hc; now right).
      subst h1. cbn [heap]. apply lookup_insert_ne.
      intros ->. apply Hc. now left.
Qed.

(** The first client of the snapshot whose queue is full, and whose
    [closed] flag is not yet set, stops [Run] for ever: the clients
    before it have their copy, the full client is still in the map with
    its channel open, and the rest of the heap is untouched. *)
Lemma fanOut_blocks (message : list byte) (pre : list loc) :
  forall (h : Hub) (c : loc) (post : list loc) (cl : Client),
    List.NoDup (pre ++ c :: post) ->
    (forall p, In p pre -> hasRoom h p) ->
    heap h !! c = Some cl ->
    sendClosed cl = false ->
    closed cl = false ->
    (sendCap <= length (send cl))%nat ->
    exists h',
      fanOut h message (pre ++ c :: post) = Blocked h'
      /\ clients h' = clients h
      /\ heap h' !! c = Some (mkClient (send cl) false true)
      /\ (forall p pc, In p pre -> heap h !! p = Some pc ->
            heap h' !! p
            = Some (mkClient (send pc ++ [message]) false (closed pc)))
      /\ (forall q, ~ In q (pre ++ [c]) -> heap h' !! q = heap h !! q).
Proof.
  induction pre as [| p pre IH]; intros h c post cl Hnd Hroom Hc Hopen Hflag Hfull.
  - cbn [app fanOut]. rewrite Hc, Hopen, Hflag.
    destruct (Nat.ltb_spec (length (send cl)) sendCap) as [Hlt | _]; [lia |].
    eexists. split; [reflexivity |]. cbn [clients heap].
    split; [reflexivity |]. split; [apply lookup_insert_eq |].
    split; [intros p pc [] |].
    intros q Hq. apply lookup_insert_ne. intros ->. apply Hq. now left.
  - cbn [app] in Hnd. apply List.NoDup_cons_iff in Hnd as [Hp Hnd].
    destruct (Hroom p (or_introl eq_refl)) as (pc & Hpc & Hpopen & Hlen).
    cbn [app fanOut]. rewrite Hpc, Hpopen.
    destruct (Nat.ltb_spec (length (send pc)) sendCap) as [_ | Hge]; [| lia].
    set (h1 := mkHub (clients h)
                 (<[p := mkClient (send pc ++ [message]) false (closed pc)]>
                    (heap h))).
    assert (Hpc_ne : p <> c).
    { intros ->. apply Hp, in_or_app. right. now left. }
    destruct (IH h1 c post cl Hnd) as (h' & Hrun & Hcl & Hc' & Hin & Hout).
    { intros x Hx. apply hasRoom_insert_ne; [| apply Hroom; now right].
      intros ->. apply Hp, in_or_app. now left. }
    { subst h1. cbn [heap]. now rewrite lookup_insert_ne. }
    { exact Hopen. }
    { exact Hflag. }
    { exact Hfull. }
    exists h'. split; [exact Hrun |]. split; [exact Hcl |].
    split; [exact Hc' |]. split.
    + intros x xc [<- | Hx] Hlk.
      * rewrite Hout.
        -- subst h1. cbn [heap]. rewrite lookup_insert_eq. congruence.
        -- intros Hin'. apply in_app_or in Hin' as [Hin' | [<- | []]].
           ++ apply Hp, in_or_app. now left.
           ++ now apply Hpc_ne.
      * apply Hin; [exact Hx |]. subst h1. cbn [heap].
        rewrite lookup_insert_ne; [exact Hlk |].
        intros ->. apply Hp, in_or_app. now left.
    + intros q Hq. rewrite Hout.
      * subst h1. cbn [heap]. apply lookup_insert_ne.
        intros ->. apply Hq. now left.
      * intros Hin'. apply Hq. now right.
Qed.

End HubProps.

(** C7 (what the code does).  Take any hub, any iteration order of its
    clients, and in it the first client whose queue is full (its [closed]
    flag not set).  The broadcast does not unregister that client: [Run]
    stops for ever inside [unregisterClient].  The client is still in the
    map, its channel is still open and holds what it held; the clients
    before it in the order have their copy; the clients after it get
    nothing. *)
Theorem C7_full_queue_blocks_the_hub
        (h : websocket.Hub) (message : list byte)
        (pre post : list websocket.loc) (c : websocket.loc)
        (cl : websocket.Client) :
  websocket.iterationOrder h (pre ++ c :: post) ->
  (forall p, In p pre -> websocket.hasRoom h p) ->
  websocket.heap h !! c = Some cl ->
  websocket.sendClosed cl = false ->
  websocket.closed cl = false ->
  (websocket.sendCap <= length (websocket.send cl))%nat ->
  exists h',
    websocket.runBroadcast h message (pre ++ c :: post) = websocket.Blocked h'
    /\ is_Some (websocket.clients h' !! c)
    /\ websocket.heap h' !! c
       = Some (websocket.mkClient (websocket.send cl) false true)
    /\ (forall q, In q post -> websocket.heap h' !! q = websocket.heap h !! q)
    /\ (forall p pc,
          In p pre -> websocket.heap h !! p = Some pc ->
          websocket.heap h' !! p
          = Some (websocket.mkClient (websocket.send pc ++ [message]) false
                                     (websocket.closed pc))).
Proof.
  intros [Hnd Hkeys] Hroom Hc Hopen Hflag Hfull.
  destruct (HubProps.fanOut_blocks message pre h c post cl
              Hnd Hroom Hc Hopen Hflag Hfull)
    as (h' & Hrun & Hcl & Hc' & Hin & Hout).
  exists h'. split; [exact Hrun |]. split; [| split; [exact Hc' | split]].
  - rewrite Hcl. apply Hkeys, in_or_app. right. now left.
  - intros q Hq. apply Hout. intros Hin'.
    apply in_app_or in Hin' as [Hin' | [<- | []]].
    + apply (HubProps.NoDup_app_disjoint _ _ q Hnd Hin'). now right.
    + apply List.NoDup_remove_2 in Hnd. apply Hnd, in_or_app. now right.
  - exact Hin.
Qed.

(** Two registered subscribers, the first with 256 undelivered messages,
    the second idle: the broadcast leaves the hub blocked, the first
    still registered with its channel open, the second without the
    message. *)
Lemma C7_two_subscribers_one_full :
  let full := websocket.mkClient (repeat [x7b; x7d] 256) false false in
  let idle := websocket.mkClient [] false false in
  let h := websocket.mkHub (<[0%nat := true]> (<[1%nat := true]> ∅))
                           (<[0%nat := full]> (<[1%nat := idle]> ∅)) in
  exists h',
    websocket.runBroadcast h [x7b; x7d] [0%nat; 1%nat] = websocket.Blocked h'
    /\ is_Some (websocket.clients h' !! 0%nat)
    /\ websocket.heap h' !! 0%nat
       = Some (websocket.mkClient (repeat [x7b; x7d] 256) false true)
    /\ websocket.heap h' !! 1%nat = Some idle.
Proof.
  intros full idle h.
  destruct (C7_full_queue_blocks_the_hub h [x7b; x7d] [] [1%nat] 0%nat full)
    as (h' & Hrun & Hreg & Hc & Hpost & _).
  - split.
    + repeat constructor; simpl; intuition discriminate.
    + intros c. cbn [websocket.clients h]. split.
      * intros [<- | [<- | []]]; eexists; reflexivity.
      * rewrite !lookup_insert_is_Some, lookup_empty. simpl.
        intros [<- | [_ [<- | [_ [x Hx]]]]]; [now left | right; now left |].
        discriminate Hx.
  - intros p [].
  - reflexivity.
  - reflexivity.
  - reflexivity.
  - unfold websocket.sendCap. cbn [websocket.send full].
    rewrite repeat_length. apply le_n.
  - exists h'. split; [exact Hrun |]. split; [exact Hreg |].
    split; [exact Hc |].
    exact (eq_trans (Hpost 1%nat (or_introl eq_refl)) eq_refl).
Defined.

(** For comparison: with room in both queues both subscribers get the
    message and [Run] goes on. *)
Example broadcast_with_room :
  let idle := websocket.mkClient [] false false in
  let got := websocket.mkClient [[x7b; x7d]] false false in
  websocket.runBroadcast
    (websocket.mkHub (<[0%nat := true]> (<[1%nat := true]> ∅))
                     (<[0%nat := idle]> (<[1%nat := idle]> ∅)))
    [x7b; x7d] [1%nat; 0%nat]
  = websocket.Running
      (websocket.mkHub (<[0%nat := true]> (<[1%nat := true]> ∅))
                       (<[0%nat := got]> (<[1%nat := got]> ∅))).
Proof. vm_compute. reflexivity. Qed.

(* ===================================================================== *)
(** * The hub through a sequence of requests *)
(* ===================================================================== *)

Module HubMore.

Import websocket.

(** Writing a client with an open channel keeps open channels open. *)
Lemma openAt_insert (h : Hub) (cls : gmap loc bool) (p c : loc) (pc : Client) :
  sendClosed pc = false ->
  openAt h c ->
  openAt (mkHub cls (<[p := pc]> (heap h))) c.
Proof.
  intros Hpc (cl & Hc & Ho). cbv [openAt]. cbn [heap].
  destruct (decide (p = c)) as [-> | Hne].
  - exists pc. now rewrite lookup_insert_eq.
  - exists cl. now rewrite lookup_insert_ne.
Qed.

(** The loop of a broadcast over clients with open channels comes back
    to the [select] or stops in [unregisterClient]; it closes nothing. *)
Lemma fanOut_safe (message : list byte) (order : list loc) :
  forall h : Hub,
    (forall c, In c order -> openAt h c) ->
    exists h',
      (fanOut h message order = Running h'
       \/ fanOut h message order = Blocked h')
      /\ clients h' = clients h
      /\ (forall c, openAt h c -> openAt h' c).
Proof.
  induction order as [| p order IH]; intros h Hopen.
  - exists h. split; [now left |]. split; [reflexivity | auto].
  - destruct (Hopen p (or_introl eq_refl)) as (pc & Hpc & Ho).
    cbn [fanOut]. rewrite Hpc, Ho.
    destruct (length (send pc) <? sendCap)%nat.
    + destruct (IH (mkHub (clients h)
                      (<[p := mkClient (send pc ++ [message]) false
                                       (closed pc)]> (heap h))))
        as (h' & Hrun & Hcl & Hop).
      { intros c Hc. apply openAt_insert; [reflexivity |].
        apply Hopen. now right. }
      exists h'. split; [exact Hrun |]. split; [exact Hcl |].
      intros c Hc. apply Hop. now apply openAt_insert.
    + destruct (closed pc).
      * apply IH. intros c Hc. apply Hopen. now right.
      * eexists. split; [right; reflexivity |]. split; [reflexivity |].
        intros c Hc. now apply openAt_insert.
Qed.

(** One request to a well-formed hub. *)
Lemma handle_safe (h : Hub) (req : Request) :
  wellFormed h ->
  admissible h req ->
  exists h',
    (handle h req = Running h' \/ handle h req = Blocked h')
    /\ wellFormed h'.
Proof.
  intros WF Hadm. destruct req as [| c | message order | c | c]; cbn [handle].
  - (* register *)
    eexists. split; [left; reflexivity |].
    intros c Hreg. cbn [clients heap] in *.
    set (new := fresh (dom (heap h))) in *.
    destruct (decide (c = new)) as [-> | Hne].
    + eexists. rewrite lookup_insert_eq. split; reflexivity.
    + rewrite lookup_insert_ne in Hreg by congruence.
      destruct (WF c Hreg) as (cl & Hc & Ho).
      exists cl. rewrite lookup_insert_ne by congruence. auto.
  - (* unregister *)
    unfold runUnregister.
    destruct (clients h !! c) as [b |] eqn:Hreg.
    + destruct (WF c (ex_intro _ b Hreg)) as (cl & Hc & Ho).
      rewrite Hc, Ho. eexists. split; [left; reflexivity |].
      intros c' [b' Hb']. cbn [clients heap] in *.
      apply lookup_delete_Some in Hb' as [Hne Hb'].
      destruct (WF c' (ex_intro _ b' Hb')) as (cl' & Hc' & Ho').
      exists cl'. rewrite lookup_insert_ne by exact Hne. auto.
    + exists h. split; [now left | exact WF].
  - (* broadcast *)
    destruct Hadm as [_ Hin]. unfold runBroadcast.
    destruct (fanOut_safe message order h) as (h' & Hrun & Hcl & Hop).
    { intros c Hc. apply WF, Hin, Hc. }
    exists h'. split; [exact Hrun |].
    intros c Hreg. rewrite Hcl in Hreg. apply Hop, WF, Hreg.
  - (* the flag is set *)
    eexists. split; [left; reflexivity |].
    unfold markClosed. destruct (heap h !! c) as [cl |] eqn:Hc; [| exact WF].
    intros c' Hreg. cbn [clients heap] in *.
    destruct (WF c' Hreg) as (cl' & Hc' & Ho').
    destruct (decide (c' = c)) as [-> | Hne].
    + eexists. rewrite lookup_insert_eq. split; [reflexivity |].
      cbn [sendClosed]. congruence.
    + exists cl'. rewrite lookup_insert_ne by congruence. auto.
  - (* a message is taken from a queue *)
    eexists. split; [left; reflexivity |].
    unfold writePumpReceive.
    destruct (heap h !! c) as [cl |] eqn:Hc; [| exact WF].
    intros c' Hreg. cbn [clients heap] in *.
    destruct (WF c' Hreg) as (cl' & Hc' & Ho').
    destruct (decide (c' = c)) as [-> | Hne].
    + eexists. rewrite lookup_insert_eq. split; [reflexivity |].
      cbn [sendClosed]. congruence.
    + exists cl'. rewrite lookup_insert_ne by congruence. auto.
Qed.

Lemma serve_safe (reqs : list Request) :
  forall h : Hub,
    wellFormed h ->
    admissibleRun h reqs ->
    exists h',
      (serve h reqs = Running h' \/ serve h reqs = Blocked h')
      /\ wellFormed h'.
Proof.
  induction reqs as [| req rest IH]; intros h WF Hadm.
  - exists h. split; [now left | exact WF].
  - destruct Hadm as [Hreq Hrest].
    destruct (handle_safe h req WF Hreq) as (h1 & [Hrun | Hrun] & WF1);
      cbn [serve]; rewrite Hrun in *.
    + now apply IH.
    + exists h1. split; [now right | exact WF1].
Qed.

Lemma wellFormed_NewHub : wellFormed NewHub.
Proof. intros c [b Hb]. cbn in Hb. now rewrite lookup_empty in Hb. Qed.

(** A queue cannot both have room and be full. *)
Lemma room_or_full (h : Hub) (c : loc) :
  hasRoom h c -> leavingFull h c -> False.
Proof.
  intros (cl & Hc & _ & Hlt) (cl' & Hc' & _ & _ & Hge).
  rewrite Hc in Hc'. injection Hc' as <-. lia.
Qed.

Lemma leavingFull_insert_ne (h : Hub) (p c : loc) (pc : Client) :
  p <> c ->
  leavingFull h c ->
  leavingFull (mkHub (clients h) (<[p := pc]> (heap h))) c.
Proof.
  intros Hne (cl & Hc & Hrest). exists cl.
  cbn [heap]. rewrite lookup_insert_ne by exact Hne. auto.
Qed.

(** The loop of a broadcast when every client of the snapshot has room or
    is full and on its way out: the former get one copy, the latter are
    skipped, and the loop comes back to the [select]. *)
Lemma fanOut_mixed (message : list byte) (order : list loc) :
  forall h : Hub,
    List.NoDup order ->
    (forall c, In c order -> hasRoom h c \/ leavingFull h c) ->
    exists h',
      fanOut h message order = Running h'
      /\ clients h' = clients h
      /\ (forall c cl, In c order -> hasRoom h c -> heap h !! c = Some cl ->
            heap h' !! c
            = Some (mkClient (send cl ++ [message]) false (closed cl)))
      /\ (forall c, ~ In c order \/ leavingFull h c ->
            heap h' !! c = heap h !! c).
Proof.
  induction order as [| p order IH]; intros h Hnd Hall.
  - exists h. split; [reflexivity |]. split; [reflexivity |].
    split; [intros c cl [] | reflexivity].
  - apply List.NoDup_cons_iff in Hnd as [Hp Hnd].
    destruct (Hall p (or_introl eq_refl)) as [Hroom | Hfull].
    + destruct Hroom as (pc & Hpc & Hopen & Hlen).
      assert (Hroom : hasRoom h p) by (exists pc; auto).
      cbn [fanOut]. rewrite Hpc, Hopen.
      destruct (Nat.ltb_spec (length (send pc)) sendCap) as [_ | Hge]; [| lia].
      set (h1 := mkHub (clients h)
                   (<[p := mkClient (send pc ++ [message]) false (closed pc)]>
                      (heap h))).
      assert (Hother : forall c, c <> p -> heap h1 !! c = heap h !! c).
      { intros c Hc. subst h1. cbn [heap]. apply lookup_insert_ne. congruence. }
      destruct (IH h1 Hnd) as (h' & Hrun & Hcl & Hin & Hout).
      { intros c Hc.
        assert (Hne : p <> c) by (intros ->; contradiction).
        destruct (Hall c (or_intror Hc)) as [Hr | Hf].
        - left. now apply HubProps.hasRoom_insert_ne.
        - right. now apply leavingFull_insert_ne. }
      exists h'. split; [exact Hrun |]. split; [exact Hcl |]. split.
      * intros c cl [<- | Hc] Hr Hlk.
        -- rewrite (Hout p (or_introl Hp)). subst h1. cbn [heap].
           rewrite lookup_insert_eq. congruence.
        -- assert (Hne : p <> c) by (intros ->; contradiction).
           apply Hin; [exact Hc | now apply HubProps.hasRoom_insert_ne |].
           rewrite Hother by congruence. exact Hlk.
      * intros c [Hc | Hf].
        -- rewrite Hout by (left; intros Hin'; apply Hc; now right).
           apply Hother. intros ->. apply Hc. now left.
        -- assert (Hne : p <> c).
           { intros ->. exact (room_or_full h c Hroom Hf). }
           rewrite Hout by (right; now apply leavingFull_insert_ne).
           apply Hother. congruence.
    + pose proof Hfull as (pc & Hpc & Hopen & Hflag & Hge).
      cbn [fanOut]. rewrite Hpc, Hopen, Hflag.
      destruct (Nat.ltb_spec (length (send pc)) sendCap) as [Hlt | _]; [lia |].
      destruct (IH h Hnd) as (h' & Hrun & Hcl & Hin & Hout).
      { intros c Hc. apply Hall. now right. }
      exists h'. split; [exact Hrun |]. split; [exact Hcl |]. split.
      * intros c cl [<- | Hc] Hr Hlk.
        -- destruct (room_or_full h p Hr Hfull).
        -- now apply Hin.
      * intros c [Hc | Hf].
        -- apply Hout. left. intros Hin'. apply Hc. now right.
        -- apply Hout. now right.
Qed.

Lemma Hub_eq (h1 h2 : Hub) :
  clients h1 = clients h2 ->
  (forall c, heap h1 !! c = heap h2 !! c) ->
  h1 = h2.
Proof.
  destruct h1 as [c1 p1], h2 as [c2 p2]. cbn. intros -> Hp.
  f_equal. now apply map_eq.
Qed.

End HubMore.

(** X16.  The hub never panics.  From [NewHub], through any sequence of
    registrations, unregistrations, broadcasts in any iteration order,
    settings of the [closed] flag and receptions by the write pumps, [Run]
    never closes a channel twice and never sends on a closed channel: it
    is at its [select] or stopped in [unregisterClient], and every client
    in the map has an open channel. *)
Theorem X16_the_hub_never_panics (reqs : list websocket.Request) :
  websocket.admissibleRun websocket.NewHub reqs ->
  websocket.isCrashed (websocket.serve websocket.NewHub reqs) = false
  /\ websocket.wellFormed
       (websocket.hubOf (websocket.serve websocket.NewHub reqs)).
Proof.
  intros Hadm.
  destruct (HubMore.serve_safe reqs websocket.NewHub
              HubMore.wellFormed_NewHub Hadm) as (h' & [-> | ->] & WF);
    split; [reflexivity | exact WF | reflexivity | exact WF].
Qed.

(** A client registers, gets a message, leaves, and a second one
    registers. *)
Lemma X16_a_short_session :
  websocket.isCrashed
    (websocket.serve websocket.NewHub
       [websocket.Register;
        websocket.Broadcast [x7b; x7d] [0%nat];
        websocket.SetClosed 0%nat;
        websocket.Unregister 0%nat;
        websocket.Register]) = false
  /\ websocket.wellFormed
       (websocket.hubOf
          (websocket.serve websocket.NewHub
             [websocket.Register;
              websocket.Broadcast [x7b; x7d] [0%nat];
              websocket.SetClosed 0%nat;
              websocket.Unregister 0%nat;
              websocket.Register])).
Proof.
  apply X16_the_hub_never_panics.
  set (registered := <[0%nat := true]> (∅ : gmap websocket.loc bool)).
  set (h1 := websocket.mkHub registered
               (<[0%nat := websocket.mkClient [] false false]> ∅)).
  set (h2 := websocket.mkHub registered
               (<[0%nat := websocket.mkClient [[x7b; x7d]] false false]> ∅)).
  set (h3 := websocket.mkHub registered
               (<[0%nat := websocket.mkClient [[x7b; x7d]] false true]> ∅)).
  set (h4 := websocket.mkHub ∅
               (<[0%nat := websocket.mkClient [[x7b; x7d]] true true]> ∅)).
  assert (H1 : websocket.handle websocket.NewHub websocket.Register
               = websocket.Running h1) by (vm_compute; reflexivity).
  assert (H2 : websocket.handle h1 (websocket.Broadcast [x7b; x7d] [0%nat])
               = websocket.Running h2) by (vm_compute; reflexivity).
  assert (H3 : websocket.handle h2 (websocket.SetClosed 0%nat)
               = websocket.Running h3) by (vm_compute; reflexivity).
  assert (H4 : websocket.handle h3 (websocket.Unregister 0%nat)
               = websocket.Running h4) by (vm_compute; reflexivity).
  cbn [websocket.admissibleRun websocket.admissible].
  rewrite H1. split; [exact I |].
  rewrite H2. split.
  { split; [repeat constructor; simpl; intuition discriminate |].
    intros c. cbn [websocket.clients h1]. subst registered. split.
    - intros [<- | []]. eexists. reflexivity.
    - rewrite lookup_insert_is_Some, lookup_empty.
      intros [<- | [_ [x Hx]]]; [now left | discriminate Hx]. }
  rewrite H3. split; [eexists; reflexivity |].
  rewrite H4. split; [eexists; reflexivity |].
  split; [exact I |].
  destruct (websocket.handle h4 websocket.Register); exact I.
Defined.

(** X17.  When every client in the map has room in its queue, or has a
    full queue and its [closed] flag set, a broadcast does not depend on
    the order in which the map is iterated: [Run] comes back to its
    [select], each client with room has the message at the end of its
    queue, and nothing else has changed. *)
Theorem X17_broadcast_is_independent_of_the_iteration_order
        (h : websocket.Hub) (message : list byte)
        (order1 order2 : list websocket.loc) :
  websocket.iterationOrder h order1 ->
  websocket.iterationOrder h order2 ->
  (forall c, is_Some (websocket.clients h !! c) ->
             websocket.hasRoom h c \/ websocket.leavingFull h c) ->
  exists h',
    websocket.runBroadcast h message order1 = websocket.Running h'
    /\ websocket.runBroadcast h message order2 = websocket.Running h'
    /\ websocket.clients h' = websocket.clients h
    /\ (forall c cl,
           is_Some (websocket.clients h !! c) ->
           websocket.hasRoom h c ->
           websocket.heap h !! c = Some cl ->
           websocket.heap h' !! c
           = Some (websocket.mkClient (websocket.send cl ++ [message]) false
                                      (websocket.closed cl)))
    /\ (forall c,
           ~ is_Some (websocket.clients h !! c) \/ websocket.leavingFull h c ->
           websocket.heap h' !! c = websocket.heap h !! c).
Proof.
  intros [Hnd1 Hin1] [Hnd2 Hin2] Hall. unfold websocket.runBroadcast.
  destruct (HubMore.fanOut_mixed message order1 h Hnd1)
    as (h1 & Hrun1 & Hcl1 & Hgot1 & Hkept1).
  { intros c Hc. apply Hall, Hin1, Hc. }
  destruct (HubMore.fanOut_mixed message order2 h Hnd2)
    as (h2 & Hrun2 & Hcl2 & Hgot2 & Hkept2).
  { intros c Hc. apply Hall, Hin2, Hc. }
  assert (Heq : h2 = h1).
  { apply HubMore.Hub_eq; [congruence |]. intros c.
    destruct (decide (is_Some (websocket.clients h !! c))) as [Hreg | Hno].
    - destruct (Hall c Hreg) as [Hroom | Hfull].
      + pose proof Hroom as (cl & Hc & _).
        rewrite (Hgot1 c cl (proj2 (Hin1 c) Hreg) Hroom Hc).
        apply (Hgot2 c cl (proj2 (Hin2 c) Hreg) Hroom Hc).
      + rewrite (Hkept1 c (or_intror Hfull)).
        apply (Hkept2 c (or_intror Hfull)).
    - rewrite Hkept1 by (left; intros Hc; apply Hno, Hin1, Hc).
      apply Hkept2. left. intros Hc. apply Hno, Hin2, Hc. }
  exists h1. split; [exact Hrun1 |]. split; [now rewrite <- Heq |].
  split; [exact Hcl1 |]. split.
  - intros c cl Hreg Hroom Hc. apply Hgot1; [apply Hin1, Hreg | exact Hroom | exact Hc].
  - intros c [Hno | Hfull].
    + apply Hkept1. left. intros Hc. apply Hno, Hin1, Hc.
    + apply Hkept1. now right.
Qed.

(** Two clients, one idle and one full and leaving, in both orders. *)
Lemma X17_idle_and_leaving :
  let idle := websocket.mkClient [] false false in
  let leaving := websocket.mkClient (repeat [x7b; x7d] 256) false true in
  let h := websocket.mkHub (<[0%nat := true]> (<[1%nat := true]> ∅))
                           (<[0%nat := idle]> (<[1%nat := leaving]> ∅)) in
  exists h',
    websocket.runBroadcast h [x7b; x7d] [0%nat; 1%nat] = websocket.Running h'
    /\ websocket.runBroadcast h [x7b; x7d] [1%nat; 0%nat] = websocket.Running h'
    /\ websocket.heap h' !! 0%nat
       = Some (websocket.mkClient [[x7b; x7d]] false false)
    /\ websocket.heap h' !! 1%nat = Some leaving.
Proof.
  intros idle leaving h.
  assert (Hreg : forall c, is_Some (websocket.clients h !! c)
                           <-> c = 0%nat \/ c = 1%nat).
  { intros c. cbn [websocket.clients h].
    rewrite !lookup_insert_is_Some, lookup_empty. split.
    - intros [<- | [_ [<- | [_ [x Hx]]]]]; [now left | now right |].
      discriminate Hx.
    - intros [-> | ->]; [now left |].
      right. split; [discriminate | now left]. }
  assert (Hidle : websocket.hasRoom h 0%nat).
  { exists idle. split; [reflexivity |]. split; [reflexivity |].
    unfold websocket.sendCap. cbn [websocket.send idle length]. lia. }
  assert (Hleaving : websocket.leavingFull h 1%nat).
  { exists leaving. split; [reflexivity |]. split; [reflexivity |].
    split; [reflexivity |].
    unfold websocket.sendCap. cbn [websocket.send leaving].
    rewrite repeat_length. apply le_n. }
  destruct (X17_broadcast_is_independent_of_the_iteration_order
              h [x7b; x7d] [0%nat; 1%nat] [1%nat; 0%nat])
    as (h' & Hrun1 & Hrun2 & _ & Hgot & Hkept).
  - split; [repeat constructor; simpl; intuition discriminate |].
    intros c. rewrite Hreg. simpl. intuition.
  - split; [repeat constructor; simpl; intuition discriminate |].
    intros c. rewrite Hreg. simpl. intuition.
  - intros c Hc. apply Hreg in Hc as [-> | ->]; [now left | now right].
  - exists h'. split; [exact Hrun1 |]. split; [exact Hrun2 |]. split.
    + apply (Hgot 0%nat idle); [apply Hreg; now left | exact Hidle |].
      reflexivity.
    + exact (eq_trans (Hkept 1%nat (or_intror Hleaving)) eq_refl).
Defined.

(** X18.  Each queue keeps the order of the broadcasts.  When every
    client in the map has room for them all, a sequence of broadcasts, in
    whatever iteration orders, leaves [Run] at its [select] and has added
    the messages to each client's queue in the order they were sent. *)
Theorem X18_queues_keep_the_order_of_the_broadcasts
        (jobs : list (list byte * list websocket.loc)) (h : websocket.Hub) :
  (forall j, In j jobs -> websocket.iterationOrder h (snd j)) ->
  (forall c, is_Some (websocket.clients h !! c) ->
             exists cl,
               websocket.heap h !! c = Some cl
               /\ websocket.sendClosed cl = false
               /\ (length (websocket.send cl) + length jobs
                   <= websocket.sendCap)%nat) ->
  exists h',
    websocket.serve h
      (map (fun j => websocket.Broadcast (fst j) (snd j)) jobs)
    = websocket.Running h'
    /\ websocket.clients h' = websocket.clients h
    /\ (forall c cl,
           is_Some (websocket.clients h !! c) ->
           websocket.heap h !! c = Some cl ->
           websocket.heap h' !! c
           = Some (websocket.mkClient (websocket.send cl ++ map fst jobs)
                                      false (websocket.closed cl))).
Proof.
  revert h. induction jobs as [| [message order] rest IH]; intros h Hord Hroom.
  - exists h. split; [reflexivity |]. split; [reflexivity |].
    intros c cl Hreg Hc. destruct (Hroom c Hreg) as (cl' & Hc' & Ho & _).
    rewrite Hc in Hc'. injection Hc' as <-.
    cbn [map]. rewrite app_nil_r, Hc. destruct cl. cbn in Ho. now subst.
  - destruct (Hord (message, order) (or_introl eq_refl)) as [Hnd Hin].
    cbn [snd] in Hnd, Hin.
    destruct (HubProps.fanOut_delivers message order h Hnd)
      as (h1 & Hrun & Hcl & Hgot & Hkept).
    { intros c Hc. destruct (Hroom c (proj1 (Hin c) Hc)) as (cl & Hlk & Ho & Hlen).
      exists cl. split; [exact Hlk |]. split; [exact Ho |].
      cbn [length] in Hlen. lia. }
    destruct (IH h1) as (h' & Hserve & Hcl' & Hall).
    { intros j Hj. destruct (Hord j (or_intror Hj)) as [Hnd' Hin'].
      split; [exact Hnd' |]. intros c. rewrite Hcl. apply Hin'. }
    { intros c Hreg. rewrite Hcl in Hreg.
      destruct (Hroom c Hreg) as (cl & Hlk & Ho & Hlen).
      eexists. split; [apply (Hgot c cl); [apply Hin, Hreg | exact Hlk] |].
      split; [reflexivity |].
      cbn [websocket.send length] in *. rewrite length_app. cbn [length]. lia. }
    exists h'. cbn [map websocket.serve websocket.handle fst snd].
    unfold websocket.runBroadcast. rewrite Hrun.
    split; [exact Hserve |]. split; [congruence |].
    intros c cl Hreg Hlk.
    assert (Hreg1 : is_Some (websocket.clients h1 !! c)) by now rewrite Hcl.
    rewrite (Hall c _ Hreg1 (Hgot c cl (proj2 (Hin c) Hreg) Hlk)).
    cbn [websocket.send websocket.closed]. now rewrite <- app_assoc.
Qed.

(** One client, two broadcasts. *)
Lemma X18_two_messages_in_order :
  let h := websocket.mkHub (<[0%nat := true]> ∅)
             (<[0%nat := websocket.mkClient [] false false]> ∅) in
  exists h',
    websocket.serve h [websocket.Broadcast [x31] [0%nat];
                       websocket.Broadcast [x32] [0%nat]]
    = websocket.Running h'
    /\ websocket.heap h' !! 0%nat
       = Some (websocket.mkClient [[x31]; [x32]] false false).
Proof.
  intros h.
  assert (Hreg : forall c, is_Some (websocket.clients h !! c) <-> c = 0%nat).
  { intros c. cbn [websocket.clients h].
    rewrite lookup_insert_is_Some, lookup_empty. split.
    - intros [<- | [_ [x Hx]]]; [reflexivity | discriminate Hx].
    - intros ->. now left. }
  destruct (X18_queues_keep_the_order_of_the_broadcasts
              [([x31], [0%nat]); ([x32], [0%nat])] h)
    as (h' & Hserve & _ & Hall).
  - intros j [<- | [<- | []]];
      (split; [repeat constructor; simpl; intuition discriminate |]);
      intros c; rewrite Hreg; simpl; intuition.
  - intros c Hc. apply Hreg in Hc as ->.
    eexists. split; [reflexivity |]. split; [reflexivity |].
    unfold websocket.sendCap. cbn. lia.
  - exists h'. split; [exact Hserve |].
    apply (Hall 0%nat (websocket.mkClient [] false false));
      [apply Hreg; reflexivity | reflexivity].
Defined.

(** X19.  Registering a client and letting it leave gives back the map of
    clients as it was.  The client is new, it is in the map after the
    registration, and after [unregisterClient] it is out of the map with
    its channel closed and no other client touched; a second call of
    [unregisterClient] does nothing, so the channel is closed once. *)
Theorem X19_a_client_that_leaves_is_forgotten (h : websocket.Hub) :
  websocket.wellFormed h ->
  exists client h1 h2,
    websocket.RegisterClient h = (client, websocket.Running h1)
    /\ websocket.heap h !! client = None
    /\ is_Some (websocket.clients h1 !! client)
    /\ websocket.unregisterClient h1 client = websocket.Running h2
    /\ websocket.clients h2 = websocket.clients h
    /\ websocket.heap h2 !! client
       = Some (websocket.mkClient [] true true)
    /\ (forall c, c <> client ->
                  websocket.heap h2 !! c = websocket.heap h !! c)
    /\ websocket.unregisterClient h2 client = websocket.Running h2.
Proof.
  intros WF.
  set (client := fresh (dom (websocket.heap h))).
  assert (Hnew : websocket.heap h !! client = None).
  { apply not_elem_of_dom. apply is_fresh. }
  assert (Hout : websocket.clients h !! client = None).
  { destruct (websocket.clients h !! client) as [b |] eqn:Hreg; [| reflexivity].
    destruct (WF client (ex_intro _ b Hreg)) as (cl & Hc & _). congruence. }
  exists client. eexists. eexists.
  split; [reflexivity |]. split; [exact Hnew |].
  split; [cbn [websocket.clients]; rewrite lookup_insert_eq; eexists; reflexivity |].
  unfold websocket.unregisterClient. cbn [websocket.heap websocket.clients].
  rewrite lookup_insert_eq. cbn [websocket.closed websocket.send websocket.sendClosed].
  unfold websocket.runUnregister. cbn [websocket.heap websocket.clients].
  rewrite !lookup_insert_eq. cbn [websocket.sendClosed websocket.send websocket.closed].
  split; [reflexivity |].
  cbn [websocket.heap websocket.clients].
  split; [now apply delete_insert_id |].
  rewrite lookup_insert_eq.
  split; [reflexivity |]. split.
  - intros c Hne. change (fresh (dom (websocket.heap h))) with client.
    rewrite !lookup_insert_ne by congruence. reflexivity.
  - reflexivity.
Qed.

(** The first client of a new hub. *)
Lemma X19_first_client :
  exists client h1 h2,
    websocket.RegisterClient websocket.NewHub = (client, websocket.Running h1)
    /\ websocket.heap websocket.NewHub !! client = None
    /\ is_Some (websocket.clients h1 !! client)
    /\ websocket.unregisterClient h1 client = websocket.Running h2
    /\ websocket.clients h2 = websocket.clients websocket.NewHub
    /\ websocket.heap h2 !! client
       = Some (websocket.mkClient [] true true)
    /\ (forall c, c <> client ->
                  websocket.heap h2 !! c = websocket.heap websocket.NewHub !! c)
    /\ websocket.unregisterClient h2 client = websocket.Running h2.
Proof.
  apply (X19_a_client_that_leaves_is_forgotten websocket.NewHub).
  intros c [b Hb]. cbn in Hb. rewrite lookup_empty in Hb. discriminate Hb.
Defined.
(* ===================================================================== *)
(** * The reader monitor *)
(* ===================================================================== *)

Module SlotProps.

Import LogSpec.

Lemma countDisconnect_app (a b : list Event) :
  countDisconnect (a ++ b) = (countDisconnect a + countDisconnect b)%nat.
Proof.
  induction a as [| e a IH]; [reflexivity |].
  destruct e; simpl; rewrite IH; reflexivity.
Qed.

Lemma countConnect_app (a b : list Event) :
  countConnect (a ++ b) = (countConnect a + countConnect b)%nat.
Proof.
  induction a as [| e a IH]; [reflexivity |].
  destruct e; simpl; rewrite IH; reflexivity.
Qed.

Lemma traffic_app (a b : list Event) :
  forallb isTraffic a = true -> forallb isTraffic b = true ->
  forallb isTraffic (a ++ b) = true.
Proof. intros Ha Hb. rewrite forallb_app, Ha, Hb. reflexivity. Qed.

Lemma traffic_transmits (cmds : list (list byte)) :
  forallb isTraffic (map ETransmit cmds) = true.
Proof. induction cmds as [| c cmds IH]; [reflexivity | exact IH]. Qed.

(** Pauses and commands open no session, end none and hand nothing to
    the hub. *)
Lemma traffic_counts (d : list Event) :
  forallb isTraffic d = true ->
  countConnect d = 0%nat /\ countDisconnect d = 0%nat
  /\ countReset d = 0%nat /\ broadcastsOf d = [].
Proof.
  induction d as [| e d IH]; [easy |].
  destruct e; simpl; try discriminate; exact IH.
Qed.

Lemma traffic_inPoll (d : list Event) :
  forallb isTraffic d = true -> forallb inPoll d = true.
Proof.
  induction d as [| e d IH]; [reflexivity |].
  destruct e; simpl; try discriminate; exact IH.
Qed.

Lemma inPoll_app (a b : list Event) :
  forallb inPoll a = true -> forallb inPoll b = true ->
  forallb inPoll (a ++ b) = true.
Proof. intros Ha Hb. rewrite forallb_app, Ha, Hb. reflexivity. Qed.

(** The events of a slot in two stretches of the log. *)
Lemma slotEventsFrom_app (rd : string) (a b : list Event) :
  forall on,
    slotEventsFrom rd on (a ++ b)
    = slotEventsFrom rd on a ++ slotEventsFrom rd (slotOpen rd on a) b.
Proof.
  induction a as [| e a IH]; intros on; [reflexivity |].
  destruct e as [ms | | r | cmd | d | m]; cbn [app slotEventsFrom slotOpen].
  - destruct on; cbn [app]; now rewrite IH.
  - now rewrite IH.
  - destruct (String.eqb r rd); cbn [app]; now rewrite IH.
  - destruct on; cbn [app]; now rewrite IH.
  - destruct on; cbn [app]; now rewrite IH.
  - destruct on; cbn [app]; now rewrite IH.
Qed.

Lemma slotOpen_app (rd : string) (a b : list Event) :
  forall on, slotOpen rd on (a ++ b) = slotOpen rd (slotOpen rd on a) b.
Proof.
  induction a as [| e a IH]; intros on; [reflexivity |].
  destruct e; cbn [app slotOpen]; apply IH.
Qed.

(** Outside a poll of the slot, events that are no connection are not
    the slot's. *)
Lemma slot_off_inPoll (rd : string) (d : list Event) :
  forallb inPoll d = true ->
  slotEventsFrom rd false d = [] /\ slotOpen rd false d = false.
Proof.
  induction d as [| e d IH]; [easy |].
  destruct e; cbn [forallb inPoll andb slotEventsFrom slotOpen];
    try discriminate; exact IH.
Qed.

(** Inside a poll of the slot, pauses and commands are the slot's. *)
Lemma slot_on_traffic (rd : string) (d : list Event) :
  forallb isTraffic d = true ->
  slotEventsFrom rd true d = d /\ slotOpen rd true d = true.
Proof.
  induction d as [| e d IH]; [easy |].
  destruct e; cbn [forallb isTraffic andb slotEventsFrom slotOpen];
    try discriminate; intros Hd; destruct (IH Hd) as [-> ->]; easy.
Qed.

End SlotProps.

Module MonitorProps.

Import domain smartcard LogSpec.

Section Traffic.

Context {World Card : Type} `{PCSC World Card}.
Variable Windows874_Bytes : list byte -> string + list byte.
Variable base64_EncodeToString : list byte -> string.

(** A property of the world that card traffic keeps. *)
Variable Inv : World -> Prop.
Hypothesis Inv_Transmit :
  forall (c : Card) (cmd : list byte) (w : World),
    Inv w -> Inv (snd (Transmit c cmd w)).

Local Abbreviation readCard :=
  (smartcard.readCard Windows874_Bytes base64_EncodeToString).
Local Abbreviation retryLoop :=
  (smartcard.retryLoop Windows874_Bytes base64_EncodeToString).

Lemma transmit_effect (card : Card) (cmd : list byte) (s : Sys World) :
  exists r w,
    transmit card cmd s = (Ok r, mkSys w (log s ++ [ETransmit cmd]))
    /\ (Inv (world s) -> Inv w).
Proof using Inv_Transmit.
  unfold transmit.
  pose proof (Inv_Transmit card cmd (world s)) as Hinv.
  destruct (Transmit card cmd (world s)) as [r w].
  exists r, w. split; [reflexivity | exact Hinv].
Qed.

Lemma readBinary_effect (card : Card) (p1 p2 le : byte) (s s' : Sys World)
      (res : Result (string + list byte)) :
  readBinary card p1 p2 le s = (res, s') ->
  exists d, log s' = log s ++ d /\ quiet d
            /\ (Inv (world s) -> Inv (world s')).
Proof using Inv_Transmit.
  unfold readBinary.
  destruct (transmit_effect card (readBinaryCmd p1 p2 le) s)
    as (r & w & Ht & Hinv).
  rewrite (EngineProps.bind_ok _ _ _ _ _ Ht).
  assert (Hone : forall (res0 : string + list byte),
             (Ok res0, mkSys w (log s ++ [ETransmit (readBinaryCmd p1 p2 le)]))
             = (res, s') ->
             exists d, log s' = log s ++ d /\ quiet d
                       /\ (Inv (world s) -> Inv (world s'))).
  { intros res0 Heq. injection Heq as <- <-.
    eexists. split; [reflexivity | split; [| exact Hinv]].
    apply LogProps.quiet_transmit, LogProps.readBinaryCmd_not_select. }
  destruct r as [err | rsp]; [apply Hone |].
  destruct (length rsp <? 2)%nat; [apply Hone |].
  destruct (statusWord rsp) as [sw1 sw2].
  destruct (Byte.eqb sw1 x61); [| apply Hone].
  destruct (transmit_effect card (getResponseCmd sw2)
              (mkSys w (log s ++ [ETransmit (readBinaryCmd p1 p2 le)])))
    as (r2 & w2 & Ht2 & Hinv2).
  rewrite (EngineProps.bind_ok _ _ _ _ _ Ht2).
  assert (Htwo : forall (res0 : string + list byte),
             (Ok res0,
              mkSys w2 (log (mkSys w (log s ++ [ETransmit (readBinaryCmd p1 p2 le)]))
                          ++ [ETransmit (getResponseCmd sw2)]))
             = (res, s') ->
             exists d, log s' = log s ++ d /\ quiet d
                       /\ (Inv (world s) -> Inv (world s'))).
  { intros res0 Heq. injection Heq as <- <-.
    exists ([ETransmit (readBinaryCmd p1 p2 le)]
              ++ [ETransmit (getResponseCmd sw2)]).
    split; [cbn [log]; now rewrite <- app_assoc | split].
    - apply LogProps.quiet_app; apply LogProps.quiet_transmit;
        [apply LogProps.readBinaryCmd_not_select
        | apply LogProps.getResponseCmd_not_select].
    - intros Hw. apply Hinv2, Hinv, Hw. }
  destruct r2 as [err | rsp2]; [apply Htwo |].
  destruct (length rsp2 <? 2)%nat; apply Htwo.
Qed.

Lemma selectApplet_effect (card : Card) (s s' : Sys World)
      (res : Result (option string)) :
  selectApplet card s = (res, s') ->
  exists d, log s' = log s ++ ETransmit selectCmd :: d /\ quiet d
            /\ (Inv (world s) -> Inv (world s')).
Proof using Inv_Transmit.
  unfold selectApplet.
  destruct (transmit_effect card selectCmd s) as (r & w & Ht & Hinv).
  rewrite (EngineProps.bind_ok _ _ _ _ _ Ht).
  assert (Hone : forall (res0 : option string),
             (Ok res0, mkSys w (log s ++ [ETransmit selectCmd])) = (res, s') ->
             exists d, log s' = log s ++ ETransmit selectCmd :: d /\ quiet d
                       /\ (Inv (world s) -> Inv (world s'))).
  { intros res0 Heq. injection Heq as <- <-.
    exists []. split; [reflexivity | split; [apply LogProps.quiet_nil | exact Hinv]]. }
  destruct r as [err | rsp]; [apply Hone |].
  destruct (length rsp <? 2)%nat; [apply Hone |].
  destruct (statusWord rsp) as [sw1 sw2].
  destruct (Byte.eqb sw1 x61); [| apply Hone].
  destruct (transmit_effect card (getResponseCmd sw2)
              (mkSys w (log s ++ [ETransmit selectCmd])))
    as (r2 & w2 & Ht2 & Hinv2).
  rewrite (EngineProps.bind_ok _ _ _ _ _ Ht2).
  assert (Htwo : forall (res0 : option string),
             (Ok res0,
              mkSys w2 (log (mkSys w (log s ++ [ETransmit selectCmd]))
                          ++ [ETransmit (getResponseCmd sw2)]))
             = (res, s') ->
             exists d, log s' = log s ++ ETransmit selectCmd :: d /\ quiet d
                       /\ (Inv (world s) -> Inv (world s'))).
  { intros res0 Heq. injection Heq as <- <-.
    exists [ETransmit (getResponseCmd sw2)].
    split; [cbn [log]; now rewrite <- app_assoc | split].
    - apply LogProps.quiet_transmit, LogProps.getResponseCmd_not_select.
    - intros Hw. apply Hinv2, Hinv, Hw. }
  destruct r2 as [err | rsp2]; [apply Htwo |].
  destruct (length rsp2 <? 2)%nat; apply Htwo.
Qed.

Lemma ReadsInOrder_effect (card : Card) (cmds : list (byte * byte * byte))
      (s s' : Sys World) (rs : list (string + list byte)) :
  RecordSpec.ReadsInOrder card cmds s rs s' ->
  exists d, log s' = log s ++ d /\ quiet d
            /\ (Inv (world s) -> Inv (world s')).
Proof using Inv_Transmit.
  induction 1 as [s | p1 p2 le rest s s1 s' r rs Hr _ (d2 & Hl2 & Hq2 & Hi2)].
  - exists []. rewrite app_nil_r.
    split; [reflexivity | split; [apply LogProps.quiet_nil | tauto]].
  - destruct (readBinary_effect _ _ _ _ _ _ _ Hr) as (d1 & Hl1 & Hq1 & Hi1).
    exists (d1 ++ d2). split; [| split].
    + now rewrite Hl2, Hl1, app_assoc.
    + now apply LogProps.quiet_app.
    + tauto.
Qed.

Lemma ChunksRead_effect (card : Card) (cmds : list (byte * byte))
      (s s' : Sys World) (chunks : list (list byte)) :
  PhotoSpec.ChunksRead card cmds s chunks s' ->
  exists d, log s' = log s ++ d /\ quiet d
            /\ (Inv (world s) -> Inv (world s')).
Proof using Inv_Transmit.
  induction 1 as [s | p1 p2 rest s s' err Hr
                 | p1 p2 rest s s1 s' data chunks Hr _ (d2 & Hl2 & Hq2 & Hi2)].
  - exists []. rewrite app_nil_r.
    split; [reflexivity | split; [apply LogProps.quiet_nil | exact (fun x => x)]].
  - exact (readBinary_effect _ _ _ _ _ _ _ Hr).
  - destruct (readBinary_effect _ _ _ _ _ _ _ Hr) as (d1 & Hl1 & Hq1 & Hi1).
    exists (d1 ++ d2). split; [| split].
    + now rewrite Hl2, Hl1, app_assoc.
    + now apply LogProps.quiet_app.
    + exact (fun x => Hi2 (Hi1 x)).
Qed.

(** What one call of [readCard] does: a pause, one SELECT, quiet traffic;
    and it returns either a record or the wrapped selection error. *)
Lemma readCard_effect (card : Card) (s : Sys World) :
  exists res s' d,
    readCard card s = (Ok res, s')
    /\ log s' = log s ++ ESleep 50 :: ETransmit selectCmd :: d
    /\ quiet d
    /\ (Inv (world s) -> Inv (world s'))
    /\ ((exists record, res = (Some record, None))
        \/ (exists err,
               res = (None, Some (ErrMsgUnsupportedCard +:+ ": " +:+ err)))).
Proof using Inv_Transmit Windows874_Bytes base64_EncodeToString.
  destruct (EngineProps.selectApplet_total card (RecordSpec.afterPause s))
    as (e & s1 & Hsel).
  destruct (selectApplet_effect _ _ _ _ Hsel) as (d1 & Hl1 & Hq1 & Hi1).
  cbn [RecordSpec.afterPause log world] in Hl1, Hi1.
  destruct e as [err |].
  - exists (None, Some (ErrMsgUnsupportedCard +:+ ": " +:+ err)), s1, d1.
    split; [now apply EngineProps.readCard_rejected |].
    split; [rewrite Hl1; now rewrite <- app_assoc |].
    split; [exact Hq1 | split; [exact Hi1 | right; eauto]].
  - destruct (EngineProps.ReadsInOrder_total card RecordSpec.fieldCommands s1)
      as (rs & s9 & Hreads & Hlen).
    do 8 (destruct rs as [| ? rs]; [discriminate Hlen |]).
    destruct rs; [| discriminate Hlen].
    destruct (EngineProps.readPhoto_total card s9) as (photo & s' & Hphoto).
    destruct (ReadsInOrder_effect _ _ _ _ _ Hreads) as (d2 & Hl2 & Hq2 & Hi2).
    destruct (EngineProps.readPhotoChunks_spec card photoCommands [] s9)
      as (chunks & s'' & Hrun & Hrel).
    assert (s'' = s') as ->.
    { unfold readPhoto in Hphoto.
      rewrite (EngineProps.bind_ok _ _ _ _ _ Hrun) in Hphoto.
      now injection Hphoto. }
    destruct (ChunksRead_effect _ _ _ _ _ Hrel) as (d3 & Hl3 & Hq3 & Hi3).
    eexists _, s', (d1 ++ d2 ++ d3).
    split; [eapply EngineProps.readCard_selected; eassumption |].
    split; [| split; [| split]].
    + rewrite Hl3, Hl2, Hl1. rewrite <- !app_assoc. reflexivity.
    + repeat apply LogProps.quiet_app; assumption.
    + tauto.
    + left. eauto.
Qed.

(** The error of [readCard] is never one of the two texts that the retry
    loop compares it with. *)
Lemma wrapped_not_applet_missing (retry : Z) (err : string) :
  (retry <? 2)
  && (String.eqb (ErrMsgUnsupportedCard +:+ ": " +:+ err) "applet not found"
      || String.eqb (ErrMsgUnsupportedCard +:+ ": " +:+ err)
                    "select applet failed: SW=6A82")
  = false.
Proof. cbn. apply andb_false_r. Qed.

(** The wrapped selection error is reported with code 1003. *)
Lemma wrapped_is_read_failed (err : string) :
  main.errorResponseFor (ErrMsgUnsupportedCard +:+ ": " +:+ err)
  = mkErrorResponse ErrCodeReadFailed ErrMsgReadFailed.
Proof. reflexivity. Qed.

Lemma getState_insert (ls : gmap string bool) (rd : string) (b : bool) :
  getState (<[rd := b]> ls) rd = b.
Proof. unfold getState. now rewrite lookup_insert_eq. Qed.

Lemma getState_empty (rd : string) : getState ∅ rd = false.
Proof. unfold getState. now rewrite lookup_empty. Qed.

Lemma getState_other (ls ls' : gmap string bool) (rd : string) :
  ls' !! rd = ls !! rd -> getState ls' rd = getState ls rd.
Proof. unfold getState. now intros ->. Qed.

Lemma lookup_other_insert (ls : gmap string bool) (rd rd' : string) (b : bool) :
  rd' <> rd -> <[rd := b]> ls !! rd' = ls !! rd'.
Proof. intros Hne. apply lookup_insert_ne. congruence. Qed.

(** *** One read and the attempts of the amended claim *)

Local Abbreviation attempts :=
  (RetrySpec.attempts Windows874_Bytes base64_EncodeToString).

(** One call of [readCard]: it pauses and transmits and does nothing
    else, selects once, and returns a record or the wrapped selection
    error. *)
Lemma readCard_run (card : Card) (s : Sys World) :
  exists res s' d,
    readCard card s = (Ok res, s')
    /\ log s' = log s ++ d
    /\ forallb isTraffic d = true
    /\ countSelect d = 1%nat
    /\ countSleep 100 d = 0%nat
    /\ (Inv (world s) -> Inv (world s'))
    /\ ((exists record, res = (Some record, None))
        \/ (exists err,
               res = (None, Some (ErrMsgUnsupportedCard +:+ ": " +:+ err)))).
Proof using Inv_Transmit Windows874_Bytes base64_EncodeToString.
  destruct (readCard_effect card s)
    as (res & s' & d0 & Hrc & Hl & (Hb & Hs & Hp & Hr) & Hi & Hshape).
  exists res, s', (ESleep 50 :: ETransmit selectCmd :: d0).
  split; [exact Hrc |]. split; [exact Hl |]. split; [| split; [| split]].
  - destruct (EngineProps.selectApplet_total card (RecordSpec.afterPause s))
      as (e & s1 & Hsel).
    destruct (TraceProps.selectApplet_trace _ _ _ _ Hsel) as (c1 & Hl1 & _).
    cbn [RecordSpec.afterPause log] in Hl1.
    assert (Htr : exists cmds, log s' = log s ++ ESleep 50 :: map ETransmit cmds).
    { destruct e as [err |].
      - exists c1.
        pose proof (EngineProps.readCard_rejected Windows874_Bytes
                      base64_EncodeToString card s s1 err Hsel) as Hrc'.
        rewrite Hrc in Hrc'. injection Hrc' as _ ->.
        rewrite Hl1. now rewrite <- app_assoc.
      - destruct (EngineProps.ReadsInOrder_total card RecordSpec.fieldCommands s1)
          as (rs & s9 & Hreads & Hlen).
        do 8 (destruct rs as [| ? rs]; [discriminate Hlen |]).
        destruct rs; [| discriminate Hlen].
        destruct (EngineProps.readPhotoChunks_spec card photoCommands [] s9)
          as (chunks & sP & Hrun & Hrel).
        assert (Hphoto : readPhoto card s9
                         = (Ok (inr (trimPhoto (concat chunks))), sP)).
        { unfold readPhoto. now rewrite (EngineProps.bind_ok _ _ _ _ _ Hrun). }
        destruct (TraceProps.ReadsInOrder_trace _ _ _ _ _ Hreads)
          as (c2 & Hl2 & _).
        destruct (TraceProps.ChunksRead_trace _ _ _ _ _ Hrel)
          as (c3 & k & Hl3 & _).
        pose proof (EngineProps.readCard_selected Windows874_Bytes
                      base64_EncodeToString card s s1 s9 sP _ _ _ _ _ _ _ _ _
                      Hsel Hreads Hphoto) as Hrc'.
        rewrite Hrc in Hrc'. injection Hrc' as _ ->.
        exists (c1 ++ c2 ++ c3).
        rewrite Hl3, Hl2, Hl1, !map_app. now rewrite <- !app_assoc. }
    destruct Htr as (cmds & Htr). rewrite Hl in Htr.
    apply app_inv_head in Htr. rewrite Htr.
    exact (SlotProps.traffic_transmits cmds).
  - change (ESleep 50 :: ETransmit selectCmd :: d0)
      with ([ESleep 50; ETransmit selectCmd] ++ d0).
    rewrite LogProps.countSelect_app, Hs. reflexivity.
  - change (ESleep 50 :: ETransmit selectCmd :: d0)
      with ([ESleep 50; ETransmit selectCmd] ++ d0).
    rewrite LogProps.countSleep_app, Hp. reflexivity.
  - split; [exact Hi | exact Hshape].
Qed.

(** The attempts of the amended claim always come to an end: with a
    record after fewer than [n] failures, or with the last error after
    [n] failures; each failure costs one selection and one pause of
    100 ms. *)
Lemma attempts_run (n : nat) (card : Card) :
  forall s : Sys World,
  exists errs res s' d,
    attempts n card s = (Ok (errs, res), s')
    /\ log s' = log s ++ d
    /\ forallb isTraffic d = true
    /\ countSleep 100 d = length errs
    /\ (Inv (world s) -> Inv (world s'))
    /\ Forall RetrySpec.wrapped errs
    /\ ((n = 0%nat /\ errs = [] /\ res = (None, None) /\ d = [])
        \/ (exists record,
               res = (Some record, None)
               /\ (length errs < n)%nat
               /\ countSelect d = (length errs + 1)%nat)
        \/ (exists err front,
               res = (None, Some (ErrMsgUnsupportedCard +:+ ": " +:+ err))
               /\ errs = front ++ [ErrMsgUnsupportedCard +:+ ": " +:+ err]
               /\ length errs = n
               /\ (0 < n)%nat
               /\ countSelect d = n)).
Proof using Inv_Transmit Windows874_Bytes base64_EncodeToString.
  induction n as [| n IH]; intros s.
  - exists [], (None, None), s, []. rewrite app_nil_r.
    split; [reflexivity |]. split; [reflexivity |].
    split; [reflexivity |]. split; [reflexivity |].
    split; [exact (fun x => x) |]. split; [constructor | left; auto].
  - destruct (readCard_run card s)
      as (res1 & s1 & d1 & Hrc & Hl1 & Ht1 & Hs1 & Hp1 & Hi1 & Hshape).
    cbn [RetrySpec.attempts]. rewrite (EngineProps.bind_ok _ _ _ _ _ Hrc).
    destruct Hshape as [[record ->] | [err ->]]; cbn [snd].
    + exists [], (Some record, None), s1, d1.
      split; [reflexivity |]. split; [exact Hl1 |].
      split; [exact Ht1 |]. split; [exact Hp1 |].
      split; [exact Hi1 |]. split; [constructor |].
      right; left. exists record. cbn [length].
      split; [reflexivity |]. split; [lia | exact Hs1].
    + rewrite (EngineProps.bind_ok (sleep 100) _ s1 tt
                 (mkSys (world s1) (log s1 ++ [ESleep 100]))) by reflexivity.
      assert (Hw : RetrySpec.wrapped (ErrMsgUnsupportedCard +:+ ": " +:+ err))
        by (exists err; reflexivity).
      destruct n as [| n'].
      * exists [ErrMsgUnsupportedCard +:+ ": " +:+ err],
               (None, Some (ErrMsgUnsupportedCard +:+ ": " +:+ err)),
               (mkSys (world s1) (log s1 ++ [ESleep 100])),
               (d1 ++ [ESleep 100]).
        split; [reflexivity |].
        split; [cbn [log]; rewrite Hl1; now rewrite <- app_assoc |].
        split; [now apply SlotProps.traffic_app |].
        rewrite LogProps.countSleep_app, LogProps.countSelect_app, Hp1, Hs1.
        split; [reflexivity |]. split; [exact Hi1 |].
        split; [constructor; [exact Hw | constructor] |].
        right; right. exists err, [].
        split; [reflexivity |]. split; [reflexivity |].
        split; [reflexivity |]. split; [lia | reflexivity].
      * destruct (IH (mkSys (world s1) (log s1 ++ [ESleep 100])))
          as (errs2 & res2 & s2 & d2 & Hrun & Hl2 & Ht2 & Hp2 & Hi2 & Hw2
              & Hcases).
        cbn [log world] in Hl2, Hi2.
        rewrite (EngineProps.bind_ok _ _ _ _ _ Hrun). cbn [fst snd].
        exists ((ErrMsgUnsupportedCard +:+ ": " +:+ err) :: errs2), res2, s2,
               (d1 ++ [ESleep 100] ++ d2).
        split; [reflexivity |].
        split; [rewrite Hl2, Hl1; now rewrite <- !app_assoc |].
        split; [apply SlotProps.traffic_app;
                [exact Ht1 | apply SlotProps.traffic_app; [reflexivity | exact Ht2]] |].
        rewrite !LogProps.countSleep_app, !LogProps.countSelect_app,
                Hp1, Hs1, Hp2.
        change (countSleep 100 [ESleep 100]) with 1%nat.
        change (countSelect [ESleep 100]) with 0%nat.
        split; [reflexivity |].
        split; [exact (fun x => Hi2 (Hi1 x)) |].
        split; [constructor; assumption |].
        destruct Hcases as [(Hn & _) | [(record & -> & Hlen & Hsel)
                                       | (err' & front & -> & Hfront & Hlen
                                          & _ & Hsel)]].
        -- discriminate Hn.
        -- right; left. exists record. cbn [length].
           split; [reflexivity |]. split; [lia |]. rewrite Hsel. lia.
        -- right; right.
           exists err', ((ErrMsgUnsupportedCard +:+ ": " +:+ err) :: front).
           cbn [length].
           split; [reflexivity |]. split; [now rewrite Hfront |].
           split; [lia |]. split; [lia |]. rewrite Hsel. lia.
Qed.

(** The retry loop of the monitor does what the amended claim says. *)
Lemma retryLoop_attempts (retries : list Z) (reader : string) (card : Card) :
  forall (cd : option ThaiIdCard) (re : option string) (s s' : Sys World)
         (errs : list string) (res : option ThaiIdCard * option string),
    retries <> [] ->
    attempts (length retries) card s = (Ok (errs, res), s') ->
    retryLoop retries reader card cd re s
    = (Ok (Some card, fst res, snd res), s').
Proof using Inv_Transmit Windows874_Bytes base64_EncodeToString.
  induction retries as [| retry rest IH]; intros cd re s s' errs res Hne Hat;
    [congruence |].
  destruct (readCard_run card s)
    as (res1 & s1 & d1 & Hrc & _ & _ & _ & _ & _ & Hshape).
  cbn [length RetrySpec.attempts] in Hat.
  rewrite (EngineProps.bind_ok _ _ _ _ _ Hrc) in Hat.
  cbn [smartcard.retryLoop]. rewrite (EngineProps.bind_ok _ _ _ _ _ Hrc).
  destruct Hshape as [[record ->] | [err ->]]; cbn [snd] in Hat.
  - unfold ret in Hat. injection Hat as _ <- <-. reflexivity.
  - cbv beta iota. rewrite wrapped_not_applet_missing.
    rewrite (EngineProps.bind_ok (sleep 100) _ s1 tt
               (mkSys (world s1) (log s1 ++ [ESleep 100]))) in Hat
      by reflexivity.
    rewrite (EngineProps.bind_ok (sleep 100) _ s1 tt
               (mkSys (world s1) (log s1 ++ [ESleep 100]))) by reflexivity.
    destruct rest as [| retry' rest'].
    + cbn [length] in Hat. unfold ret in Hat. injection Hat as _ <- <-.
      reflexivity.
    + cbn [length] in Hat.
      destruct (attempts_run (S (length rest')) card
                  (mkSys (world s1) (log s1 ++ [ESleep 100])))
        as (errs2 & res2 & s2 & d2 & Hrun & _).
      rewrite (EngineProps.bind_ok _ _ _ _ _ Hrun) in Hat.
      unfold ret in Hat. cbn [fst snd] in Hat. injection Hat as _ <- <-.
      apply (IH _ _ _ _ errs2 res2); [discriminate | exact Hrun].
Qed.

End Traffic.

End MonitorProps.

(* ===================================================================== *)
(** * The polls of the monitor with the handlers of [main] *)
(* ===================================================================== *)

Module PollProps.

Import domain smartcard LogSpec.

Section Poll.

Context {World Card : Type} `{PCSC World Card} `{HubLink World}.
Variable Windows874_Bytes : list byte -> string + list byte.
Variable base64_EncodeToString : list byte -> string.

Local Abbreviation attempts :=
  (RetrySpec.attempts Windows874_Bytes base64_EncodeToString).
Local Abbreviation pollReader :=
  (smartcard.pollReader Windows874_Bytes base64_EncodeToString main.reader).
Local Abbreviation pollReaders :=
  (smartcard.pollReaders Windows874_Bytes base64_EncodeToString main.reader).
Local Abbreviation monitorTick :=
  (smartcard.monitorTick Windows874_Bytes base64_EncodeToString main.reader).
Local Abbreviation monitorTicks :=
  (fun n => smartcard.monitorTicks Windows874_Bytes base64_EncodeToString n
              main.reader).

Lemma bind_stuck {A B} (m : M World A) (f : A -> M World B) s s' :
  m s = (Stuck, s') -> bind m f s = (Stuck, s').
Proof. intros Hm. unfold bind. now rewrite Hm. Qed.

(** The hand-over of the insertion handler. *)
Lemma onCardInserted_run (cd : option ThaiIdCard) (re : option string)
      (m : WebSocketMessage) (s : Sys World) :
  insertionMessage cd re = Some m ->
  main.onCardInserted cd re s
  = match Deliver m (world s) with
    | Some w => (Ok tt, mkSys w (log s ++ [EBroadcast m]))
    | None => (Stuck, s)
    end.
Proof.
  unfold insertionMessage, main.onCardInserted.
  destruct re as [msg |]; [| destruct cd as [record |]];
    intros Hm; [| | discriminate Hm]; injection Hm as <-; reflexivity.
Qed.

(** What a read of one to three attempts makes the handler send. *)
Lemma insertionMessage_read (res : option ThaiIdCard * option string) :
  (exists record, res = (Some record, None))
  \/ (exists err, res = (None, Some (ErrMsgUnsupportedCard +:+ ": " +:+ err))) ->
  exists m,
    insertionMessage (fst res) (snd res) = Some m
    /\ insertedOrReadFailed m.
Proof.
  intros [[record ->] | [err ->]]; eexists; (split; [reflexivity |]).
  - left. eauto.
  - right. reflexivity.
Qed.

Lemma insertedOrReadFailed_monitorMessage (m : WebSocketMessage) :
  insertedOrReadFailed m -> monitorMessage m.
Proof.
  intros [Hm | Hm]; [left; exact Hm | right; right; right; exact Hm].
Qed.

(** The card is there and was not: the read with its attempts, the
    hand-over of its message, and the release of the session.  When
    [Run] does not take the message the poll never ends, and the session
    stays open. *)
Lemma poll_first (ls : gmap string bool) (rd : string) (s s1 : Sys World)
      (card : Card) (w0 : World) (errs : list string)
      (res : option ThaiIdCard * option string) :
  Connect rd (world s) = (inr card, w0) ->
  getState ls rd = false ->
  attempts 3 card (mkSys w0 (log s ++ [EConnect rd])) = (Ok (errs, res), s1) ->
  exists m,
    insertionMessage (fst res) (snd res) = Some m
    /\ insertedOrReadFailed m
    /\ pollReader ls rd s
       = match Deliver m (world s1) with
         | Some w2 =>
             (Ok (<[rd := true]> ls),
              mkSys (Disconnect card LeaveCard w2)
                    (log s1 ++ [EBroadcast m; EDisconnect LeaveCard]))
         | None => (Stuck, s1)
         end.
Proof.
  intros Hc Hst Hat.
  destruct (MonitorProps.attempts_run Windows874_Bytes base64_EncodeToString
              (fun _ => True) (fun _ _ _ _ => I) 3 card
              (mkSys w0 (log s ++ [EConnect rd])))
    as (errs' & res' & s1' & d & Hrun & _ & _ & _ & _ & _ & Hcases).
  rewrite Hat in Hrun. injection Hrun as <- <- <-.
  assert (Hshape : (exists record, res = (Some record, None))
                   \/ (exists err,
                          res = (None, Some (ErrMsgUnsupportedCard +:+ ": " +:+ err)))).
  { destruct Hcases as [(Hn & _) | [(record & -> & _) | (err & front & -> & _)]];
      [discriminate Hn | left; eauto | right; eauto]. }
  destruct (insertionMessage_read res Hshape) as (m & Hm & Hkind).
  exists m. split; [exact Hm |]. split; [exact Hkind |].
  unfold smartcard.pollReader.
  rewrite (EngineProps.bind_ok (connect rd) _ s (inr card)
             (mkSys w0 (log s ++ [EConnect rd])))
    by (unfold connect; now rewrite Hc).
  rewrite Hst. cbn [negb main.reader cardInsertHandler].
  rewrite (EngineProps.bind_ok _ _ _ _ _
             (MonitorProps.retryLoop_attempts Windows874_Bytes
                base64_EncodeToString (fun _ => True) (fun _ _ _ _ => I)
                [0; 1; 2] rd card None None _ _ errs res
                ltac:(discriminate) Hat)).
  cbv beta iota. unfold bind at 1.
  rewrite (onCardInserted_run _ _ m s1 Hm).
  destruct (Deliver m (world s1)) as [w2 |]; [| reflexivity].
  unfold bind, disconnect, ret. cbn [world log].
  now rewrite <- app_assoc.
Qed.

(** The card is there and was there: nothing but connect and
    disconnect. *)
Lemma poll_present_idle (ls : gmap string bool) (rd : string)
      (s : Sys World) (card : Card) (w' : World) :
  Connect rd (world s) = (inr card, w') ->
  getState ls rd = true ->
  pollReader ls rd s
  = (Ok ls, mkSys (Disconnect card LeaveCard w')
                  (log s ++ [EConnect rd; EDisconnect LeaveCard])).
Proof.
  intros Hc Hst. unfold smartcard.pollReader, bind, connect.
  rewrite Hc, Hst. cbn. now rewrite <- app_assoc.
Qed.

(** The card is not there: CARD_REMOVED is handed over exactly when the
    flag was set, and the flag is clear afterwards. *)
Lemma poll_absent (ls : gmap string bool) (rd : string)
      (s : Sys World) (e : string) (w' : World) :
  Connect rd (world s) = (inl e, w') ->
  pollReader ls rd s
  = if getState ls rd then
      match Deliver cardRemoved w' with
      | Some w2 =>
          (Ok (<[rd := false]> ls),
           mkSys w2 (log s ++ [EConnect rd; EBroadcast cardRemoved]))
      | None => (Stuck, mkSys w' (log s ++ [EConnect rd]))
      end
    else (Ok ls, mkSys w' (log s ++ [EConnect rd])).
Proof.
  intros Hc. unfold smartcard.pollReader, bind, connect.
  rewrite Hc. destruct (getState ls rd); [| reflexivity].
  cbn [main.reader cardRemoveHandler].
  unfold main.onCardRemoved, main.BroadcastMessage. cbn [world log].
  fold cardRemoved.
  destruct (Deliver cardRemoved w') as [w2 |]; [| reflexivity].
  unfold ret. cbn [log]. now rewrite <- app_assoc.
Qed.

(** *** Any poll, any pass, any turn *)

Lemma poll_summary (ls : gmap string bool) (rd : string) (s : Sys World) :
  exists r s' d,
    pollReader ls rd s = (r, s')
    /\ log s' = log s ++ EConnect rd :: d
    /\ forallb inPoll d = true
    /\ Forall monitorMessage (broadcastsOf d)
    /\ (length (broadcastsOf d) <= 1)%nat
    /\ countReset d = 0%nat
    /\ endsWell (fun ls' => forall rd', rd' <> rd -> ls' !! rd' = ls !! rd')
                r s'.
Proof.
  destruct (Connect rd (world s)) as [[e | card] w'] eqn:Hc.
  - rewrite (poll_absent ls rd s e w' Hc).
    destruct (getState ls rd).
    + destruct (Deliver cardRemoved w') as [w2 |] eqn:Hd.
      * eexists _, _, [EBroadcast cardRemoved].
        split; [reflexivity |]. cbn [log]. split; [reflexivity |].
        split; [reflexivity |].
        split; [constructor; [right; left; reflexivity | constructor] |].
        split; [simpl; lia |]. split; [reflexivity |].
        intros rd' Hne. now apply MonitorProps.lookup_other_insert.
      * eexists _, _, []. split; [reflexivity |]. cbn [log].
        split; [reflexivity |]. split; [reflexivity |].
        split; [constructor |]. split; [simpl; lia |].
        split; [reflexivity |].
        exists cardRemoved. split; [right; left; reflexivity | exact Hd].
    + eexists _, _, []. split; [reflexivity |]. cbn [log].
      split; [reflexivity |]. split; [reflexivity |].
      split; [constructor |]. split; [simpl; lia |].
      split; [reflexivity |]. intros rd' _. reflexivity.
  - destruct (getState ls rd) eqn:Hst.
    + rewrite (poll_present_idle ls rd s card w' Hc Hst).
      eexists _, _, [EDisconnect LeaveCard].
      split; [reflexivity |]. cbn [log]. split; [reflexivity |].
      split; [reflexivity |]. split; [constructor |].
      split; [simpl; lia |]. split; [reflexivity |].
      intros rd' _. reflexivity.
    + destruct (MonitorProps.attempts_run Windows874_Bytes
                  base64_EncodeToString (fun _ => True) (fun _ _ _ _ => I)
                  3 card (mkSys w' (log s ++ [EConnect rd])))
        as (errs & res & s1 & d1 & Hrun & Hl1 & Ht1 & _).
      cbn [log] in Hl1. rewrite <- app_assoc in Hl1. cbn [app] in Hl1.
      destruct (SlotProps.traffic_counts d1 Ht1) as (_ & _ & Hr1 & Hb1).
      destruct (poll_first ls rd s s1 card w' errs res Hc Hst Hrun)
        as (m & _ & Hkind & Hp).
      rewrite Hp.
      destruct (Deliver m (world s1)) as [w2 |] eqn:Hd.
      * eexists _, _, (d1 ++ [EBroadcast m; EDisconnect LeaveCard]).
        split; [reflexivity |]. cbn [log].
        split; [rewrite Hl1; now rewrite <- app_assoc |].
        split; [apply SlotProps.inPoll_app;
                [now apply SlotProps.traffic_inPoll | reflexivity] |].
        rewrite LogProps.broadcastsOf_app, LogProps.countReset_app, Hb1, Hr1.
        split; [constructor;
                [now apply insertedOrReadFailed_monitorMessage | constructor] |].
        split; [simpl; lia |]. split; [reflexivity |].
        intros rd' Hne. now apply MonitorProps.lookup_other_insert.
      * exists Stuck, s1, d1. split; [reflexivity |].
        split; [exact Hl1 |].
        split; [now apply SlotProps.traffic_inPoll |].
        rewrite Hb1. split; [constructor |]. split; [simpl; lia |].
        split; [exact Hr1 |].
        exists m. split; [now apply insertedOrReadFailed_monitorMessage | exact Hd].
Qed.

Lemma pollReaders_summary (readers : list string) :
  forall (ls : gmap string bool) (s : Sys World),
  exists r s' d,
    pollReaders ls readers s = (r, s')
    /\ log s' = log s ++ d
    /\ Forall monitorMessage (broadcastsOf d)
    /\ (length (broadcastsOf d) <= length readers)%nat
    /\ countReset d = 0%nat
    /\ endsWell (fun ls' => forall rd', ~ In rd' readers -> ls' !! rd' = ls !! rd')
                r s'.
Proof.
  induction readers as [| rd rest IH]; intros ls s.
  - exists (Ok ls), s, []. rewrite app_nil_r.
    split; [reflexivity |]. split; [reflexivity |].
    split; [constructor |]. split; [simpl; lia |].
    split; [reflexivity |]. intros rd' _. reflexivity.
  - destruct (poll_summary ls rd s)
      as (r1 & s1 & d1 & Hp & Hl1 & _ & Hm1 & Hn1 & Hr1 & Hend1).
    cbn [smartcard.pollReaders].
    destruct r1 as [ls1 | |]; [| destruct Hend1 |].
    + destruct (IH ls1 s1) as (r2 & s2 & d2 & Hrun & Hl2 & Hm2 & Hn2 & Hr2 & Hend2).
      exists r2, s2, (EConnect rd :: d1 ++ d2).
      rewrite (EngineProps.bind_ok _ _ _ _ _ Hp).
      split; [exact Hrun |].
      split; [rewrite Hl2, Hl1; now rewrite <- app_assoc |].
      change (EConnect rd :: d1 ++ d2) with ([EConnect rd] ++ d1 ++ d2).
      rewrite !LogProps.broadcastsOf_app, !LogProps.countReset_app, Hr1, Hr2.
      cbn [broadcastsOf app].
      split; [apply Forall_app; split; assumption |].
      split; [rewrite length_app; cbn [length]; lia |].
      split; [reflexivity |].
      destruct r2 as [ls2 | |]; [| exact Hend2 | exact Hend2].
      intros rd' Hnin. cbn [endsWell] in *.
      rewrite Hend2 by (intros Hin; apply Hnin; now right).
      apply Hend1. intros ->. apply Hnin. now left.
    + exists Stuck, s1, (EConnect rd :: d1).
      rewrite (bind_stuck _ _ _ _ Hp).
      split; [reflexivity |]. split; [exact Hl1 |].
      change (EConnect rd :: d1) with ([EConnect rd] ++ d1).
      rewrite LogProps.broadcastsOf_app, LogProps.countReset_app, Hr1.
      cbn [broadcastsOf app].
      split; [exact Hm1 |]. split; [cbn [length]; lia |].
      split; [reflexivity | exact Hend1].
Qed.

(** The message for no reader. *)
Lemma insertionMessage_no_reader :
  insertionMessage None (Some ErrMsgReaderNotFound) = Some readerNotFound.
Proof. reflexivity. Qed.

Lemma tick_summary (ls : gmap string bool) (s : Sys World) :
  exists r s' d,
    monitorTick ls s = (r, s')
    /\ log s' = log s ++ d
    /\ Forall monitorMessage (broadcastsOf d)
    /\ countReset d = 0%nat
    /\ endsWell (fun _ => True) r s'.
Proof.
  unfold smartcard.monitorTick.
  destruct (ListReaders (world s)) as [[e | readers] w1] eqn:Hl.
  - rewrite (EngineProps.bind_ok listReaders _ s (inl e)
               (mkSys w1 (log s ++ [EListReaders])))
      by (unfold listReaders; now rewrite Hl).
    eexists _, _, [EListReaders; ESleep 2000].
    split; [reflexivity |]. cbn [log].
    split; [now rewrite <- app_assoc |].
    split; [constructor |]. split; [reflexivity | exact I].
  - rewrite (EngineProps.bind_ok listReaders _ s (inr readers)
               (mkSys w1 (log s ++ [EListReaders])))
      by (unfold listReaders; now rewrite Hl).
    destruct readers as [| rd rest].
    + cbn [length Nat.eqb main.reader cardInsertHandler].
      unfold bind at 1.
      rewrite (onCardInserted_run _ _ _ _ insertionMessage_no_reader).
      cbn [world log].
      destruct (Deliver readerNotFound w1) as [w2 |] eqn:Hd.
      * eexists _, _, [EListReaders; EBroadcast readerNotFound; ESleep 2000].
        split; [reflexivity |]. cbn [log].
        split; [now rewrite <- !app_assoc |].
        split; [constructor; [right; right; left; reflexivity | constructor] |].
        split; [reflexivity | exact I].
      * eexists _, _, [EListReaders].
        split; [reflexivity |]. cbn [log]. split; [reflexivity |].
        split; [constructor |]. split; [reflexivity |].
        exists readerNotFound.
        split; [right; right; left; reflexivity | exact Hd].
    + change (length (rd :: rest) =? 0)%nat with false. cbv iota.
      destruct (pollReaders_summary (rd :: rest) ls
                  (mkSys w1 (log s ++ [EListReaders])))
        as (r & s1 & d & Hp & Hl1 & Hm & _ & Hr & Hend).
      cbn [log] in Hl1.
      destruct r as [ls1 | |]; [| destruct Hend |].
      * rewrite (EngineProps.bind_ok _ _ _ _ _ Hp).
        eexists _, _, ([EListReaders] ++ d ++ [ESleep 500]).
        split; [reflexivity |]. cbn [log].
        split; [rewrite Hl1; now rewrite <- !app_assoc |].
        rewrite !LogProps.broadcastsOf_app, !LogProps.countReset_app, Hr.
        cbn [broadcastsOf app]. rewrite app_nil_r.
        split; [exact Hm |]. split; [reflexivity | exact I].
      * rewrite (bind_stuck _ _ _ _ Hp).
        exists Stuck, s1, ([EListReaders] ++ d).
        split; [reflexivity |].
        split; [rewrite Hl1; now rewrite <- app_assoc |].
        rewrite LogProps.broadcastsOf_app, LogProps.countReset_app, Hr.
        split; [exact Hm |]. split; [reflexivity | exact Hend].
Qed.

Lemma ticks_summary (n : nat) :
  forall (ls : gmap string bool) (s : Sys World),
  exists r s' d,
    monitorTicks n ls s = (r, s')
    /\ log s' = log s ++ d
    /\ Forall monitorMessage (broadcastsOf d)
    /\ countReset d = 0%nat
    /\ endsWell (fun _ => True) r s'.
Proof.
  induction n as [| n IH]; intros ls s.
  - exists (Ok ls), s, []. rewrite app_nil_r.
    split; [reflexivity |]. split; [reflexivity |].
    split; [constructor |]. split; [reflexivity | exact I].
  - destruct (tick_summary ls s) as (r1 & s1 & d1 & Ht & Hl1 & Hm1 & Hr1 & Hend1).
    cbn [smartcard.monitorTicks].
    destruct r1 as [ls1 | |]; [| destruct Hend1 |].
    + destruct (IH ls1 s1) as (r2 & s2 & d2 & Hrun & Hl2 & Hm2 & Hr2 & Hend2).
      exists r2, s2, (d1 ++ d2).
      rewrite (EngineProps.bind_ok _ _ _ _ _ Ht).
      split; [exact Hrun |].
      split; [rewrite Hl2, Hl1; now rewrite app_assoc |].
      rewrite LogProps.broadcastsOf_app, LogProps.countReset_app, Hr1, Hr2.
      split; [apply Forall_app; split; assumption |].
      split; [reflexivity | exact Hend2].
    + exists Stuck, s1, d1. rewrite (bind_stuck _ _ _ _ Ht).
      split; [reflexivity |]. split; [exact Hl1 |].
      split; [exact Hm1 |]. split; [exact Hr1 | exact Hend1].
Qed.

(** *** The three shapes of a turn *)

Lemma tick_list_error (ls : gmap string bool) (s : Sys World)
      (e : string) (w1 : World) :
  ListReaders (world s) = (inl e, w1) ->
  monitorTick ls s
  = (Ok ls, mkSys w1 (log s ++ [EListReaders; ESleep 2000])).
Proof.
  intros Hl. unfold smartcard.monitorTick, bind, listReaders.
  rewrite Hl. cbn. now rewrite <- app_assoc.
Qed.

Lemma tick_no_reader (ls : gmap string bool) (s : Sys World) (w1 : World) :
  ListReaders (world s) = (inr [], w1) ->
  monitorTick ls s
  = match Deliver readerNotFound w1 with
    | Some w2 =>
        (Ok ls, mkSys w2 (log s ++ [EListReaders; EBroadcast readerNotFound;
                                    ESleep 2000]))
    | None => (Stuck, mkSys w1 (log s ++ [EListReaders]))
    end.
Proof.
  intros Hl. unfold smartcard.monitorTick.
  rewrite (EngineProps.bind_ok listReaders _ s (inr [])
             (mkSys w1 (log s ++ [EListReaders])))
    by (unfold listReaders; now rewrite Hl).
  cbn [length Nat.eqb main.reader cardInsertHandler].
  unfold bind at 1.
  rewrite (onCardInserted_run _ _ _ _ insertionMessage_no_reader).
  cbn [world log].
  destruct (Deliver readerNotFound w1) as [w2 |]; [| reflexivity].
  unfold bind, sleep, emit, ret. cbn [world log].
  now rewrite <- !app_assoc.
Qed.

Lemma tick_polls (ls ls' : gmap string bool) (s s1 : Sys World)
      (readers : list string) (w1 : World) :
  ListReaders (world s) = (inr readers, w1) ->
  readers <> [] ->
  pollReaders ls readers (mkSys w1 (log s ++ [EListReaders])) = (Ok ls', s1) ->
  monitorTick ls s = (Ok ls', mkSys (world s1) (log s1 ++ [ESleep 500])).
Proof.
  intros Hl Hne Hp. unfold smartcard.monitorTick.
  rewrite (EngineProps.bind_ok listReaders _ s (inr readers)
             (mkSys w1 (log s ++ [EListReaders])))
    by (unfold listReaders; now rewrite Hl).
  destruct readers as [| rd rest]; [congruence |].
  cbn [length Nat.eqb].
  rewrite (EngineProps.bind_ok _ _ _ _ _ Hp). reflexivity.
Qed.

(** A pass over two stretches of the list of readers. *)
Lemma pollReaders_app (a b : list string) :
  forall (ls ls1 : gmap string bool) (s s1 : Sys World),
    pollReaders ls a s = (Ok ls1, s1) ->
    pollReaders ls (a ++ b) s = pollReaders ls1 b s1.
Proof.
  induction a as [| r a IH]; intros ls ls1 s s1 Ha.
  - cbn in Ha. unfold ret in Ha. now injection Ha as <- <-.
  - cbn [smartcard.pollReaders app] in *.
    destruct (pollReader ls r s) as [[ls0 | |] s0] eqn:Hp;
      unfold bind in Ha; rewrite Hp in Ha; try discriminate Ha.
    rewrite (EngineProps.bind_ok _ _ _ _ _ Hp). now apply IH.
Qed.

(** *** Turns without a reader, turns without a listing *)

Section Quiet.

Variable Inv : World -> Prop.

Lemma ticks_no_reader (n : nat) :
  (forall w, Inv w -> exists w', ListReaders w = (inr [], w') /\ Inv w') ->
  (forall m w w', Inv w -> Deliver m w = Some w' -> Inv w') ->
  forall (ls : gmap string bool) (s : Sys World),
    Inv (world s) ->
    exists k r s' d,
      monitorTicks n ls s = (r, s')
      /\ log s' = log s ++ d
      /\ broadcastsOf d = repeat readerNotFound k
      /\ countSleep 2000 d = k
      /\ transmitsOf d = []
      /\ match r with
         | Ok ls' => k = n /\ ls' = ls
         | Stuck => (k < n)%nat /\ Deliver readerNotFound (world s') = None
         | Panic => False
         end.
Proof.
  intros HL HD. induction n as [| n IH]; intros ls s Hw.
  - exists 0%nat, (Ok ls), s, []. rewrite app_nil_r.
    repeat (split; [reflexivity |]). split; reflexivity.
  - destruct (HL _ Hw) as (w1 & Hl & Hw1).
    pose proof (tick_no_reader ls s w1 Hl) as Ht.
    cbn [smartcard.monitorTicks].
    destruct (Deliver readerNotFound w1) as [w2 |] eqn:Hd.
    + destruct (IH ls (mkSys w2 (log s ++ [EListReaders;
                                          EBroadcast readerNotFound;
                                          ESleep 2000]))
                  (HD _ _ _ Hw1 Hd))
        as (k & r & s' & d & Hrun & Hlog & Hb & Hsl & Htr & Hend).
      cbn [log] in Hlog.
      exists (S k), r, s',
        ([EListReaders; EBroadcast readerNotFound; ESleep 2000] ++ d).
      rewrite (EngineProps.bind_ok _ _ _ _ _ Ht).
      split; [exact Hrun |].
      split; [rewrite Hlog; now rewrite <- app_assoc |].
      rewrite LogProps.broadcastsOf_app, LogProps.countSleep_app,
              LogProps.transmitsOf_app, Hb, Hsl, Htr.
      repeat (split; [reflexivity |]).
      destruct r as [ls' | |]; [| exact Hend |].
      * destruct Hend as [-> ->]. split; reflexivity.
      * destruct Hend as [Hk Hnone]. split; [lia | exact Hnone].
    + exists 0%nat, Stuck, (mkSys w1 (log s ++ [EListReaders])), [EListReaders].
      rewrite (bind_stuck _ _ _ _ Ht).
      repeat (split; [reflexivity |]). split; [lia | exact Hd].
Qed.

Lemma ticks_list_error (n : nat) :
  (forall w, Inv w -> exists e w', ListReaders w = (inl e, w') /\ Inv w') ->
  forall (ls : gmap string bool) (s : Sys World),
    Inv (world s) ->
    exists s',
      monitorTicks n ls s
      = (Ok ls, s')
      /\ log s' = log s ++ concat (repeat [EListReaders; ESleep 2000] n)
      /\ Inv (world s').
Proof.
  intros HL. induction n as [| n IH]; intros ls s Hw.
  - exists s. simpl. rewrite app_nil_r. repeat (split; [reflexivity |]). exact Hw.
  - destruct (HL _ Hw) as (e & w1 & Hl & Hw1).
    pose proof (tick_list_error ls s e w1 Hl) as Ht.
    destruct (IH ls (mkSys w1 (log s ++ [EListReaders; ESleep 2000])) Hw1)
      as (s' & Hrun & Hlog & Hw').
    cbn [log] in Hlog.
    exists s'. cbn [smartcard.monitorTicks].
    rewrite (EngineProps.bind_ok _ _ _ _ _ Ht).
    split; [exact Hrun |].
    split; [rewrite Hlog; simpl; now rewrite <- app_assoc | exact Hw'].
Qed.

End Quiet.

(** *** One slot among several, while its card stays connectable *)

Section Slot.

Variable Inv : World -> Prop.
Variable rd : string.
Hypothesis Inv_Transmit :
  forall (c : Card) (cmd : list byte) (w : World),
    Inv w -> Inv (snd (Transmit c cmd w)).
Hypothesis Inv_Connect :
  forall (r : string) (w : World), Inv w -> Inv (snd (Connect r w)).
Hypothesis Inv_Disconnect :
  forall (c : Card) (d : Disposition) (w : World),
    Inv w -> Inv (Disconnect c d w).
Hypothesis Inv_Deliver :
  forall (m : WebSocketMessage) (w : World),
    Inv w -> exists w', Deliver m w = Some w' /\ Inv w'.
Hypothesis Inv_ListReaders :
  forall w, Inv w ->
    exists pre post w',
      ListReaders w = (inr (pre ++ rd :: post), w')
      /\ ~ In rd pre /\ ~ In rd post /\ Inv w'.
Hypothesis Inv_Present :
  forall w, Inv w -> exists c, fst (Connect rd w) = inr c.

Local Abbreviation readOfSlot :=
  (RetrySpec.readOfSlot Windows874_Bytes base64_EncodeToString Inv rd).

(** A poll of any slot goes through and keeps the invariant. *)
Lemma poll_inv (ls : gmap string bool) (r : string) (s : Sys World) :
  Inv (world s) ->
  exists ls' s' d,
    pollReader ls r s = (Ok ls', s')
    /\ log s' = log s ++ EConnect r :: d
    /\ forallb inPoll d = true
    /\ Inv (world s')
    /\ (forall rd', rd' <> r -> ls' !! rd' = ls !! rd').
Proof using Inv_Transmit Inv_Connect Inv_Disconnect Inv_Deliver.
  intros Hw. pose proof (Inv_Connect r _ Hw) as Hw'.
  destruct (Connect r (world s)) as [[e | card] w'] eqn:Hc; cbn [snd] in Hw'.
  - rewrite (poll_absent ls r s e w' Hc).
    destruct (getState ls r).
    + destruct (Inv_Deliver cardRemoved _ Hw') as (w2 & -> & Hw2).
      eexists _, _, [EBroadcast cardRemoved].
      split; [reflexivity |]. cbn [log world]. split; [reflexivity |].
      split; [reflexivity |]. split; [exact Hw2 |].
      intros rd' Hne. now apply MonitorProps.lookup_other_insert.
    + eexists _, _, []. split; [reflexivity |]. cbn [log world].
      split; [reflexivity |]. split; [reflexivity |]. split; [exact Hw' |].
      reflexivity.
  - destruct (getState ls r) eqn:Hst.
    + rewrite (poll_present_idle ls r s card w' Hc Hst).
      eexists _, _, [EDisconnect LeaveCard].
      split; [reflexivity |]. cbn [log world]. split; [reflexivity |].
      split; [reflexivity |]. split; [now apply Inv_Disconnect |].
      reflexivity.
    + destruct (MonitorProps.attempts_run Windows874_Bytes
                  base64_EncodeToString Inv Inv_Transmit
                  3 card (mkSys w' (log s ++ [EConnect r])))
        as (errs & res & s1 & d1 & Hrun & Hl1 & Ht1 & _ & Hi1 & _).
      cbn [log world] in Hl1, Hi1.
      rewrite <- app_assoc in Hl1. cbn [app] in Hl1.
      destruct (poll_first ls r s s1 card w' errs res Hc Hst Hrun)
        as (m & _ & _ & Hp).
      rewrite Hp.
      destruct (Inv_Deliver m _ (Hi1 Hw')) as (w2 & -> & Hw2).
      eexists _, _, (d1 ++ [EBroadcast m; EDisconnect LeaveCard]).
      split; [reflexivity |]. cbn [log world].
      split; [rewrite Hl1; now rewrite <- app_assoc |].
      split; [apply SlotProps.inPoll_app;
              [now apply SlotProps.traffic_inPoll | reflexivity] |].
      split; [now apply Inv_Disconnect |].
      intros rd' Hne. now apply MonitorProps.lookup_other_insert.
Qed.

(** Polls of other slots are not the slot's, and leave its flag. *)
Lemma polls_others (rs : list string) :
  ~ In rd rs ->
  forall (ls : gmap string bool) (s : Sys World),
    Inv (world s) ->
    exists ls' s' d,
      pollReaders ls rs s = (Ok ls', s')
      /\ log s' = log s ++ d
      /\ slotEventsFrom rd false d = []
      /\ slotOpen rd false d = false
      /\ Inv (world s')
      /\ getState ls' rd = getState ls rd.
Proof using Inv_Transmit Inv_Connect Inv_Disconnect Inv_Deliver.
  induction rs as [| r rs IH]; intros Hnin ls s Hw.
  - exists ls, s, []. rewrite app_nil_r.
    repeat (split; [reflexivity |]). split; [exact Hw | reflexivity].
  - destruct (poll_inv ls r s Hw) as (ls1 & s1 & d1 & Hp & Hl1 & Hd1 & Hw1 & Hf1).
    destruct (IH (fun Hin => Hnin (or_intror Hin)) ls1 s1 Hw1)
      as (ls' & s' & d2 & Hrun & Hl2 & He2 & Ho2 & Hw' & Hf2).
    assert (Hne : r <> rd) by (intros ->; apply Hnin; now left).
    assert (Heqb : String.eqb r rd = false) by now apply String.eqb_neq.
    destruct (SlotProps.slot_off_inPoll rd d1 Hd1) as [He1 Ho1].
    exists ls', s', (EConnect r :: d1 ++ d2).
    cbn [smartcard.pollReaders]. rewrite (EngineProps.bind_ok _ _ _ _ _ Hp).
    split; [exact Hrun |].
    split; [rewrite Hl2, Hl1; now rewrite <- app_assoc |].
    cbn [slotEventsFrom slotOpen]. rewrite Heqb.
    rewrite SlotProps.slotEventsFrom_app, SlotProps.slotOpen_app, He1, Ho1.
    split; [exact He2 |]. split; [exact Ho2 |]. split; [exact Hw' |].
    rewrite Hf2. apply MonitorProps.getState_other, Hf1. congruence.
Qed.

(** The first poll of the slot. *)
Lemma poll_slot_first (ls : gmap string bool) (s : Sys World) :
  Inv (world s) ->
  getState ls rd = false ->
  exists s' m read,
    pollReader ls rd s = (Ok (<[rd := true]> ls), s')
    /\ log s' = log s ++ EConnect rd :: read
                  ++ [EBroadcast m; EDisconnect LeaveCard]
    /\ forallb isTraffic read = true
    /\ insertedOrReadFailed m
    /\ readOfSlot read m
    /\ Inv (world s').
Proof using Inv_Transmit Inv_Connect Inv_Disconnect Inv_Deliver Inv_Present.
  intros Hw Hst.
  pose proof (Inv_Connect rd _ Hw) as Hw'.
  destruct (Inv_Present _ Hw) as (card & Hcard).
  destruct (Connect rd (world s)) as [r w'] eqn:Hc.
  cbn [fst snd] in Hcard, Hw'. subst r.
  destruct (MonitorProps.attempts_run Windows874_Bytes
              base64_EncodeToString Inv Inv_Transmit
              3 card (mkSys w' (log s ++ [EConnect rd])))
    as (errs & res & s1 & read & Hrun & Hl1 & Ht1 & _ & Hi1 & _).
  cbn [log world] in Hl1, Hi1.
  rewrite <- app_assoc in Hl1. cbn [app] in Hl1.
  destruct (poll_first ls rd s s1 card w' errs res Hc Hst Hrun)
    as (m & Hm & Hkind & Hp).
  destruct (Inv_Deliver m _ (Hi1 Hw')) as (w2 & Hd & Hw2).
  rewrite Hd in Hp.
  eexists _, m, read. split; [exact Hp |]. cbn [log world].
  split; [rewrite Hl1; now rewrite <- app_assoc |].
  split; [exact Ht1 |]. split; [exact Hkind |].
  split; [| now apply Inv_Disconnect].
  exists s, card, w', errs, res, s1.
  split; [exact Hw |]. split; [exact Hc |]. split; [exact Hrun |].
  split; [exact Hl1 | exact Hm].
Qed.

(** A later poll of the slot. *)
Lemma poll_slot_idle (ls : gmap string bool) (s : Sys World) :
  Inv (world s) ->
  getState ls rd = true ->
  exists s',
    pollReader ls rd s = (Ok ls, s')
    /\ log s' = log s ++ [EConnect rd; EDisconnect LeaveCard]
    /\ Inv (world s').
Proof using Inv_Connect Inv_Disconnect Inv_Present.
  intros Hw Hst.
  pose proof (Inv_Connect rd _ Hw) as Hw'.
  destruct (Inv_Present _ Hw) as (card & Hcard).
  destruct (Connect rd (world s)) as [r w'] eqn:Hc.
  cbn [fst snd] in Hcard, Hw'. subst r.
  eexists. split; [exact (poll_present_idle ls rd s card w' Hc Hst) |].
  cbn [log world]. split; [reflexivity | now apply Inv_Disconnect].
Qed.

(** A turn, given what the poll of the slot does in it. *)
Lemma tick_slot (ls : gmap string bool) (s : Sys World)
      (f : bool) (mine : list Event) :
  Inv (world s) ->
  (forall ls0 s0,
      Inv (world s0) -> getState ls0 rd = getState ls rd ->
      exists s1,
        pollReader ls0 rd s0 = (Ok (<[rd := f]> ls0), s1)
        /\ log s1 = log s0 ++ EConnect rd :: mine ++ [EDisconnect LeaveCard]
        /\ slotEventsFrom rd true mine = mine
        /\ slotOpen rd true mine = true
        /\ Inv (world s1)) ->
  exists ls' s' d,
    monitorTick ls s = (Ok ls', s')
    /\ log s' = log s ++ d
    /\ getState ls' rd = f
    /\ slotEventsFrom rd false d = EConnect rd :: mine ++ [EDisconnect LeaveCard]
    /\ Inv (world s').
Proof using Inv_Transmit Inv_Connect Inv_Disconnect Inv_Deliver
            Inv_ListReaders.
  intros Hw Hpoll.
  destruct (Inv_ListReaders _ Hw) as (pre & post & w1 & Hl & Hpre & Hpost & Hw1).
  destruct (polls_others pre Hpre ls (mkSys w1 (log s ++ [EListReaders])) Hw1)
    as (lsa & sa & da & Hpa & Hla & Hea & Hoa & Hwa & Hfa).
  cbn [log] in Hla.
  destruct (Hpoll lsa sa Hwa Hfa) as (sb & Hpb & Hlb & Hmine & Hopen & Hwb).
  destruct (polls_others post Hpost (<[rd := f]> lsa) sb Hwb)
    as (lsc & sc & dc & Hpc & Hlc & Hec & Hoc & Hwc & Hfc).
  assert (Hpass : pollReaders ls (pre ++ rd :: post)
                    (mkSys w1 (log s ++ [EListReaders])) = (Ok lsc, sc)).
  { rewrite (pollReaders_app pre (rd :: post) _ _ _ _ Hpa).
    cbn [smartcard.pollReaders].
    rewrite (EngineProps.bind_ok _ _ _ _ _ Hpb). exact Hpc. }
  exists lsc, (mkSys (world sc) (log sc ++ [ESleep 500])),
    ([EListReaders] ++ da ++ (EConnect rd :: mine ++ [EDisconnect LeaveCard])
       ++ dc ++ [ESleep 500]).
  split; [apply (tick_polls ls lsc s sc _ w1 Hl);
          [now destruct pre | exact Hpass] |].
  cbn [log world].
  split; [rewrite Hlc, Hlb, Hla; now rewrite <- !app_assoc |].
  split; [rewrite Hfc; apply MonitorProps.getState_insert |].
  split; [| exact Hwc].
  cbn [app slotEventsFrom].
  rewrite SlotProps.slotEventsFrom_app, Hea, Hoa. cbn [app slotEventsFrom].
  rewrite String.eqb_refl.
  rewrite !SlotProps.slotEventsFrom_app, Hmine, Hopen.
  cbn [slotEventsFrom slotOpen app].
  rewrite SlotProps.slotOpen_app, Hopen. cbn [slotOpen].
  rewrite Hec, Hoc. cbn [slotEventsFrom app]. now rewrite app_nil_r.
Qed.

Lemma tick_slot_idle (ls : gmap string bool) (s : Sys World) :
  Inv (world s) ->
  getState ls rd = true ->
  exists ls' s' d,
    monitorTick ls s = (Ok ls', s')
    /\ log s' = log s ++ d
    /\ getState ls' rd = true
    /\ slotEventsFrom rd false d = [EConnect rd; EDisconnect LeaveCard]
    /\ Inv (world s').
Proof using Inv_Transmit Inv_Connect Inv_Disconnect Inv_Deliver
            Inv_ListReaders Inv_Present.
  intros Hw Hst.
  apply (tick_slot ls s true [] Hw).
  intros ls0 s0 Hw0 Hf0. rewrite Hst in Hf0.
  destruct (poll_slot_idle ls0 s0 Hw0 Hf0) as (s1 & Hp & Hl & Hw1).
  exists s1. split; [| split; [exact Hl | repeat split; exact Hw1]].
  rewrite Hp. f_equal. f_equal. symmetry. apply insert_id.
  unfold getState in Hf0. destruct (ls0 !! rd) as [[|] |]; try discriminate Hf0.
  reflexivity.
Qed.

Lemma tick_slot_first (ls : gmap string bool) (s : Sys World) :
  Inv (world s) ->
  getState ls rd = false ->
  exists ls' s' d m read,
    monitorTick ls s = (Ok ls', s')
    /\ log s' = log s ++ d
    /\ getState ls' rd = true
    /\ slotEventsFrom rd false d
       = EConnect rd :: read ++ [EBroadcast m; EDisconnect LeaveCard]
    /\ forallb isTraffic read = true
    /\ insertedOrReadFailed m
    /\ readOfSlot read m
    /\ Inv (world s').
Proof using Inv_Transmit Inv_Connect Inv_Disconnect Inv_Deliver
            Inv_ListReaders Inv_Present.
  intros Hw Hst.
  destruct (Inv_ListReaders _ Hw) as (pre & post & w1 & Hl & Hpre & Hpost & Hw1).
  destruct (polls_others pre Hpre ls (mkSys w1 (log s ++ [EListReaders])) Hw1)
    as (lsa & sa & da & Hpa & Hla & Hea & Hoa & Hwa & Hfa).
  cbn [log] in Hla. rewrite Hst in Hfa.
  destruct (poll_slot_first lsa sa Hwa Hfa)
    as (sb & m & read & Hpb & Hlb & Htr & Hkind & Hread & Hwb).
  destruct (polls_others post Hpost (<[rd := true]> lsa) sb Hwb)
    as (lsc & sc & dc & Hpc & Hlc & Hec & Hoc & Hwc & Hfc).
  assert (Hpass : pollReaders ls (pre ++ rd :: post)
                    (mkSys w1 (log s ++ [EListReaders])) = (Ok lsc, sc)).
  { rewrite (pollReaders_app pre (rd :: post) _ _ _ _ Hpa).
    cbn [smartcard.pollReaders].
    rewrite (EngineProps.bind_ok _ _ _ _ _ Hpb). exact Hpc. }
  destruct (SlotProps.slot_on_traffic rd read Htr) as [Hmine Hopen].
  exists lsc, (mkSys (world sc) (log sc ++ [ESleep 500])),
    ([EListReaders] ++ da
       ++ (EConnect rd :: read ++ [EBroadcast m; EDisconnect LeaveCard])
       ++ dc ++ [ESleep 500]), m, read.
  split; [apply (tick_polls ls lsc s sc _ w1 Hl);
          [now destruct pre | exact Hpass] |].
  cbn [log world].
  split; [rewrite Hlc, Hlb, Hla; now rewrite <- !app_assoc |].
  split; [rewrite Hfc; apply MonitorProps.getState_insert |].
  split; [| split; [exact Htr | split; [exact Hkind | split; [exact Hread | exact Hwc]]]].
  cbn [app slotEventsFrom].
  rewrite SlotProps.slotEventsFrom_app, Hea, Hoa. cbn [app slotEventsFrom].
  rewrite String.eqb_refl.
  rewrite !SlotProps.slotEventsFrom_app, Hmine, Hopen.
  cbn [slotEventsFrom slotOpen app].
  rewrite SlotProps.slotOpen_app, Hopen. cbn [slotOpen].
  rewrite Hec, Hoc. cbn [slotEventsFrom app]. now rewrite app_nil_r.
Qed.

(** Once the flag is set, the slot is polled and released in every
    further turn, and nothing else. *)
Lemma ticks_slot_idle (n : nat) :
  forall (ls : gmap string bool) (s : Sys World),
    Inv (world s) ->
    getState ls rd = true ->
    exists ls' s' d,
      monitorTicks n ls s = (Ok ls', s')
      /\ log s' = log s ++ d
      /\ getState ls' rd = true
      /\ (forall on,
             slotEventsFrom rd on d
             = concat (repeat [EConnect rd; EDisconnect LeaveCard] n)).
Proof using Inv_Transmit Inv_Connect Inv_Disconnect Inv_Deliver
            Inv_ListReaders Inv_Present.
  induction n as [| n IH]; intros ls s Hw Hst.
  - exists ls, s, []. rewrite app_nil_r.
    repeat (split; [reflexivity |]). split; [exact Hst | reflexivity].
  - destruct (tick_slot_idle ls s Hw Hst)
      as (ls1 & s1 & d1 & Ht & Hl1 & Hst1 & He1 & Hw1).
    destruct (IH ls1 s1 Hw1 Hst1) as (ls' & s' & d2 & Hrun & Hl2 & Hst' & He2).
    exists ls', s', (d1 ++ d2). cbn [smartcard.monitorTicks].
    rewrite (EngineProps.bind_ok _ _ _ _ _ Ht).
    split; [exact Hrun |].
    split; [rewrite Hl2, Hl1; now rewrite app_assoc |].
    split; [exact Hst' |].
    intros on. rewrite SlotProps.slotEventsFrom_app, He2.
    cbn [repeat concat].
    assert (Hon : slotEventsFrom rd on d1 = slotEventsFrom rd false d1).
    { unfold smartcard.monitorTick in Ht.
      destruct (Inv_ListReaders _ Hw) as (pre & post & w1 & Hl & _).
      rewrite (EngineProps.bind_ok listReaders _ s (inr (pre ++ rd :: post))
                 (mkSys w1 (log s ++ [EListReaders]))) in Ht
        by (unfold listReaders; now rewrite Hl).
      assert (Hhead : exists d0, d1 = EListReaders :: d0).
      { destruct (pre ++ rd :: post) as [| r0 rest] eqn:Hlist;
          [now destruct pre |].
        cbn [length Nat.eqb] in Ht.
        destruct (pollReaders_summary (r0 :: rest) ls
                    (mkSys w1 (log s ++ [EListReaders])))
          as (r & sp & dp & Hp & Hlp & _).
        cbn [log] in Hlp.
        destruct r as [lsp | |];
          [rewrite (EngineProps.bind_ok _ _ _ _ _ Hp) in Ht
          | unfold bind in Ht; rewrite Hp in Ht; discriminate Ht
          | unfold bind in Ht; rewrite Hp in Ht; discriminate Ht].
        unfold bind, sleep, emit, ret in Ht. injection Ht as _ <-.
        cbn [log] in Hl1. rewrite Hlp, <- !app_assoc in Hl1.
        apply app_inv_head in Hl1. exists (dp ++ [ESleep 500]).
        now rewrite <- Hl1. }
      destruct Hhead as (d0 & ->). reflexivity. }
    rewrite Hon, He1. reflexivity.
Qed.

(** The slot through [N] turns from the start of the monitor. *)
Lemma ticks_slot (n : nat) (s : Sys World) :
  Inv (world s) ->
  exists lsN sN d m read,
    monitorTicks (S n) ∅ s = (Ok lsN, sN)
    /\ log sN = log s ++ d
    /\ getState lsN rd = true
    /\ slotEvents rd d
       = EConnect rd :: read ++ [EBroadcast m; EDisconnect LeaveCard]
           ++ concat (repeat [EConnect rd; EDisconnect LeaveCard] n)
    /\ forallb isTraffic read = true
    /\ insertedOrReadFailed m
    /\ readOfSlot read m.
Proof using Inv_Transmit Inv_Connect Inv_Disconnect Inv_Deliver
            Inv_ListReaders Inv_Present.
  intros Hw.
  destruct (tick_slot_first ∅ s Hw (MonitorProps.getState_empty rd))
    as (ls1 & s1 & d1 & m & read & Ht & Hl1 & Hst1 & He1 & Htr & Hkind
        & Hread & Hw1).
  destruct (ticks_slot_idle n ls1 s1 Hw1 Hst1)
    as (lsN & sN & d2 & Hrun & Hl2 & HstN & He2).
  exists lsN, sN, (d1 ++ d2), m, read. cbn [smartcard.monitorTicks].
  rewrite (EngineProps.bind_ok _ _ _ _ _ Ht).
  split; [exact Hrun |].
  split; [rewrite Hl2, Hl1; now rewrite app_assoc |].
  split; [exact HstN |].
  split; [| split; [exact Htr | split; [exact Hkind | exact Hread]]].
  unfold slotEvents. rewrite SlotProps.slotEventsFrom_app, He1, He2.
  cbn [app]. now rewrite <- !app_assoc.
Qed.

End Slot.

End Poll.

End PollProps.

(** C1 (what the code does).  A card that answers SELECT with status 6D00
    is inserted: the reader makes its attempts, and the one message handed
    to the hub is the ERROR with code 1003 ("Failed to read data"), not
    1004: the error text that [readCard] returns carries the selection
    error after the UnsupportedCard text, so the comparison in [main]
    fails. *)
Theorem C1_selection_failure_is_reported_with_code_1003 :
  let w := Sim.mkWorld ["Reader 0"] [true] false [] (Sim.rsp [] x6d x00) in
  let run :=
    smartcard.monitorLoop Sim.copyDecoder Sim.copyEncoder 1 main.reader
                          (Sim.start w) in
  LogSpec.broadcastsOf (log (snd run))
  = [ domain.mkWebSocketMessage "ERROR"
        (domain.PayloadError
           (domain.mkErrorResponse 1003
              "Failed to read data from the smart card.")) ]
  /\ fst (smartcard.readCard Sim.copyDecoder Sim.copyEncoder tt (Sim.start w))
     = Ok (None,
           Some "The inserted card is not a supported Thai ID card.: select applet failed: SW=6D00")
  /\ main.errorResponseFor domain.ErrMsgUnsupportedCard
     = domain.mkErrorResponse 1004 domain.ErrMsgUnsupportedCard.
Proof. vm_compute. repeat split. Qed.

(** C2, as amended.  [RetrySpec.attempts] is the read of the amended
    claim: up to three attempts on the one session, ended by the first
    attempt that succeeds, each failed attempt followed by a pause of
    100 ms and, while attempts are left, by the next attempt.  It always
    comes to an end: with a record after fewer than three failures, one
    selection per attempt and one pause per failure; or with the error of
    the third attempt after three failures, three selections and three
    pauses.  When none of the failures is classified as applet missing,
    the retry loop of the monitor is this read: it ends in the same state
    with the same record and error, and keeps the session it was
    given. *)
Theorem C2_every_failure_is_retried
        {World Card : Type} `{PCSC World Card}
        (Windows874_Bytes : list byte -> string + list byte)
        (base64_EncodeToString : list byte -> string)
        (reader : string) (card : Card) (s : Sys World) :
  exists errs res s' d,
    RetrySpec.attempts Windows874_Bytes base64_EncodeToString 3 card s
    = (Ok (errs, res), s')
    /\ log s' = log s ++ d
    /\ LogSpec.countSleep 100 d = length errs
    /\ ((exists record,
           res = (Some record, None)
           /\ (length errs < 3)%nat
           /\ LogSpec.countSelect d = (length errs + 1)%nat)
        \/ (exists msg front,
               res = (None, Some msg)
               /\ errs = front ++ [msg]
               /\ length errs = 3%nat
               /\ LogSpec.countSelect d = 3%nat))
    /\ (Forall (fun msg => RetrySpec.appletMissing msg = false) errs ->
        smartcard.retryLoop Windows874_Bytes base64_EncodeToString
          [0; 1; 2] reader card None None s
        = (Ok (Some card, fst res, snd res), s')).
Proof.
  destruct (MonitorProps.attempts_run Windows874_Bytes base64_EncodeToString
              (fun _ => True) (fun _ _ _ _ => I) 3 card s)
    as (errs & res & s' & d & Hrun & Hl & _ & Hp & _ & _ & Hcases).
  exists errs, res, s', d.
  split; [exact Hrun |]. split; [exact Hl |]. split; [exact Hp |].
  split.
  - destruct Hcases as [(Hn & _) | [(record & -> & Hlen & Hsel)
                                   | (err & front & -> & Hfront & Hlen & _ & Hsel)]].
    + discriminate Hn.
    + left. eauto.
    + right. eauto 6.
  - intros _.
    apply (MonitorProps.retryLoop_attempts Windows874_Bytes
             base64_EncodeToString (fun _ => True) (fun _ _ _ _ => I)
             [0; 1; 2] reader card None None s s' errs res);
      [discriminate | exact Hrun].
Qed.

(** C2 fails as stated: a card that answers SELECT with 6D00, which is
    not the applet-missing status, is tried three times, not once. *)
Lemma C2_other_failures_are_retried_too :
  let w := Sim.mkWorld ["Reader 0"] [] true [] (Sim.rsp [] x6d x00) in
  let run :=
    smartcard.retryLoop Sim.copyDecoder Sim.copyEncoder
                        [0; 1; 2] "Reader 0" tt None None (Sim.start w) in
  smartcard.selectStatus (x6d, x00) = Some "select applet failed: SW=6D00"
  /\ LogSpec.countSelect (log (snd run)) = 3%nat
  /\ LogSpec.countSelect (log (snd run)) <> 1%nat.
Proof. vm_compute. repeat split. discriminate. Qed.

(** The amended claim on that card: its three failures are not applet
    missing, so the retry loop makes the three attempts with a pause
    after each and returns the error of the third. *)
Lemma C2_three_attempts_on_status_6D00 :
  let w := Sim.mkWorld ["Reader 0"] [] true [] (Sim.rsp [] x6d x00) in
  let msg := "The inserted card is not a supported Thai ID card.: select applet failed: SW=6D00" in
  exists s',
    smartcard.retryLoop Sim.copyDecoder Sim.copyEncoder
      [0; 1; 2] "Reader 0" tt None None (Sim.start w)
    = (Ok (Some tt, None, Some msg), s')
    /\ LogSpec.countSelect (log s') = 3%nat
    /\ LogSpec.countSleep 100 (log s') = 3%nat.
Proof.
  intros w msg.
  destruct (C2_every_failure_is_retried Sim.copyDecoder Sim.copyEncoder
              "Reader 0" tt (Sim.start w))
    as (errs & res & s' & d & Hat & Hl & Hp & Hcases & Hloop).
  assert (Hrun : fst (RetrySpec.attempts Sim.copyDecoder Sim.copyEncoder 3 tt
                        (Sim.start w))
                 = Ok ([msg; msg; msg], (None, Some msg)))
    by (vm_compute; reflexivity).
  rewrite Hat in Hrun. cbn [fst] in Hrun. injection Hrun as -> ->.
  exists s'. split.
  - apply Hloop. repeat constructor.
  - cbn [Sim.start log app] in Hl. rewrite Hl.
    destruct Hcases as [(record & Hres & _) | (m & front & _ & _ & _ & Hsel)];
      [discriminate Hres |].
    split; [exact Hsel | exact Hp].
Defined.

(** With the applet-missing status 6A82 on every attempt the code as it
    is makes the same three attempts and never resets the card: the
    error text never equals either of the texts the loop compares it
    with. *)
Example applet_missing_is_not_recognised :
  let w := Sim.mkWorld ["Reader 0"] [] true [] (Sim.rsp [] x6a x82) in
  let run :=
    smartcard.retryLoop Sim.copyDecoder Sim.copyEncoder
                        [0; 1; 2] "Reader 0" tt None None (Sim.start w) in
  fst run
  = Ok (Some tt, None,
        Some "The inserted card is not a supported Thai ID card.: applet not found (SW=6A82) - card may need reset")
  /\ LogSpec.countSelect (log (snd run)) = 3%nat
  /\ LogSpec.countReset (log (snd run)) = 0%nat.
Proof. vm_compute. repeat split. Qed.

(** C6.  [rd] is any slot.
    (a) Several readers may be listed, in lists that may change from turn
    to turn, and the other slots may behave in any way.  While [rd] is
    in each list once and its card connects at every poll, and [Run]
    takes the messages, [N >= 1] turns of the monitor from its start end
    with the flag of [rd] set, and the events of the polls of [rd] are:
    its connection, the traffic of one read, the hand-over of one message
    (the record or an error), the release of the session, and then
    [N - 1] times a connection and a release and nothing else.  The one
    read is the read of the amended C2 on the session that the connection
    gave.
    (b) A poll whose connection fails hands CARD_REMOVED to the hub when
    the flag was set, and only then; it clears the flag of [rd], touches
    no other flag and sends nothing to a card.
    (c) A poll whose connection succeeds while the flag is set connects
    and releases and does nothing else.
    (d) A poll whose connection succeeds while the flag is clear makes
    the one read, on the session of that connection, hands over the one
    message for its result, releases the session and sets the flag of
    [rd] alone.
    In (b) and (d) the poll waits for ever in the hand-over when [Run]
    does not take the message. *)
Theorem C6_edge_triggered_insertion
        {World Card : Type} `{PCSC World Card} `{HubLink World}
        (Windows874_Bytes : list byte -> string + list byte)
        (base64_EncodeToString : list byte -> string)
        (rd : string) :
  let monitorLoop n :=
    smartcard.monitorLoop Windows874_Bytes base64_EncodeToString n
                          main.reader in
  let pollReader :=
    smartcard.pollReader Windows874_Bytes base64_EncodeToString
                         main.reader in
  let attempts :=
    RetrySpec.attempts Windows874_Bytes base64_EncodeToString 3 in
  (forall Inv : World -> Prop,
      (forall c cmd w, Inv w -> Inv (snd (Transmit c cmd w))) ->
      (forall r w, Inv w -> Inv (snd (Connect r w))) ->
      (forall c d w, Inv w -> Inv (Disconnect c d w)) ->
      (forall m w, Inv w -> exists w', Deliver m w = Some w' /\ Inv w') ->
      (forall w, Inv w ->
         exists pre post w',
           ListReaders w = (inr (pre ++ rd :: post), w')
           /\ ~ In rd pre /\ ~ In rd post /\ Inv w') ->
      (forall w, Inv w -> exists c, fst (Connect rd w) = inr c) ->
      forall (N : nat) (s : Sys World),
        (1 <= N)%nat ->
        Inv (world s) ->
        exists lsN sN d m read,
          monitorLoop N s = (Ok lsN, sN)
          /\ log sN = log s ++ d
          /\ smartcard.getState lsN rd = true
          /\ LogSpec.slotEvents rd d
             = EConnect rd :: read ++ [EBroadcast m; EDisconnect LeaveCard]
                 ++ concat (repeat [EConnect rd; EDisconnect LeaveCard] (N - 1))
          /\ forallb LogSpec.isTraffic read = true
          /\ LogSpec.insertedOrReadFailed m
          /\ RetrySpec.readOfSlot Windows874_Bytes base64_EncodeToString
               Inv rd read m)
  /\ (forall ls s e w',
        Connect rd (world s) = (inl e, w') ->
        pollReader ls rd s
        = if smartcard.getState ls rd then
            match Deliver LogSpec.cardRemoved w' with
            | Some w2 =>
                (Ok (<[rd := false]> ls),
                 mkSys w2 (log s ++ [EConnect rd;
                                     EBroadcast LogSpec.cardRemoved]))
            | None => (Stuck, mkSys w' (log s ++ [EConnect rd]))
            end
          else (Ok ls, mkSys w' (log s ++ [EConnect rd])))
  /\ (forall ls s card w',
        Connect rd (world s) = (inr card, w') ->
        smartcard.getState ls rd = true ->
        pollReader ls rd s
        = (Ok ls, mkSys (Disconnect card LeaveCard w')
                        (log s ++ [EConnect rd; EDisconnect LeaveCard])))
  /\ (forall ls s card w0,
        Connect rd (world s) = (inr card, w0) ->
        smartcard.getState ls rd = false ->
        exists errs res s1 read m,
          attempts card (mkSys w0 (log s ++ [EConnect rd]))
          = (Ok (errs, res), s1)
          /\ log s1 = log s ++ EConnect rd :: read
          /\ forallb LogSpec.isTraffic read = true
          /\ LogSpec.insertionMessage (fst res) (snd res) = Some m
          /\ LogSpec.insertedOrReadFailed m
          /\ pollReader ls rd s
             = match Deliver m (world s1) with
               | Some w2 =>
                   (Ok (<[rd := true]> ls),
                    mkSys (Disconnect card LeaveCard w2)
                          (log s1 ++ [EBroadcast m; EDisconnect LeaveCard]))
               | None => (Stuck, s1)
               end).
Proof.
  intros monitorLoop pollReader attempts. split; [| split; [| split]].
  - intros Inv HT HC HD HV HL HP N s HN Hw.
    destruct N as [| n]; [lia |].
    replace (S n - 1)%nat with n by lia.
    exact (PollProps.ticks_slot Windows874_Bytes base64_EncodeToString
             Inv rd HT HC HD HV HL HP n s Hw).
  - intros ls s e w' Hc.
    exact (PollProps.poll_absent Windows874_Bytes base64_EncodeToString
             ls rd s e w' Hc).
  - intros ls s card w' Hc Hst.
    exact (PollProps.poll_present_idle Windows874_Bytes base64_EncodeToString
             ls rd s card w' Hc Hst).
  - intros ls s card w0 Hc Hst.
    destruct (MonitorProps.attempts_run Windows874_Bytes
                base64_EncodeToString (fun _ => True) (fun _ _ _ _ => I)
                3 card (mkSys w0 (log s ++ [EConnect rd])))
      as (errs & res & s1 & read & Hrun & Hl1 & Ht1 & _).
    cbn [log] in Hl1. rewrite <- app_assoc in Hl1. cbn [app] in Hl1.
    destruct (PollProps.poll_first Windows874_Bytes base64_EncodeToString
                ls rd s s1 card w0 errs res Hc Hst Hrun)
      as (m & Hm & Hkind & Hp).
    exists errs, res, s1, read, m.
    split; [exact Hrun |]. split; [exact Hl1 |]. split; [exact Ht1 |].
    split; [exact Hm |]. split; [exact Hkind | exact Hp].
Qed.

(** The specification's edge-triggering test, with a second reader: two
    readers are listed and both cards are present on three consecutive
    turns.  The events of the second slot are one connection with its
    read, one message and the release, and then twice a connection and a
    release. *)
Lemma C6_three_polls_one_message :
  let w := Sim.mkWorld ["Reader 0"; "Reader 1"] [] true
             [Sim.rsp [] x90 x00] (Sim.rsp [] x6a x82) in
  exists lsN sN m read,
    smartcard.monitorLoop Sim.copyDecoder Sim.copyEncoder 3 main.reader
                          (Sim.start w)
    = (Ok lsN, sN)
    /\ smartcard.getState lsN "Reader 1" = true
    /\ LogSpec.slotEvents "Reader 1" (log sN)
       = EConnect "Reader 1" :: read
           ++ [ EBroadcast m; EDisconnect LeaveCard;
                EConnect "Reader 1"; EDisconnect LeaveCard;
                EConnect "Reader 1"; EDisconnect LeaveCard ]
    /\ forallb LogSpec.isTraffic read = true
    /\ LogSpec.insertedOrReadFailed m.
Proof.
  intros w.
  pose (Inv := fun w0 : Sim.World =>
                 Sim.readers w0 = ["Reader 0"; "Reader 1"]
                 /\ Sim.presence w0 = []
                 /\ Sim.presentAfter w0 = true).
  assert (HT : forall (c : unit) cmd w0, Inv w0 -> Inv (snd (Transmit c cmd w0))).
  { intros c cmd w0 (Hr & Hp & Ha). unfold Inv. simpl.
    unfold Sim.simTransmit. destruct (Sim.script w0); simpl; auto. }
  assert (HC : forall r w0, Inv w0 -> Inv (snd (Connect r w0))).
  { intros r w0 (Hr & Hp & Ha). unfold Inv. simpl. unfold Sim.simConnect.
    rewrite Hp. simpl. auto. }
  assert (HD : forall (c : unit) d w0, Inv w0 -> Inv (Disconnect c d w0)).
  { intros c d w0 Hw. exact Hw. }
  assert (HV : forall m w0, Inv w0 -> exists w', Deliver m w0 = Some w' /\ Inv w').
  { intros m w0 Hw. exists w0. split; [reflexivity | exact Hw]. }
  assert (HL : forall w0, Inv w0 ->
             exists pre post w',
               ListReaders w0 = (inr (pre ++ "Reader 1" :: post), w')
               /\ ~ In "Reader 1" pre /\ ~ In "Reader 1" post /\ Inv w').
  { intros w0 (Hr & Hp & Ha). exists ["Reader 0"], [], w0. simpl.
    unfold Sim.simListReaders. rewrite Hr.
    split; [reflexivity |]. split; [intros [Hx | []]; discriminate Hx |].
    split; [intros [] |]. repeat split; assumption. }
  assert (HP : forall w0, Inv w0 ->
             exists c : unit, fst (Connect "Reader 1" w0) = inr c).
  { intros w0 (Hr & Hp & Ha). exists tt. simpl. unfold Sim.simConnect.
    rewrite Hp, Ha. reflexivity. }
  destruct (proj1 (C6_edge_triggered_insertion Sim.copyDecoder
                     Sim.copyEncoder "Reader 1")
              Inv HT HC HD HV HL HP 3%nat (Sim.start w))
    as (lsN & sN & d & m & read & HN & Hl & Hst & Hev & Htr & Hkind & _).
  - lia.
  - repeat split.
  - exists lsN, sN, m, read. split; [exact HN |]. split; [exact Hst |].
    cbn [Sim.start log app] in Hl. rewrite Hl.
    split; [exact Hev |]. split; [exact Htr | exact Hkind].
Defined.

(** X1.  Whatever the readers, the cards and the hub do, any number of
    turns of the monitor with the handlers of [main] never panics (no nil
    dereference): it ends normally, or it waits for ever in the hand-over
    of a message that [Run] does not take.  It hands to the hub only
    CARD_INSERTED, CARD_REMOVED, the error 1001 or the error 1003, and it
    never disconnects a card with [ResetCard]. *)
Theorem X1_monitor_is_safe
        {World Card : Type} `{PCSC World Card} `{HubLink World}
        (Windows874_Bytes : list byte -> string + list byte)
        (base64_EncodeToString : list byte -> string)
        (ticks : nat) (s : Sys World) :
  exists r s' d,
    smartcard.monitorLoop Windows874_Bytes base64_EncodeToString ticks
                          main.reader s
    = (r, s')
    /\ log s' = log s ++ d
    /\ Forall LogSpec.monitorMessage (LogSpec.broadcastsOf d)
    /\ LogSpec.countReset d = 0%nat
    /\ match r with
       | Ok _ => True
       | Stuck =>
           exists m, LogSpec.monitorMessage m /\ Deliver m (world s') = None
       | Panic => False
       end.
Proof.
  apply (PollProps.ticks_summary Windows874_Bytes base64_EncodeToString
           ticks ∅ s).
Qed.

(** X2.  One pass over the listed readers never panics and hands at most
    one message per listed reader to the hub.  When it ends, the flag of
    every slot that is not listed is as it was: a reader that disappears
    from the list keeps its flag, and no CARD_REMOVED is sent for it.
    Otherwise it waits for ever in the hand-over of a message that [Run]
    does not take. *)
Theorem X2_pass_over_readers_frame
        {World Card : Type} `{PCSC World Card} `{HubLink World}
        (Windows874_Bytes : list byte -> string + list byte)
        (base64_EncodeToString : list byte -> string)
        (readers : list string) (lastState : gmap string bool)
        (s : Sys World) :
  exists r s' d,
    smartcard.pollReaders Windows874_Bytes base64_EncodeToString main.reader
                          lastState readers s
    = (r, s')
    /\ log s' = log s ++ d
    /\ (length (LogSpec.broadcastsOf d) <= length readers)%nat
    /\ match r with
       | Ok ls' =>
           forall rd, ~ In rd readers ->
             smartcard.getState ls' rd = smartcard.getState lastState rd
       | Stuck =>
           exists m, LogSpec.monitorMessage m /\ Deliver m (world s') = None
       | Panic => False
       end.
Proof.
  destruct (PollProps.pollReaders_summary Windows874_Bytes
              base64_EncodeToString readers lastState s)
    as (r & s' & d & Hrun & Hl & _ & Hn & _ & Hend).
  exists r, s', d. split; [exact Hrun |]. split; [exact Hl |].
  split; [exact Hn |].
  destruct r as [ls' | |]; [| exact Hend | exact Hend].
  intros rd Hnin. unfold smartcard.getState. now rewrite (Hend rd Hnin).
Qed.

(** X3.  Removal re-arms the slot.  When the flag of a slot is set, a
    poll whose connection fails hands CARD_REMOVED to the hub and clears
    the flag; when [Run] has taken that message, a following poll whose
    connection succeeds reads the card and hands over one insertion
    message, after CARD_REMOVED, and sets the flag again, or it waits
    for ever in that hand-over when [Run] does not take the message. *)
Theorem X3_removal_rearms_the_slot
        {World Card : Type} `{PCSC World Card} `{HubLink World}
        (Windows874_Bytes : list byte -> string + list byte)
        (base64_EncodeToString : list byte -> string)
        (rd : string) (lastState : gmap string bool) (s : Sys World)
        (e : string) (w1 w1' w2 : World) (card : Card) :
  smartcard.getState lastState rd = true ->
  Connect rd (world s) = (inl e, w1) ->
  Deliver LogSpec.cardRemoved w1 = Some w1' ->
  Connect rd w1' = (inr card, w2) ->
  exists ls1 s1 r2 s2 m,
    smartcard.pollReader Windows874_Bytes base64_EncodeToString main.reader
                         lastState rd s = (Ok ls1, s1)
    /\ smartcard.getState ls1 rd = false
    /\ LogSpec.broadcastsOf (log s1)
       = LogSpec.broadcastsOf (log s) ++ [LogSpec.cardRemoved]
    /\ smartcard.pollReader Windows874_Bytes base64_EncodeToString
         main.reader ls1 rd s1 = (r2, s2)
    /\ LogSpec.insertedOrReadFailed m
    /\ match r2 with
       | Ok ls2 =>
           smartcard.getState ls2 rd = true
           /\ LogSpec.broadcastsOf (log s2)
              = LogSpec.broadcastsOf (log s) ++ [LogSpec.cardRemoved; m]
       | Stuck =>
           Deliver m (world s2) = None
           /\ LogSpec.broadcastsOf (log s2)
              = LogSpec.broadcastsOf (log s) ++ [LogSpec.cardRemoved]
       | Panic => False
       end.
Proof.
  intros Hst Hc1 Hd1 Hc2.
  pose proof (PollProps.poll_absent Windows874_Bytes base64_EncodeToString
                lastState rd s e w1 Hc1) as Hp1.
  rewrite Hst, Hd1 in Hp1.
  set (s1 := mkSys w1' (log s ++ [EConnect rd; EBroadcast LogSpec.cardRemoved]))
    in *.
  destruct (MonitorProps.attempts_run Windows874_Bytes base64_EncodeToString
              (fun _ => True) (fun _ _ _ _ => I) 3 card
              (mkSys w2 (log s1 ++ [EConnect rd])))
    as (errs & res & sr & read & Hrun & Hlr & Htr & _).
  cbn [log] in Hlr.
  destruct (SlotProps.traffic_counts read Htr) as (_ & _ & _ & Hbr).
  destruct (PollProps.poll_first Windows874_Bytes base64_EncodeToString
              (<[rd := false]> lastState) rd s1 sr card w2 errs res Hc2
              (MonitorProps.getState_insert _ _ _) Hrun)
    as (m & _ & Hkind & Hp2).
  assert (Hb1 : LogSpec.broadcastsOf (log s1)
                = LogSpec.broadcastsOf (log s) ++ [LogSpec.cardRemoved]).
  { subst s1. cbn [log]. now rewrite LogProps.broadcastsOf_app. }
  assert (Hbr' : LogSpec.broadcastsOf (log sr)
                 = LogSpec.broadcastsOf (log s) ++ [LogSpec.cardRemoved]).
  { rewrite Hlr, !LogProps.broadcastsOf_app, Hbr, Hb1. cbn.
    now rewrite !app_nil_r. }
  destruct (Deliver m (world sr)) as [w3 |] eqn:Hd2.
  - eexists _, s1, _, _, m. split; [exact Hp1 |].
    split; [apply MonitorProps.getState_insert |]. split; [exact Hb1 |].
    split; [exact Hp2 |]. split; [exact Hkind |].
    split; [apply MonitorProps.getState_insert |].
    cbn [log]. rewrite LogProps.broadcastsOf_app, Hbr'. cbn.
    now rewrite <- app_assoc.
  - eexists _, s1, _, _, m. split; [exact Hp1 |].
    split; [apply MonitorProps.getState_insert |]. split; [exact Hb1 |].
    split; [exact Hp2 |]. split; [exact Hkind |].
    split; [exact Hd2 | exact Hbr'].
Qed.

(** A card present, absent, present on three turns of a single reader. *)
Lemma X3_present_absent_present :
  let w := Sim.mkWorld ["Reader 0"] [false; true] false
             [Sim.rsp [] x90 x00] (Sim.rsp [] x6a x82) in
  exists ls2 s2 m,
    smartcard.pollReaders Sim.copyDecoder Sim.copyEncoder main.reader
      (<["Reader 0" := true]> ∅) ["Reader 0"; "Reader 0"] (Sim.start w)
    = (Ok ls2, s2)
    /\ smartcard.getState ls2 "Reader 0" = true
    /\ LogSpec.broadcastsOf (log s2) = [LogSpec.cardRemoved; m]
    /\ LogSpec.insertedOrReadFailed m.
Proof.
  intros w.
  assert (Hc1 : Connect "Reader 0" (world (Sim.start w))
                = (inl "no card",
                   Sim.mkWorld ["Reader 0"] [true] false
                     [Sim.rsp [] x90 x00] (Sim.rsp [] x6a x82)))
    by reflexivity.
  assert (Hd1 : Deliver LogSpec.cardRemoved
                  (Sim.mkWorld ["Reader 0"] [true] false
                     [Sim.rsp [] x90 x00] (Sim.rsp [] x6a x82))
                = Some (Sim.mkWorld ["Reader 0"] [true] false
                          [Sim.rsp [] x90 x00] (Sim.rsp [] x6a x82)))
    by reflexivity.
  assert (Hc2 : Connect "Reader 0"
                  (Sim.mkWorld ["Reader 0"] [true] false
                     [Sim.rsp [] x90 x00] (Sim.rsp [] x6a x82))
                = (inr tt,
                   Sim.mkWorld ["Reader 0"] [] false
                     [Sim.rsp [] x90 x00] (Sim.rsp [] x6a x82)))
    by reflexivity.
  destruct (X3_removal_rearms_the_slot Sim.copyDecoder Sim.copyEncoder
              "Reader 0" (<["Reader 0" := true]> ∅) (Sim.start w)
              _ _ _ _ _ (MonitorProps.getState_insert _ _ _) Hc1 Hd1 Hc2)
    as (ls1 & s1 & r2 & s2 & m & Hp1 & _ & _ & Hp2 & Hm & Hend).
  destruct r2 as [ls2 | |].
  - destruct Hend as [Hst Hb].
    exists ls2, s2, m. split; [| split; [exact Hst | split; [exact Hb | exact Hm]]].
    cbn [smartcard.pollReaders].
    rewrite (EngineProps.bind_ok _ _ _ _ _ Hp1).
    rewrite (EngineProps.bind_ok _ _ _ _ _ Hp2). reflexivity.
  - destruct Hend.
  - destruct Hend as [Hnone _]. discriminate Hnone.
Defined.

(** X4.  While no reader is listed, each turn hands the error 1001 to
    the hub and then waits two seconds, as long as [Run] takes the
    message.  [n] turns in which it does give [n] errors and [n] waits;
    otherwise the monitor waits for ever in the hand-over of the first
    message that [Run] does not take, after the [k < n] turns before it.
    Nothing is sent to a card and no flag changes. *)
Theorem X4_no_reader_is_reported_every_turn
        {World Card : Type} `{PCSC World Card} `{HubLink World}
        (Windows874_Bytes : list byte -> string + list byte)
        (base64_EncodeToString : list byte -> string)
        (Inv : World -> Prop) (n : nat)
        (lastState : gmap string bool) (s : Sys World) :
  (forall w, Inv w -> exists w', ListReaders w = (inr [], w') /\ Inv w') ->
  (forall m w w', Inv w -> Deliver m w = Some w' -> Inv w') ->
  Inv (world s) ->
  exists k r s' d,
    smartcard.monitorTicks Windows874_Bytes base64_EncodeToString n
                           main.reader lastState s
    = (r, s')
    /\ log s' = log s ++ d
    /\ LogSpec.broadcastsOf d = repeat LogSpec.readerNotFound k
    /\ LogSpec.countSleep 2000 d = k
    /\ LogSpec.transmitsOf d = []
    /\ match r with
       | Ok ls' => k = n /\ ls' = lastState
       | Stuck =>
           (k < n)%nat /\ Deliver LogSpec.readerNotFound (world s') = None
       | Panic => False
       end.
Proof.
  intros HL HD Hw.
  exact (PollProps.ticks_no_reader Windows874_Bytes base64_EncodeToString
           Inv n HL HD lastState s Hw).
Qed.

(** Three turns without a reader, with a hub that takes every message. *)
Lemma X4_three_turns_without_reader :
  exists s',
    smartcard.monitorLoop Sim.copyDecoder Sim.copyEncoder 3 main.reader
      (Sim.start (Sim.mkWorld [] [] false [] (inl "no card")))
    = (Ok ∅, s')
    /\ LogSpec.broadcastsOf (log s')
       = [LogSpec.readerNotFound; LogSpec.readerNotFound;
          LogSpec.readerNotFound].
Proof.
  destruct (X4_no_reader_is_reported_every_turn Sim.copyDecoder
              Sim.copyEncoder (fun w => Sim.readers w = []) 3 ∅
              (Sim.start (Sim.mkWorld [] [] false [] (inl "no card"))))
    as (k & r & s' & d & Hrun & Hl & Hb & _ & _ & Hend).
  - intros w Hw. exists w. simpl. unfold Sim.simListReaders.
    rewrite Hw. split; reflexivity.
  - intros m w w' Hw Hd. simpl in Hd. injection Hd as <-. exact Hw.
  - reflexivity.
  - destruct r as [ls' | |].
    + destruct Hend as [-> ->]. exists s'. split; [exact Hrun |].
      rewrite Hl. exact Hb.
    + destruct Hend.
    + destruct Hend as [_ Hnone]. discriminate Hnone.
Defined.

(** X5.  While the listing of the readers fails, the monitor hands
    nothing to the hub: each turn only lists, waits two seconds and
    leaves the flags alone. *)
Theorem X5_listing_failure_is_silent
        {World Card : Type} `{PCSC World Card} `{HubLink World}
        (Windows874_Bytes : list byte -> string + list byte)
        (base64_EncodeToString : list byte -> string)
        (Inv : World -> Prop) (n : nat)
        (lastState : gmap string bool) (s : Sys World) :
  (forall w, Inv w -> exists e w', ListReaders w = (inl e, w') /\ Inv w') ->
  Inv (world s) ->
  exists s',
    smartcard.monitorTicks Windows874_Bytes base64_EncodeToString n
                           main.reader lastState s
    = (Ok lastState, s')
    /\ log s' = log s ++ concat (repeat [EListReaders; ESleep 2000] n)
    /\ LogSpec.broadcastsOf (log s') = LogSpec.broadcastsOf (log s).
Proof.
  intros HL Hw.
  destruct (PollProps.ticks_list_error Windows874_Bytes base64_EncodeToString
              Inv n HL lastState s Hw)
    as (s' & Hrun & Hl & _).
  exists s'. split; [exact Hrun |]. split; [exact Hl |].
  rewrite Hl, LogProps.broadcastsOf_app.
  assert (Hq : LogSpec.broadcastsOf
                 (concat (repeat [EListReaders; ESleep 2000] n)) = []).
  { clear. induction n as [| n IH]; [reflexivity | exact IH]. }
  rewrite Hq. apply app_nil_r.
Qed.

(** Two turns against a PC/SC service that is down. *)
Lemma X5_service_down :
  exists s',
    smartcard.monitorLoop (H := Sim.downPCSC) Sim.copyDecoder Sim.copyEncoder
      2 (main.reader (H := Sim.downHub)) (mkSys tt [])
    = (Ok ∅, s')
    /\ LogSpec.broadcastsOf (log s') = [].
Proof.
  destruct (X5_listing_failure_is_silent (H := Sim.downPCSC)
              (H0 := Sim.downHub) Sim.copyDecoder
              Sim.copyEncoder (fun _ => True) 2 ∅ (mkSys tt []))
    as (s' & Hrun & _ & Hb).
  - intros w _. exists "service not available", w. split; [reflexivity | exact I].
  - exact I.
  - exists s'. split; [exact Hrun | exact Hb].
Defined.

(** X15.  Every poll of a slot, with the handlers of [main], asks for
    one card session and for no other.  When it gets none it sends
    nothing to a card and releases nothing.  When it gets the session
    and comes to its end, it has given the session back exactly once, as
    its last action and leaving the card powered.  It does not come to
    its end when [Run] does not take the message of the insertion: the
    poll then waits in the hand-over for ever, and the session it holds
    is never released. *)
Theorem X15_a_poll_releases_its_session_unless_the_hub_is_stuck
        {World Card : Type} `{PCSC World Card} `{HubLink World}
        (Windows874_Bytes : list byte -> string + list byte)
        (base64_EncodeToString : list byte -> string)
        (lastState : gmap string bool) (reader : string) (s : Sys World) :
  exists r s' d,
    smartcard.pollReader Windows874_Bytes base64_EncodeToString main.reader
                         lastState reader s
    = (r, s')
    /\ log s' = log s ++ EConnect reader :: d
    /\ LogSpec.countConnect d = 0%nat
    /\ r <> Panic
    /\ match fst (Connect reader (world s)) with
       | inl _ =>
           LogSpec.countDisconnect d = 0%nat /\ LogSpec.transmitsOf d = []
       | inr _ =>
           match r with
           | Stuck =>
               LogSpec.countDisconnect d = 0%nat
               /\ exists m,
                    LogSpec.insertedOrReadFailed m
                    /\ Deliver m (world s') = None
           | _ =>
               exists body,
                 d = body ++ [EDisconnect LeaveCard]
                 /\ LogSpec.countDisconnect body = 0%nat
           end
       end.
Proof.
  destruct (Connect reader (world s)) as [[e | card] w'] eqn:Hc; cbn [fst].
  - rewrite (PollProps.poll_absent Windows874_Bytes base64_EncodeToString
               lastState reader s e w' Hc).
    destruct (smartcard.getState lastState reader);
      [destruct (Deliver LogSpec.cardRemoved w') |];
      eexists _, _, _; (split; [reflexivity |]); cbn [log];
      (split; [reflexivity |]); repeat split; discriminate.
  - destruct (smartcard.getState lastState reader) eqn:Hst.
    + rewrite (PollProps.poll_present_idle Windows874_Bytes
                 base64_EncodeToString lastState reader s card w' Hc Hst).
      eexists _, _, _. split; [reflexivity |]. cbn [log].
      split; [reflexivity |]. split; [reflexivity |].
      split; [discriminate |]. exists []. split; reflexivity.
    + destruct (MonitorProps.attempts_run Windows874_Bytes
                  base64_EncodeToString (fun _ => True) (fun _ _ _ _ => I)
                  3 card (mkSys w' (log s ++ [EConnect reader])))
        as (errs & res & s1 & read & Hrun & Hl1 & Ht1 & _).
      cbn [log] in Hl1. rewrite <- app_assoc in Hl1. cbn [app] in Hl1.
      destruct (SlotProps.traffic_counts read Ht1) as (Hcn & Hdn & _ & _).
      destruct (PollProps.poll_first Windows874_Bytes base64_EncodeToString
                  lastState reader s s1 card w' errs res Hc Hst Hrun)
        as (m & _ & Hkind & Hp).
      rewrite Hp.
      destruct (Deliver m (world s1)) as [w2 |] eqn:Hd.
      * eexists _, _, (read ++ [EBroadcast m; EDisconnect LeaveCard]).
        split; [reflexivity |]. cbn [log].
        split; [rewrite Hl1; now rewrite <- app_assoc |].
        split; [rewrite SlotProps.countConnect_app, Hcn; reflexivity |].
        split; [discriminate |].
        exists (read ++ [EBroadcast m]).
        split; [now rewrite <- app_assoc |].
        rewrite SlotProps.countDisconnect_app, Hdn. reflexivity.
      * exists Stuck, s1, read. split; [reflexivity |].
        split; [exact Hl1 |]. split; [exact Hcn |].
        split; [discriminate |]. split; [exact Hdn |].
        exists m. split; [exact Hkind | exact Hd].
Qed.

(** The reader next to the hub of the program.  One client is
    registered and its queue is full.  Two readers are listed, each with
    a card.  [Run] takes the message for the first card and stops in
    [unregisterClient]; the poll of the second card then waits in its
    hand-over for ever: two sessions were opened and one was released. *)
Example stuck_hub_holds_the_session :
  let full := websocket.mkClient (repeat [x7b; x7d] 256) false false in
  let h := websocket.mkHub (<[0%nat := true]> ∅) (<[0%nat := full]> ∅) in
  let w := Sim.mkLinked
             (Sim.mkWorld ["Reader 0"; "Reader 1"] [] true []
                          (Sim.rsp [] x6d x00))
             (websocket.Running h) in
  let run :=
    smartcard.monitorLoop Sim.copyDecoder Sim.copyEncoder 1 main.reader
                          (mkSys w []) in
  fst run = Stuck
  /\ match Sim.run (world (snd run)) with
     | websocket.Blocked _ => True
     | _ => False
     end
  /\ length (LogSpec.broadcastsOf (log (snd run))) = 1%nat
  /\ LogSpec.countConnect (log (snd run)) = 2%nat
  /\ LogSpec.countDisconnect (log (snd run)) = 1%nat.
Proof. vm_compute. repeat split. Qed.
